(** * AVWatch: the NHTSA ingestion pipeline of the seeding script

    A shallow embedding of [scripts/seed-data.ts] (the geocoding variant):
    CSV scanner, date parser, numeric parsing, coordinate resolution with
    its two caches, record normalisation and the batched upsert loop.

    Conventions of the embedding.
    - A JavaScript string is a [string]: a sequence of 8-bit code units.
      Code units below 128 are modelled exactly, the Latin-1 letters are
      case-mapped as JavaScript does, and the three Latin-1 characters whose
      upper case leaves Latin-1 are left unchanged by [toUpperCase].
    - A JavaScript number is a [jsnum]: a rational, [NaN] or an infinity.
      Rounding to binary64 is not modelled.
    - A plain object used as a dictionary is a [gmap string _]; where the
      key comes from the data ([STATE_COORDS]) the properties inherited from
      [Object.prototype] are modelled too.
    - [Map] caches, the geocoding service, [Math.random] and the clock are an
      explicit world state and oracles that are threaded through the calls. *)

From Stdlib Require Import ZArith QArith Lqa List Ascii String Bool Lia DecimalString.
From Stdlib Require DecimalNat.
From stdpp Require Import base option list gmap strings.
Import ListNotations.

Local Open Scope string_scope.
Local Open Scope list_scope.

(** ** Strings *)

Module JsString.

Definition code (c : ascii) : N := N_of_ascii c.

(** White space and line terminators that [trim] and [\s] recognise,
    among the code units below 256. *)
Definition is_ws (c : ascii) : bool :=
  let n := code c in
  ((9 <=? n) && (n <=? 13) || (n =? 32) || (n =? 160))%N.

Definition is_digit (c : ascii) : bool :=
  let n := code c in ((48 <=? n) && (n <=? 57))%N.

Definition digit_val (c : ascii) : Z := Z.of_N (code c) - 48.

Definition is_upper (c : ascii) : bool :=
  let n := code c in ((65 <=? n) && (n <=? 90))%N.

Definition is_lower (c : ascii) : bool :=
  let n := code c in ((97 <=? n) && (n <=? 122))%N.

Definition lower_char (c : ascii) : ascii :=
  let n := code c in
  if ((65 <=? n) && (n <=? 90) || (192 <=? n) && (n <=? 222) && negb (n =? 215))%N
  then ascii_of_N (n + 32) else c.

Definition upper_char (c : ascii) : ascii :=
  let n := code c in
  if ((97 <=? n) && (n <=? 122) || (224 <=? n) && (n <=? 254) && negb (n =? 247))%N
  then ascii_of_N (n - 32) else c.

Fixpoint map_chars (f : ascii -> ascii) (s : string) : string :=
  match s with
  | EmptyString => EmptyString
  | String c r => String (f c) (map_chars f r)
  end.

Definition toLowerCase : string -> string := map_chars lower_char.
Definition toUpperCase : string -> string := map_chars upper_char.

Fixpoint trimStart (s : string) : string :=
  match s with
  | String c r => if is_ws c then trimStart r else s
  | EmptyString => EmptyString
  end.

(** [trimEnd] keeps a character when it is not white space or when
    something is left after it. *)
Fixpoint trimEnd (s : string) : string :=
  match s with
  | EmptyString => EmptyString
  | String c r =>
      match trimEnd r with
      | EmptyString => if is_ws c then EmptyString else String c EmptyString
      | r' => String c r'
      end
  end.

Definition trim (s : string) : string := trimEnd (trimStart s).

(** [s.replace(/c/g, '')] for a single character [c]. *)
Fixpoint remove_char (x : ascii) (s : string) : string :=
  match s with
  | EmptyString => EmptyString
  | String c r => if Ascii.eqb c x then remove_char x r else String c (remove_char x r)
  end.

(** [s.split(sep)] for a single character separator: never empty. *)
Fixpoint split_acc (sep : ascii) (cur : string) (s : string) : list string :=
  match s with
  | EmptyString => [cur]
  | String c r =>
      if Ascii.eqb c sep then cur :: split_acc sep EmptyString r
      else split_acc sep (cur ++ String c EmptyString) r
  end.

Definition split (sep : ascii) (s : string) : list string :=
  split_acc sep EmptyString s.

Fixpoint startsWith (p s : string) : bool :=
  match p, s with
  | EmptyString, _ => true
  | String a p', String b s' => Ascii.eqb a b && startsWith p' s'
  | String _ _, EmptyString => false
  end.

Fixpoint includes (s needle : string) : bool :=
  startsWith needle s ||
  match s with
  | EmptyString => false
  | String _ r => includes r needle
  end.

(** [s.slice(n)] *)
Fixpoint dropChars (n : nat) (s : string) : string :=
  match n, s with
  | O, _ => s
  | S n', String _ r => dropChars n' r
  | S _, EmptyString => EmptyString
  end.

(** Truthiness of a string: the empty string is falsy. *)
Definition truthy (s : string) : bool := negb (String.eqb s "").

Fixpoint count_char (x : ascii) (s : string) : nat :=
  match s with
  | EmptyString => 0
  | String c r => (if Ascii.eqb c x then 1 else 0) + count_char x r
  end.

End JsString.

Import JsString.

(** A raw record: source column name to value ([Record<string, string>]).
    The keys the pipeline reads are fixed literals, none of them the name of
    a property of [Object.prototype]; a header of that name is outside the
    model. *)
Abbreviation RawRecord := (gmap string string).

(** [record[k] || d]: the value when present and non-empty, else [d]. *)
Definition field_or (r : RawRecord) (k : string) (d : string) : string :=
  match r !! k with
  | Some v => if truthy v then v else d
  | None => d
  end.

(** [record[a] || record[b]], possibly [undefined] or empty (both falsy):
    [None] stands for a falsy result. *)
Definition field (r : RawRecord) (k : string) : option string :=
  match r !! k with
  | Some v => if truthy v then Some v else None
  | None => None
  end.

Definition or_else {A} (a b : option A) : option A :=
  match a with Some _ => a | None => b end.

(** ** CSV parsing *)

Module Csv.

Definition quote : ascii := ascii_of_N 34.
Definition comma : ascii := ","%char.
Definition newline : ascii := ascii_of_N 10.

(** The three locals of the scanner loop of [parseCSVLine]. *)
Record scanner := Scanner {
  result : list string;
  current : string;
  inQuotes : bool
}.

Definition scan_char (st : scanner) (char : ascii) : scanner :=
  if Ascii.eqb char quote then
    Scanner (result st) (current st) (negb (inQuotes st))
  else if Ascii.eqb char comma && negb (inQuotes st) then
    Scanner (result st ++ [trim (current st)]) EmptyString (inQuotes st)
  else
    Scanner (result st) (current st ++ String char EmptyString) (inQuotes st).

Fixpoint scan (st : scanner) (line : string) : scanner :=
  match line with
  | EmptyString => st
  | String char rest => scan (scan_char st char) rest
  end.

Definition parseCSVLine (line : string) : list string :=
  let st := scan (Scanner [] EmptyString false) line in
  result st ++ [trim (current st)].

(** [values[idx]] with its quote characters removed, the empty string
    when the row has no such column. *)
Definition cell (values : list string) (idx : nat) : string :=
  match values !! idx with
  | Some v => remove_char quote v
  | None => EmptyString
  end.

(** [headers.forEach((header, idx) => record[header] = ...)] from [idx]. *)
Fixpoint fill (values : list string) (idx : nat) (headers : list string)
    (record : RawRecord) : RawRecord :=
  match headers with
  | [] => record
  | header :: hs => fill values (S idx) hs (<[header := cell values idx]> record)
  end.

Definition make_record (headers values : list string) : RawRecord :=
  fill values 0 headers ∅.

Fixpoint rows (headers : list string) (lines : list string) : list RawRecord :=
  match lines with
  | [] => []
  | l :: ls =>
      let line := trim l in
      if truthy line then make_record headers (parseCSVLine line) :: rows headers ls
      else rows headers ls
  end.

Definition parseCSV (csvText : string) : list RawRecord :=
  let lines := split newline csvText in
  match lines with
  | first :: (_ :: _) as rest =>
      let headers := map (fun h => trim (remove_char quote h)) (parseCSVLine first) in
      rows headers (tail lines)
  | _ => []
  end.

(** The separators of a line, said without the scanner: position [i]
    holds a separator when it holds a comma and an even number of quote
    characters precede it. *)
Definition is_separator (line : string) (i : nat) : bool :=
  match String.get i line with
  | Some c => Ascii.eqb c comma && Nat.even (count_char quote (String.substring 0 i line))
  | None => false
  end.

Definition separators (line : string) : nat :=
  length (filter (fun i => is_separator line i = true) (seq 0 (String.length line))).

(** The same count with the parity of the quotes seen so far. *)
Definition is_separator_from (odd : bool) (line : string) (i : nat) : bool :=
  match String.get i line with
  | Some c => Ascii.eqb c comma &&
              xorb odd (Nat.even (count_char quote (String.substring 0 i line)))
  | None => false
  end.

Definition separators_from (odd : bool) (line : string) : nat :=
  length (filter (fun i => is_separator_from odd line i = true)
                 (seq 0 (String.length line))).

Definition quote_free (st : scanner) : Prop :=
  Forall (fun f => count_char quote f = 0) (result st) /\
  count_char quote (current st) = 0.

End Csv.

(** A string of one double quote character. *)
Definition dq : string := String Csv.quote "".

(** ** Numbers *)

(** A JavaScript number: a rational, [NaN] or an infinity. *)
Inductive jsnum : Type :=
  | Num (q : Q)
  | NaN
  | Inf (negative : bool).

Module JsNumber.
Local Open Scope Z_scope.

Definition isNaN (x : jsnum) : bool :=
  match x with NaN => true | _ => false end.

(** [x < y] and [x > y] against a finite bound; [NaN] compares false. *)
Definition lt (x : jsnum) (y : Q) : bool :=
  match x with
  | Num q => negb (Qle_bool y q)
  | NaN => false
  | Inf negative => negative
  end.

Definition gt (x : jsnum) (y : Q) : bool :=
  match x with
  | Num q => negb (Qle_bool q y)
  | NaN => false
  | Inf negative => negb negative
  end.

(** The value of a digit in a radix up to 36. *)
Definition digit_of (radix : Z) (c : ascii) : option Z :=
  let n := Z.of_N (code c) in
  let v := if is_digit c then Some (n - 48)
           else if is_lower c then Some (n - 97 + 10)
           else if is_upper c then Some (n - 65 + 10)
           else None in
  match v with
  | Some d => if (d <? radix)%Z then Some d else None
  | None => None
  end.

(** The value of the longest prefix of digits, after a first digit [acc]. *)
Fixpoint digits_from (radix : Z) (acc : Z) (s : string) : Z :=
  match s with
  | String c r =>
      match digit_of radix c with
      | Some d => digits_from radix (acc * radix + d)%Z r
      | None => acc
      end
  | EmptyString => acc
  end.

Definition leading_int (radix : Z) (s : string) : option Z :=
  match s with
  | String c r =>
      match digit_of radix c with
      | Some d => Some (digits_from radix d r)
      | None => None
      end
  | EmptyString => None
  end.

(** The sign that [parseInt] and [parseFloat] strip. *)
Definition strip_sign (s : string) : Z * string :=
  match s with
  | String c r =>
      if Ascii.eqb c "-" then ((-1)%Z, r)
      else if Ascii.eqb c "+" then (1%Z, r)
      else (1%Z, s)
  | EmptyString => (1%Z, s)
  end.

(** [parseInt(s)] without a radix ([radix = None]: decimal, or
    hexadecimal after a [0x] prefix) and [parseInt(s, 10)]; [None] is
    [NaN]. The result is the exact integer. *)
Definition parseInt (s : string) (radix : option Z) : option Z :=
  let '(sign, body) := strip_sign (trimStart s) in
  let '(R, body) :=
    match radix with
    | Some R => (R, body)
    | None => if startsWith "0x" body || startsWith "0X" body then (16%Z, dropChars 2 body)
              else (10%Z, body)
    end in
  match leading_int R body with
  | Some m => Some (sign * m)%Z
  | None => None
  end.

(** [parseInt(s) || 0] *)
Definition parseInt_or_0 (s : string) : Z :=
  match parseInt s None with
  | Some n => n
  | None => 0%Z
  end.

(** The longest prefix of decimal digits, and what follows it. *)
Fixpoint span_digits (s : string) : string * string :=
  match s with
  | String c r =>
      if is_digit c then let '(d, rest) := span_digits r in (String c d, rest)
      else (EmptyString, s)
  | EmptyString => (EmptyString, EmptyString)
  end.

Definition decimal (s : string) : Z := digits_from 10 0 s.

(** The exponent part [e], an optional sign and digits: taken only when
    there is a digit. *)
Definition exponent (s : string) : Z :=
  match s with
  | String c r =>
      if Ascii.eqb c "e" || Ascii.eqb c "E" then
        let '(sign, r') := strip_sign r in
        let '(d, _) := span_digits r' in
        if truthy d then (sign * decimal d)%Z else 0%Z
      else 0%Z
  | EmptyString => 0%Z
  end.

(** [parseFloat(s)]: the longest prefix that is a decimal literal. *)
Definition parseFloat (s : string) : jsnum :=
  let '(sign, body) := strip_sign (trimStart s) in
  if startsWith "Infinity" body then Inf (sign <? 0)%Z else
  let '(ip, r1) := span_digits body in
  let '(fp, r2) :=
    match r1 with
    | String c r => if Ascii.eqb c "." then span_digits r else (EmptyString, r1)
    | EmptyString => (EmptyString, r1)
    end in
  if negb (truthy ip) && negb (truthy fp) then NaN else
  let mantissa := (inject_Z (decimal ip)
                   + inject_Z (decimal fp) / inject_Z (10 ^ Z.of_nat (String.length fp)))%Q in
  Num (inject_Z sign * mantissa * (10 # 1) ^ exponent r2)%Q.

End JsNumber.

(** ** Dates *)

(** The [Date] object of ECMAScript, by its abstract operations. A date is
    its time value, a number of milliseconds since the epoch in UTC. The
    host's zone is modelled with a fixed offset [tza] in milliseconds, so
    that local time is [t + tza]; daylight saving transitions are not
    modelled. [TimeClip], which makes a date beyond 8.64e15 ms invalid, is
    left out: the dates the parser builds lie in the years 0 to 10000. *)
Module JsDate.
Local Open Scope Z_scope.

Definition msPerDay : Z := 86400000.
Definition msPerHour : Z := 3600000.
Definition msPerMinute : Z := 60000.
Definition msPerSecond : Z := 1000.

Definition Day (t : Z) : Z := t / msPerDay.
Definition TimeWithinDay (t : Z) : Z := t mod msPerDay.

Definition DaysInYear (y : Z) : Z :=
  if negb (y mod 4 =? 0) then 365
  else if negb (y mod 100 =? 0) then 366
  else if negb (y mod 400 =? 0) then 365
  else 366.

Definition DayFromYear (y : Z) : Z :=
  365 * (y - 1970) + (y - 1969) / 4 - (y - 1901) / 100 + (y - 1601) / 400.

Definition TimeFromYear (y : Z) : Z := msPerDay * DayFromYear y.

(** The largest year that starts at or before [t]: the estimate from the
    mean length of a year is off by one year at most. *)
Definition YearFromTime (t : Z) : Z :=
  let d := Day t in
  let y := 1970 + (d * 10000) / 3652425 in
  if d <? DayFromYear y then y - 1
  else if DayFromYear (y + 1) <=? d then y + 1
  else y.

(** 1 for a leap year, 0 otherwise. *)
Definition leap (y : Z) : Z := if DaysInYear y =? 366 then 1 else 0.

Definition InLeapYear (t : Z) : Z := leap (YearFromTime t).

Definition DayWithinYear (t : Z) : Z := Day t - DayFromYear (YearFromTime t).

(** The day of the year on which month [m] (0 to 11) starts. *)
Definition month_start (leap : Z) (m : Z) : Z :=
  match m with
  | 0 => 0 | 1 => 31 | 2 => 59 + leap | 3 => 90 + leap | 4 => 120 + leap
  | 5 => 151 + leap | 6 => 181 + leap | 7 => 212 + leap | 8 => 243 + leap
  | 9 => 273 + leap | 10 => 304 + leap | 11 => 334 + leap
  | _ => 365 + leap
  end.

Definition MonthFromTime (t : Z) : Z :=
  let d := DayWithinYear t in
  let leap := InLeapYear t in
  if d <? 31 then 0
  else if d <? 59 + leap then 1
  else if d <? 90 + leap then 2
  else if d <? 120 + leap then 3
  else if d <? 151 + leap then 4
  else if d <? 181 + leap then 5
  else if d <? 212 + leap then 6
  else if d <? 243 + leap then 7
  else if d <? 273 + leap then 8
  else if d <? 304 + leap then 9
  else if d <? 334 + leap then 10
  else 11.

Definition DateFromTime (t : Z) : Z :=
  DayWithinYear t - month_start (InLeapYear t) (MonthFromTime t) + 1.

Definition HourFromTime (t : Z) : Z := (t / msPerHour) mod 24.
Definition MinFromTime (t : Z) : Z := (t / msPerMinute) mod 60.
Definition SecFromTime (t : Z) : Z := (t / msPerSecond) mod 60.
Definition msFromTime (t : Z) : Z := t mod msPerSecond.

Definition MakeTime (hour min sec ms : Z) : Z :=
  hour * msPerHour + min * msPerMinute + sec * msPerSecond + ms.

(** Months outside 0 to 11 carry into the year; days outside the month
    carry into the following or preceding months. *)
Definition MakeDay (year month date : Z) : Z :=
  let ym := year + month / 12 in
  let mn := month mod 12 in
  DayFromYear ym + month_start (leap ym) mn + date - 1.

Definition MakeDate (day time : Z) : Z := day * msPerDay + time.

Section Zone.
Variable tza : Z.

Definition LocalTime (t : Z) : Z := t + tza.
Definition UTC (t : Z) : Z := t - tza.

(** [new Date(year, month, date)]: a year from 0 to 99 means 1900 + year. *)
Definition construct (year month date : Z) : Z :=
  let yr := if (0 <=? year) && (year <=? 99) then 1900 + year else year in
  UTC (MakeDate (MakeDay yr month date) (MakeTime 0 0 0 0)).

(** [date.setHours(hour, min)] *)
Definition setHours (this : Z) (hour min : Z) : Z :=
  let t := LocalTime this in
  UTC (MakeDate (Day t) (MakeTime hour min (SecFromTime t) (msFromTime t))).

Definition getFullYear (tv : Z) : Z := YearFromTime (LocalTime tv).
Definition getMonth (tv : Z) : Z := MonthFromTime (LocalTime tv).
Definition getDate (tv : Z) : Z := DateFromTime (LocalTime tv).
Definition getHours (tv : Z) : Z := HourFromTime (LocalTime tv).
Definition getMinutes (tv : Z) : Z := MinFromTime (LocalTime tv).
Definition getSeconds (tv : Z) : Z := SecFromTime (LocalTime tv).
Definition getMilliseconds (tv : Z) : Z := msFromTime (LocalTime tv).

(** The date [d] shows, in local time, the calendar day [year], [month]
    (0 to 11), [date] at [hour]:[min] and no seconds. *)
Definition shows (tv : Z) (year month date hour min : Z) : Prop :=
  getFullYear tv = year /\ getMonth tv = month /\ getDate tv = date /\
  getHours tv = hour /\ getMinutes tv = min /\
  getSeconds tv = 0 /\ getMilliseconds tv = 0.
End Zone.

End JsDate.

(** ** The date parser *)

Module DateParser.
Import JsNumber JsDate.
Local Open Scope Z_scope.

Definition MONTH_MAP : list (string * Z) :=
  [("JAN", 0); ("FEB", 1); ("MAR", 2); ("APR", 3); ("MAY", 4); ("JUN", 5);
   ("JUL", 6); ("AUG", 7); ("SEP", 8); ("OCT", 9); ("NOV", 10); ("DEC", 11)].

(** [MONTH_MAP[key]] for a key of three capital letters, which no
    inherited property name is. *)
Fixpoint lookup_month (table : list (string * Z)) (key : string) : option Z :=
  match table with
  | [] => None
  | (k, v) :: rest => if String.eqb k key then Some v else lookup_month rest key
  end.

Definition all_chars (p : ascii -> bool) (s : string) : bool :=
  forallb p (list_ascii_of_string s).

(** The pattern of three capital letters, a hyphen and four digits,
    anchored at both ends: the two groups. *)
Definition match_month_year (s : string) : option (string * string) :=
  let mon := String.substring 0 3 s in
  let yr := String.substring 4 4 s in
  if (String.length s =? 8)%nat && all_chars is_upper mon
     && String.eqb (String.substring 3 1 s) "-" && all_chars is_digit yr
  then Some (mon, yr) else None.

(** One or two digits followed by [sep]: the digits and what follows
    the separator. *)
Definition digits_1_2_then (sep : ascii) (s : string) : option (string * string) :=
  match s with
  | String a (String b (String c r)) =>
      if is_digit a && is_digit b && Ascii.eqb c sep
      then Some (String a (String b ""), r)
      else if is_digit a && Ascii.eqb b sep then Some (String a "", String c r)
      else None
  | String a (String b r) =>
      if is_digit a && Ascii.eqb b sep then Some (String a "", r) else None
  | _ => None
  end.

(** The pattern of one or two digits, a slash, one or two digits, a
    slash and four digits, anchored at both ends: the three groups. *)
Definition match_mdy (s : string) : option (string * string * string) :=
  match digits_1_2_then "/" s with
  | Some (m, r1) =>
      match digits_1_2_then "/" r1 with
      | Some (d, y) =>
          if (String.length y =? 4)%nat && all_chars is_digit y
          then Some (m, d, y) else None
      | None => None
      end
  | None => None
  end.

(** The pattern of four digits, a hyphen, two digits, a hyphen and two
    digits, anchored at both ends. *)
Definition match_iso (s : string) : bool :=
  (String.length s =? 10)%nat
  && all_chars is_digit (String.substring 0 4 s)
  && String.eqb (String.substring 4 1 s) "-"
  && all_chars is_digit (String.substring 5 2 s)
  && String.eqb (String.substring 7 1 s) "-"
  && all_chars is_digit (String.substring 8 2 s).

(** The first match, anywhere in [s], of one or two digits, a colon and
    two digits: the two groups. Two digits are tried before one. *)
Fixpoint match_time (s : string) : option (string * string) :=
  match s with
  | EmptyString => None
  | String a r =>
      let here :=
        match r with
        | String b (String c (String d (String e _))) =>
            if is_digit a && is_digit b && Ascii.eqb c ":" && is_digit d && is_digit e
            then Some (String a (String b ""), String d (String e ""))
            else None
        | _ => None
        end in
      let here1 :=
        match r with
        | String b (String c (String d _)) =>
            if is_digit a && Ascii.eqb b ":" && is_digit c && is_digit d
            then Some (String a "", String c (String d ""))
            else None
        | _ => None
        end in
      match here, here1 with
      | Some g, _ => Some g
      | None, Some g => Some g
      | None, None => match_time r
      end
  end.

(** Decimal numerals of fixed width, as the source files write years
    and times: [yyyy 2025 = "2025"], [dd 7 = "07"]. *)
Definition digit_char (d : Z) : ascii := ascii_of_N (48 + Z.to_N d).

Definition dd (n : Z) : string :=
  String (digit_char (n / 10)) (String (digit_char (n mod 10)) "").

Definition yyyy (y : Z) : string :=
  String (digit_char (y / 1000)) (String (digit_char (y / 100 mod 10))
    (String (digit_char (y / 10 mod 10)) (String (digit_char (y mod 10)) ""))).

Definition four (d1 d2 d3 d4 : ascii) : string :=
  String d1 (String d2 (String d3 (String d4 ""))).

(** [parseInt(s, 10)] of a group of digits. *)
Definition int10 (s : string) : Z :=
  match parseInt s (Some 10) with Some n => n | None => 0 end.

Section Host.
(** The offset of the host's zone and the host's [Date.parse] ([None]:
    an invalid date), which the standard leaves to the implementation
    outside the ISO format. *)
Variable tza : Z.
Variable Date_parse : string -> option Z.

(** The [if (timeStr) { ... }] block: applies the first [H:MM] found. *)
Definition apply_time (date : Z) (timeStr : option string) : Z :=
  match timeStr with
  | Some ts =>
      if truthy ts then
        match match_time ts with
        | Some (h, m) => setHours tza date (int10 h) (int10 m)
        | None => date
        end
      else date
  | None => date
  end.

(** [parseNHTSADate(dateStr, timeStr)]: [None] is [null], [Some d] the
    [Date] object with time value [d]. *)
Definition parseNHTSADate (dateStr : option string) (timeStr : option string)
    : option Z :=
  match dateStr with
  | None => None
  | Some dateStr =>
    if negb (truthy dateStr) then None else
    let trimmed := toUpperCase (trim dateStr) in
    let fallback := Date_parse dateStr in
    let iso_then_fallback :=
      if match_iso trimmed then
        match Date_parse trimmed with
        | Some t => Some t
        | None => fallback
        end
      else fallback in
    let mdy_then_rest :=
      match match_mdy trimmed with
      | Some (m, d, y) =>
          let month := int10 m - 1 in
          let day := int10 d in
          let year := int10 y in
          Some (apply_time (construct tza year month day) timeStr)
      | None => iso_then_fallback
      end in
    match match_month_year trimmed with
    | Some (mon, yr) =>
        let year := int10 yr in
        match lookup_month MONTH_MAP mon with
        | Some month =>
            if negb (year =? 0) then
              Some (apply_time (construct tza year month 1) timeStr)
            else mdy_then_rest
        | None => mdy_then_rest
        end
    | None => mdy_then_rest
    end
  end.

(** [parsedDate ? parsedDate.toISOString() : new Date().toISOString()]
    with the clock reading [now]; the timestamp is kept as its time
    value. *)
Definition occurredAt (parsedDate : option Z) (now : Z) : Z :=
  match parsedDate with
  | Some d => d
  | None => now
  end.
End Host.

End DateParser.

(** ** Geocoding *)

Record GeocodedLocation := {
  lat : Q;
  lng : Q;
  displayName : string
}.

(** A pair of coordinates as the pipeline passes it on: the numbers may be
    [NaN] when they were read off something that has no such field. *)
Record coords := { c_lat : jsnum; c_lng : jsnum }.

Record StateCenter := { s_lat : Q; s_lng : Q; s_city : string }.

(** The geocoding service, by its contract: a free-text query restricted
    to a kind of result, answered by a failure (the request or the decoding
    of its answer throws), a non-success status or a list of candidates,
    each with a centre and a display name. *)
Inductive result_types := PlaceLocality | AddressPoi.

Record request := { query : string; types : result_types }.

Record feature := { center_lng : Q; center_lat : Q; place_name : string }.

Inductive response :=
  | Thrown
  | NotOk
  | Json (features : list feature).

(** The mutable state of one run of the script: the two module-level
    caches, and, as ghost state, the requests sent to the service, the
    narratives handed to the extractor and the number of [Math.random]
    draws, latest first. *)
Record world := {
  geocodeCache : gmap string (option GeocodedLocation);
  streetGeocodeCache : gmap string (option GeocodedLocation);
  requests : list request;
  narratives : list string;
  draws : nat
}.

Definition fresh : world :=
  {| geocodeCache := ∅; streetGeocodeCache := ∅; requests := []; narratives := [];
     draws := 0 |}.

Module Geo.
Local Open Scope Q_scope.

Definition STATE_COORDS : list (string * StateCenter) :=
  [("CA", Build_StateCenter 37.7749 (-122.4194) "San Francisco");
   ("TX", Build_StateCenter 30.2672 (-97.7431) "Austin");
   ("AZ", Build_StateCenter 33.4484 (-112.0740) "Phoenix");
   ("FL", Build_StateCenter 28.5383 (-81.3792) "Orlando");
   ("NY", Build_StateCenter 40.7128 (-74.0060) "New York");
   ("WA", Build_StateCenter 47.6062 (-122.3321) "Seattle");
   ("NV", Build_StateCenter 36.1699 (-115.1398) "Las Vegas");
   ("MI", Build_StateCenter 42.3314 (-83.0458) "Detroit");
   ("PA", Build_StateCenter 40.4406 (-79.9959) "Pittsburgh");
   ("CO", Build_StateCenter 39.7392 (-104.9903) "Denver");
   ("MA", Build_StateCenter 42.3601 (-71.0589) "Boston");
   ("IL", Build_StateCenter 41.8781 (-87.6298) "Chicago");
   ("GA", Build_StateCenter 33.7490 (-84.3880) "Atlanta");
   ("NC", Build_StateCenter 35.2271 (-80.8431) "Charlotte");
   ("OH", Build_StateCenter 39.9612 (-82.9988) "Columbus");
   ("NJ", Build_StateCenter 40.0583 (-74.4057) "Trenton");
   ("VA", Build_StateCenter 37.4316 (-78.6569) "Richmond");
   ("MD", Build_StateCenter 39.0458 (-76.6413) "Baltimore");
   ("OR", Build_StateCenter 45.5152 (-122.6784) "Portland");
   ("TN", Build_StateCenter 36.1627 (-86.7816) "Nashville");
   ("IN", Build_StateCenter 39.7684 (-86.1581) "Indianapolis");
   ("MN", Build_StateCenter 44.9778 (-93.2650) "Minneapolis");
   ("WI", Build_StateCenter 43.0389 (-87.9065) "Milwaukee");
   ("SC", Build_StateCenter 32.7765 (-79.9311) "Charleston");
   ("AL", Build_StateCenter 33.5207 (-86.8025) "Birmingham");
   ("LA", Build_StateCenter 29.9511 (-90.0715) "New Orleans");
   ("KY", Build_StateCenter 38.2527 (-85.7585) "Louisville");
   ("OK", Build_StateCenter 35.4676 (-97.5164) "Oklahoma City");
   ("CT", Build_StateCenter 41.3083 (-72.9279) "New Haven");
   ("UT", Build_StateCenter 40.7608 (-111.8910) "Salt Lake City");
   ("IA", Build_StateCenter 41.5868 (-93.6250) "Des Moines");
   ("NE", Build_StateCenter 41.2565 (-95.9345) "Omaha");
   ("KS", Build_StateCenter 39.0997 (-94.5786) "Kansas City");
   ("NM", Build_StateCenter 35.0844 (-106.6504) "Albuquerque");
   ("HI", Build_StateCenter 21.3069 (-157.8583) "Honolulu");
   ("ID", Build_StateCenter 43.6150 (-116.2023) "Boise");
   ("WV", Build_StateCenter 38.3498 (-81.6326) "Charleston");
   ("ME", Build_StateCenter 43.6591 (-70.2568) "Portland");
   ("NH", Build_StateCenter 43.2081 (-71.5376) "Concord");
   ("RI", Build_StateCenter 41.8240 (-71.4128) "Providence");
   ("MT", Build_StateCenter 46.8797 (-110.3626) "Billings");
   ("DE", Build_StateCenter 39.1582 (-75.5244) "Wilmington");
   ("SD", Build_StateCenter 43.5460 (-96.7313) "Sioux Falls");
   ("ND", Build_StateCenter 46.8772 (-96.7898) "Fargo");
   ("AK", Build_StateCenter 61.2181 (-149.9003) "Anchorage");
   ("VT", Build_StateCenter 44.4759 (-73.2121) "Burlington");
   ("WY", Build_StateCenter 41.1400 (-104.8202) "Cheyenne");
   ("DC", Build_StateCenter 38.9072 (-77.0369) "Washington");
   ("PR", Build_StateCenter 18.4655 (-66.1057) "San Juan");
   ("MO", Build_StateCenter 38.6270 (-90.1994) "St. Louis");
   ("AR", Build_StateCenter 34.7465 (-92.2896) "Little Rock");
   ("MS", Build_StateCenter 32.2988 (-90.1848) "Jackson")].

Definition CA : StateCenter := Build_StateCenter 37.7749 (-122.4194) "San Francisco".

(** The names every object literal inherits from [Object.prototype];
    looking one of them up yields a function or an object, which is
    truthy and has no [lat], [lng] or [city]. *)
Definition Object_prototype_names : list string :=
  ["constructor"; "__proto__"; "hasOwnProperty"; "isPrototypeOf";
   "propertyIsEnumerable"; "toLocaleString"; "toString"; "valueOf";
   "__defineGetter__"; "__defineSetter__"; "__lookupGetter__"; "__lookupSetter__"].

Inductive property :=
  | Own (e : StateCenter)
  | Inherited
  | Undefined.

Fixpoint own_property (table : list (string * StateCenter)) (key : string)
    : option StateCenter :=
  match table with
  | [] => None
  | (k, e) :: rest => if String.eqb k key then Some e else own_property rest key
  end.

(** [STATE_COORDS[state]] *)
Definition state_property (state : string) : property :=
  match own_property STATE_COORDS state with
  | Some e => Own e
  | None => if existsb (String.eqb state) Object_prototype_names then Inherited
            else Undefined
  end.

(** [STATE_COORDS[state]?.city]: [None] is [undefined]. *)
Definition state_city (state : string) : option string :=
  match state_property state with
  | Own e => Some (s_city e)
  | Inherited | Undefined => None
  end.

(** [STATE_COORDS[state] || STATE_COORDS['CA']], read at [lat] and
    [lng]: a field that is not there reads [undefined], and [undefined]
    plus a number is [NaN]. *)
Definition state_or_CA (state : string) : option StateCenter :=
  match state_property state with
  | Own e => Some e
  | Inherited => None
  | Undefined => Some CA
  end.

Definition city_key (city state : string) : string :=
  (toLowerCase city ++ "," ++ toLowerCase state)%string.

Definition street_key (address city state : string) : string :=
  ("street:" ++ toLowerCase address ++ "," ++ toLowerCase city ++ ","
     ++ toLowerCase state)%string.

Definition located (f : feature) : GeocodedLocation :=
  {| lat := center_lat f; lng := center_lng f; displayName := place_name f |}.

(** [Math.sqrt(dlat^2 + dlng^2) > 0.5], said on the squares. *)
Definition further_than_half_degree (lat1 lng1 lat2 lng2 : Q) : bool :=
  negb (Qle_bool ((lat1 - lat2) * (lat1 - lat2) + (lng1 - lng2) * (lng1 - lng2)) (1 # 4)).

Section Service.
(** The service answers the [n]-th request of the run, and
    [Math.random] gives its [n]-th draw. *)
Variable service : nat -> request -> response.
Variable random : nat -> Q.

Definition set_city (w : world) (key : string) (v : option GeocodedLocation) : world :=
  {| geocodeCache := <[key := v]> (geocodeCache w);
     streetGeocodeCache := streetGeocodeCache w;
     requests := requests w; narratives := narratives w; draws := draws w |}.

Definition set_street (w : world) (key : string) (v : option GeocodedLocation) : world :=
  {| geocodeCache := geocodeCache w;
     streetGeocodeCache := <[key := v]> (streetGeocodeCache w);
     requests := requests w; narratives := narratives w; draws := draws w |}.

(** [await fetch(url)]: the answer, and the request recorded. *)
Definition fetch (w : world) (req : request) : response * world :=
  (service (List.length (requests w)) req,
   {| geocodeCache := geocodeCache w; streetGeocodeCache := streetGeocodeCache w;
      requests := req :: requests w; narratives := narratives w; draws := draws w |}).

Definition geocodeLocation (city state : string) (w : world)
    : option GeocodedLocation * world :=
  let cacheKey := city_key city state in
  match geocodeCache w !! cacheKey with
  | Some v => (v, w)
  | None =>
      let '(resp, w) :=
        fetch w {| query := (city ++ ", " ++ state ++ ", USA")%string;
                   types := PlaceLocality |} in
      match resp with
      | Json (f :: _) => (Some (located f), set_city w cacheKey (Some (located f)))
      | Json [] | NotOk | Thrown => (None, set_city w cacheKey None)
      end
  end.

Definition geocodeStreetAddress (address city state : string) (w : world)
    : option GeocodedLocation * world :=
  let cacheKey := street_key address city state in
  match streetGeocodeCache w !! cacheKey with
  | Some v => (v, w)
  | None =>
      let '(resp, w) :=
        fetch w {| query := (address ++ ", " ++ city ++ ", " ++ state ++ ", USA")%string;
                   types := AddressPoi |} in
      match resp with
      | Json (f :: _) =>
          let rejected :=
            match geocodeCache w !! city_key city state with
            | Some (Some cityCoords) =>
                further_than_half_degree (center_lat f) (center_lng f)
                  (lat cityCoords) (lng cityCoords)
            | Some None | None => false
            end in
          if rejected then (None, set_street w cacheKey None)
          else (Some (located f), set_street w cacheKey (Some (located f)))
      | Json [] | NotOk | Thrown => (None, set_street w cacheKey None)
      end
  end.

(** [(Math.random() - 0.5) * range] with the next draw. *)
Definition jitter (n : nat) (range : Q) : Q := (random n - 0.5) * range.

Definition getCoordinates (city state : string) (w : world) : coords * world :=
  let w' := {| geocodeCache := geocodeCache w;
               streetGeocodeCache := streetGeocodeCache w;
               requests := requests w; narratives := narratives w;
               draws := S (S (draws w)) |} in
  match geocodeCache w !! city_key city state with
  | Some (Some cached) =>
      ({| c_lat := Num (lat cached + jitter (draws w) 0.04);
          c_lng := Num (lng cached + jitter (S (draws w)) 0.04) |}, w')
  | Some None | None =>
      match state_or_CA state with
      | Some stateCoords =>
          ({| c_lat := Num (s_lat stateCoords + jitter (draws w) 0.1);
              c_lng := Num (s_lng stateCoords + jitter (S (draws w)) 0.1) |}, w')
      | None => ({| c_lat := NaN; c_lng := NaN |}, w')
      end
  end.

End Service.

(** A pair of numbers with the latitude in [-90, 90] and the longitude
    in [-180, 180]. *)
Definition valid (c : coords) : bool :=
  match c_lat c, c_lng c with
  | Num a, Num b =>
      Qle_bool (-90) a && Qle_bool a 90 && Qle_bool (-180) b && Qle_bool b 180
  | _, _ => false
  end.

(** A location whose coordinates stay valid under the jitter of the
    city tier. *)
Definition sane (g : GeocodedLocation) : Prop :=
  -89.98 <= lat g <= 89.98 /\ -179.98 <= lng g <= 179.98.

Definition cache_sane (m : gmap string (option GeocodedLocation)) : Prop :=
  forall k g, m !! k = Some (Some g) -> sane g.

Definition service_sane (service : nat -> request -> response) : Prop :=
  forall n req f fs, service n req = Json (f :: fs) -> sane (located f).

(** [Math.random] draws from the unit interval, 1 excluded. *)
Definition unit_interval (random : nat -> Q) : Prop :=
  forall n, 0 <= random n < 1.

(** An entry of the table that stays valid under the jitter of the
    state tier. *)
Definition roomy (e : StateCenter) : bool :=
  Qle_bool (-89.95) (s_lat e) && Qle_bool (s_lat e) 89.95
  && Qle_bool (-179.95) (s_lng e) && Qle_bool (s_lng e) 179.95.

(** The request of [geocodeStreetAddress]. *)
Definition street_request (address city state : string) : request :=
  {| query := (address ++ ", " ++ city ++ ", " ++ state ++ ", USA")%string;
     types := AddressPoi |}.

(** [record[key]?.toLowerCase() === 'yes'] *)
Definition flagged_unknown (record : RawRecord) (key : string) : bool :=
  match record !! key with
  | Some v => String.eqb (toLowerCase v) "yes"
  | None => false
  end.

Definition parseNHTSACoordinates (record : RawRecord) : option coords :=
  let latStr := trim <$> record !! "Latitude" in
  let lngStr := trim <$> record !! "Longitude" in
  let latUnknown := flagged_unknown record "Latitude - Unknown" in
  let lngUnknown := flagged_unknown record "Longitude - Unknown" in
  if latUnknown || lngUnknown then None else
  match latStr, lngStr with
  | Some latStr, Some lngStr =>
      if negb (truthy latStr) || negb (truthy lngStr) then None else
      let lat := JsNumber.parseFloat latStr in
      let lng := JsNumber.parseFloat lngStr in
      if JsNumber.isNaN lat || JsNumber.isNaN lng then None else
      if JsNumber.lt lat 18 || JsNumber.gt lat 72
         || JsNumber.lt lng (-180) || JsNumber.gt lng (-65) then None
      else Some {| c_lat := lat; c_lng := lng |}
  | _, _ => None
  end.

End Geo.

(** ** Narrative extraction *)

Module Narrative.

(** The leading preposition that is cut off a match: one of the words,
    in any letter case, followed by white space. *)
Definition leads : list string := ["on"; "at"; "near"; "intersection of"].

Fixpoint cut_lead (words : list string) (s : string) : string :=
  match words with
  | [] => s
  | w :: ws =>
      let rest := dropChars (String.length w) s in
      if startsWith w (toLowerCase s)
         && match rest with String c _ => is_ws c | EmptyString => false end
      then trimStart rest
      else cut_lead ws s
  end.

Section Patterns.
(** The six regular expressions of the source, each as the function
    that gives the first match of the pattern in a narrative. *)
Variable patterns : list (string -> option string).

Fixpoint first_location (ps : list (string -> option string)) (narrative : string)
    : option string :=
  match ps with
  | [] => None
  | pattern :: rest =>
      match pattern narrative with
      | Some m =>
          let location := trim (cut_lead leads m) in
          if truthy m && (5 <? String.length location)%nat
             && (String.length location <? 100)%nat
          then Some location
          else first_location rest narrative
      | None => first_location rest narrative
      end
  end.

Definition extractLocationFromNarrative (narrative : string) : option string :=
  if negb (truthy narrative) then None else first_location patterns narrative.
End Patterns.

End Narrative.

(** ** Record normalisation *)

Record IncidentInsert := {
  incident_type : string;
  av_company : string;
  description : string;
  location : coords;
  address : option string;
  city : string;
  occurred_at : Z;
  reported_at : Z;
  status : string;
  source : string;
  external_id : string;
  fatalities : Z;
  injuries : Z;
  raw_data : RawRecord
}.

Record ProcessedIncident := {
  incident : IncidentInsert;
  hasRealCoords : bool;
  hasStreetCoords : bool
}.

Module Normalizer.
Import Geo.

Definition mapCompany (manufacturer : string) : string :=
  let name := toLowerCase manufacturer in
  if includes name "waymo" || includes name "alphabet" then "waymo"
  else if includes name "cruise" || includes name "gm" then "cruise"
  else if includes name "zoox" || includes name "amazon" then "zoox"
  else if includes name "tesla" then "tesla"
  else "other".

Definition mapIncidentType (record : RawRecord) : string :=
  let crashed := toLowerCase (default "" (record !! "Crash")) in
  let severity :=
    toLowerCase (default "" (record !! "Highest Injury Severity Reported")) in
  if String.eqb crashed "yes" || includes severity "fatal" || includes severity "serious"
  then "collision"
  else if includes severity "minor" || includes severity "possible" then "near_miss"
  else "collision".

(** The decimal numeral of an index. *)
Definition index_string (index : nat) : string :=
  DecimalString.NilZero.string_of_uint (Nat.to_uint index).

(** The source value of a count, [record[a] || record[b]]: [None] when
    both columns are absent or empty. *)
Definition count_source (record : RawRecord) (a b : string) : option string :=
  or_else (field record a) (field record b).

(** [parseInt(record[a] || record[b] || '0') || 0] *)
Definition count_field (record : RawRecord) (a b : string) : Z :=
  JsNumber.parseInt_or_0 (default "0" (count_source record a b)).

(** After leading white space and a sign, [v] does not go on with a
    decimal digit; [v] starts, after leading white space, with a minus
    sign. *)
Definition no_leading_digit (v : string) : bool :=
  match snd (JsNumber.strip_sign (trimStart v)) with
  | String c _ => negb (is_digit c)
  | EmptyString => true
  end.

Definition minus_sign (v : string) : bool := startsWith "-" (trimStart v).

(** What tells [processADSRecord] from [processADASRecord]: the prefix
    of the index that stands in for a report number, the words of the
    description and the prefix of the external identifier. *)
Record dataset := {
  index_prefix : string;
  wording : string;
  id_prefix : string
}.

Definition ADS : dataset :=
  {| index_prefix := "ADS-"; wording := "ADS incident in";
     id_prefix := "nhtsa-ads-" |}.

Definition ADAS : dataset :=
  {| index_prefix := "ADAS-"; wording := "ADAS (Level 2) incident in";
     id_prefix := "nhtsa-adas-" |}.

Definition reportNumber (ds : dataset) (record : RawRecord) (index : nat) : string :=
  field_or record "Report Number" (index_prefix ds ++ index_string index).

(** The external identifiers of a run of records numbered from [index]. *)
Fixpoint planned_ids (ds : dataset) (records : list RawRecord) (index : nat)
    : list string :=
  match records with
  | [] => []
  | record :: rest =>
      (id_prefix ds ++ reportNumber ds record index)%string
        :: planned_ids ds rest (S index)
  end.

Definition state_of (record : RawRecord) : string := field_or record "State" "CA".

Definition city_of (record : RawRecord) : string :=
  default "Unknown" (or_else (field record "City") (state_city (state_of record))).

Section Run.
Variable tza : Z.
Variable Date_parse : string -> option Z.
Variable patterns : list (string -> option string).
Variable service : nat -> request -> response.
Variable random : nat -> Q.

(** The narrative is scanned, and the scan recorded. *)
Definition extract (narrative : string) (w : world) : option string * world :=
  (Narrative.extractLocationFromNarrative patterns narrative,
   {| geocodeCache := geocodeCache w; streetGeocodeCache := streetGeocodeCache w;
      requests := requests w; narratives := narrative :: narratives w;
      draws := draws w |}).

(** What the first part of the body of [processADSRecord] settles:
    the coordinates and where they come from. *)
Record resolution := {
  realCoords : option coords;
  streetCoords : option GeocodedLocation;
  extractedAddress : option string;
  resolved : coords
}.

(** From [parseNHTSACoordinates(record)] to the choice of the best
    available coordinates: real, else street, else city or state. *)
Definition resolve (record : RawRecord) (city state : string) (w : world)
    : resolution * world :=
  let realCoords := parseNHTSACoordinates record in
  let '(streetCoords, extractedAddress, w) :=
    match realCoords with
    | Some _ => (None, None, w)
    | None =>
        let narrative := field_or record "Narrative" "" in
        let '(extractedAddress, w) := extract narrative w in
        match extractedAddress with
        | Some a =>
            if truthy a then
              let '(streetCoords, w) :=
                geocodeStreetAddress service a city state w in
              (streetCoords, extractedAddress, w)
            else (None, extractedAddress, w)
        | None => (None, None, w)
        end
    end in
  let '(coords, w) :=
    match realCoords, streetCoords with
    | Some c, _ => (c, w)
    | None, Some s => ({| c_lat := Num (lat s); c_lng := Num (lng s) |}, w)
    | None, None => getCoordinates random city state w
    end in
  ({| realCoords := realCoords; streetCoords := streetCoords;
      extractedAddress := extractedAddress; resolved := coords |}, w).

(** The body shared by [processADSRecord] and [processADASRecord], with
    the clock reading [now]. *)
Definition processRecord (ds : dataset) (record : RawRecord) (index : nat)
    (now : Z) (w : world) : ProcessedIncident * world :=
  let reportNumber := reportNumber ds record index in
  let manufacturer :=
    default "" (or_else (field record "Make") (field record "Manufacturer")) in
  let state := state_of record in
  let city := city_of record in
  let '(r, w) := resolve record city state w in
  let incidentDate :=
    or_else (field record "Incident Date") (field record "Date of Incident") in
  let incidentTime := record !! "Incident Time (24:00)" in
  let parsedDate := DateParser.parseNHTSADate tza Date_parse incidentDate incidentTime in
  let occurredAt := DateParser.occurredAt parsedDate now in
  let fatalities := count_field record "Deaths" "Fatalities" in
  let injuries := count_field record "Injuries" "Persons Injured" in
  let model := field_or record "Model" "" in
  let year := field_or record "Model Year" "" in
  let description :=
    trim ("NHTSA SGO Report: " ++ manufacturer ++ " " ++ model ++ " " ++ year ++ " "
          ++ wording ds ++ " " ++ city ++ ", " ++ state ++ ". "
          ++ (if bool_decide (record !! "Crash" = Some "Yes") then "Crash reported." else "")
          ++ " " ++ field_or record "Highest Injury Severity Reported" "")%string in
  ({| incident :=
        {| incident_type := mapIncidentType record;
           av_company := mapCompany manufacturer;
           description := description;
           location := resolved r;
           address := or_else (or_else
                        (match extractedAddress r with
                         | Some a => if truthy a then Some a else None
                         | None => None
                         end)
                        (field record "Address")) (field record "Street");
           city := city;
           occurred_at := occurredAt;
           reported_at := now;
           status := "verified";
           source := "nhtsa";
           external_id := (id_prefix ds ++ reportNumber)%string;
           fatalities := fatalities;
           injuries := injuries;
           raw_data := record |};
      hasRealCoords := bool_decide (is_Some (realCoords r));
      hasStreetCoords := bool_decide (is_Some (streetCoords r)) |}, w).

Definition processADSRecord := processRecord ADS.
Definition processADASRecord := processRecord ADAS.

(** The distinct [city|state] of the records that have both, in the
    order of their first occurrence. *)
Fixpoint uniqueLocations (records : list RawRecord) (seen : list string)
    : list string :=
  match records with
  | [] => seen
  | record :: rest =>
      let city := default "" (trim <$> record !! "City") in
      let state := default "" (trim <$> record !! "State") in
      let loc := (city ++ "|" ++ state)%string in
      if truthy city && truthy state && negb (bool_decide (loc ∈ seen))
      then uniqueLocations rest (seen ++ [loc])
      else uniqueLocations rest seen
  end.

(** [preGeocodeAllCities]: every distinct location is geocoded once.
    The lookups of a batch of 50 are taken one after the other. *)
Definition preGeocodeAllCities (records : list RawRecord) (w : world) : world :=
  fold_left
    (fun w loc =>
       let parts := split "|" loc in
       snd (geocodeLocation service (nth 0 parts "") (nth 1 parts "") w))
    (uniqueLocations records []) w.

(** [batch.map((record, idx) => process(record, i + idx))], the
    records of a batch taken one after the other. *)
Fixpoint processBatch (ds : dataset) (batch : list RawRecord) (index : nat)
    (now : Z) (w : world) : list ProcessedIncident * world :=
  match batch with
  | [] => ([], w)
  | record :: rest =>
      let '(p, w) := processRecord ds record index now w in
      let '(ps, w) := processBatch ds rest (S index) now w in
      (p :: ps, w)
  end.

(** [for (let i = 0; i < records.length; i += size)] over slices of
    [size] records; [fuel] bounds the number of rounds. *)
Fixpoint processAll (fuel : nat) (ds : dataset) (size : nat)
    (records : list RawRecord) (i : nat) (now : Z)
    (processed : list ProcessedIncident) (w : world)
    : list ProcessedIncident * world :=
  match fuel with
  | O => (processed, w)
  | S fuel =>
      if (i <? List.length records)%nat then
        let batch := take size (drop i records) in
        let '(results, w) := processBatch ds batch i now w in
        processAll fuel ds size records (i + size) now (processed ++ results) w
      else (processed, w)
  end.

End Run.

End Normalizer.

(** ** The upsert writer *)

Module Writer.

(** The persisted incidents, in the order of their insertion. *)
Definition store := list IncidentInsert.

Definition ids (s : store) : list string := map external_id s.

(** Modelled from the spec: the storage service's upsert with conflict
    target [external_id] (section 4.6), which is not part of the
    repository. A record whose [external_id] is in the store replaces
    that row in place; another one is inserted. *)
Fixpoint upsert_row (s : store) (x : IncidentInsert) : store :=
  match s with
  | [] => [x]
  | row :: rest =>
      if String.eqb (external_id row) (external_id x) then x :: rest
      else row :: upsert_row rest x
  end.

(** The same on the keys alone. *)
Definition upsert_key (keys : list string) (k : string) : list string :=
  if bool_decide (k ∈ keys) then keys else keys ++ [k].

Section Service.
(** Modelled from the spec: a batch may be refused (section 7, write
    failure). Whether it is, is taken to depend on the keys of the
    batch. *)
Variable refuses : list string -> bool.

(** Modelled from the spec: the upsert of a batch, [None] when it is
    refused, else the new store and the rows returned, one for each
    record of the batch. *)
Definition upsert (s : store) (batch : list IncidentInsert)
    : option (store * list IncidentInsert) :=
  if refuses (map external_id batch) then None
  else Some (fold_left upsert_row batch s, batch).

Record counters := {
  totalInserted : nat;
  totalSkipped : nat;
  totalErrors : nat
}.

(** [for (let i = 0; i < incidents.length; i += batchSize)] with the
    upsert of each slice. *)
Fixpoint writeAll (fuel : nat) (batchSize : nat) (incidents : list IncidentInsert)
    (i : nat) (s : store) (c : counters) : store * counters :=
  match fuel with
  | O => (s, c)
  | S fuel =>
      if (i <? List.length incidents)%nat then
        let batch := take batchSize (drop i incidents) in
        match upsert s batch with
        | None =>
            writeAll fuel batchSize incidents (i + batchSize) s
              {| totalInserted := totalInserted c; totalSkipped := totalSkipped c;
                 totalErrors := totalErrors c + List.length batch |}
        | Some (s', data) =>
            writeAll fuel batchSize incidents (i + batchSize) s'
              {| totalInserted := totalInserted c + List.length data;
                 totalSkipped := totalSkipped c + (List.length batch - List.length data);
                 totalErrors := totalErrors c |}
        end
      else (s, c)
  end.

(** The keys of the batches that are not refused, in order. *)
Fixpoint accepted (fuel : nat) (batchSize : nat) (incoming : list string)
    (i : nat) : list string :=
  match fuel with
  | O => []
  | S fuel =>
      if (i <? List.length incoming)%nat then
        let batch := take batchSize (drop i incoming) in
        (if refuses batch then [] else batch)
          ++ accepted fuel batchSize incoming (i + batchSize)
      else []
  end.

(** The keys of the store after [writeAll], from the keys alone. *)
Fixpoint writeKeys (fuel : nat) (batchSize : nat) (incoming : list string)
    (i : nat) (keys : list string) : list string :=
  match fuel with
  | O => keys
  | S fuel =>
      if (i <? List.length incoming)%nat then
        let batch := take batchSize (drop i incoming) in
        writeKeys fuel batchSize incoming (i + batchSize)
          (if refuses batch then keys else fold_left upsert_key batch keys)
      else keys
  end.
End Service.

End Writer.

(** ** The ingestion run *)

Module Seed.
Import Normalizer Writer.

Record outcome := {
  persisted : store;
  counts : counters;
  realCoordsCount : nat;
  streetCoordsCount : nat;
  fallbackCoordsCount : nat;
  adsProcessed : list ProcessedIncident;
  adasProcessed : list ProcessedIncident;
  final : world
}.

Definition count_if (p : ProcessedIncident -> bool) (l : list ProcessedIncident) : nat :=
  List.length (List.filter p l).

(** The keys a run leaves in the store, from the keys before it. *)
Definition keys_after (refuses : list string -> bool) (ads adas : list RawRecord)
    (keys : list string) : list string :=
  fold_left upsert_key
    (accepted refuses (List.length (take 500 adas)) 50
       (planned_ids ADAS (take 500 adas) 0) 0)
    (fold_left upsert_key
       (accepted refuses (List.length ads) 50 (planned_ids ADS ads 0) 0) keys).

Section Run.
Variable tza : Z.
Variable Date_parse : string -> option Z.
Variable patterns : list (string -> option string).
Variable service : nat -> request -> response.
Variable random : nat -> Q.
Variable refuses : list string -> bool.

(** [seedNHTSAData] once both files are fetched and parsed: a run
    starts with empty caches, and the clock reads [now] throughout. *)
Definition seedNHTSAData (adsRecords adasRecords : list RawRecord) (now : Z)
    (s : store) : outcome :=
  let w := fresh in
  let allRecords := adsRecords ++ take 500 adasRecords in
  let w := preGeocodeAllCities service allRecords w in
  let adsBatchSize := 20 in
  let '(adsProcessed, w) :=
    processAll tza Date_parse patterns service random
      (List.length adsRecords) ADS adsBatchSize adsRecords 0 now [] w in
  let adsRealCoords := count_if hasRealCoords adsProcessed in
  let adsStreetCoords := count_if hasStreetCoords adsProcessed in
  let adsFallbackCoords := List.length adsProcessed - adsRealCoords - adsStreetCoords in
  let adsIncidents := map incident adsProcessed in
  let batchSize := 50 in
  let '(s, c) :=
    writeAll refuses (List.length adsIncidents) batchSize adsIncidents 0 s
      {| totalInserted := 0; totalSkipped := 0; totalErrors := 0 |} in
  let adasToProcess := take 500 adasRecords in
  let '(adasProcessed, w) :=
    processAll tza Date_parse patterns service random
      (List.length adasToProcess) ADAS adsBatchSize adasToProcess 0 now [] w in
  let adasRealCoords := count_if hasRealCoords adasProcessed in
  let adasStreetCoords := count_if hasStreetCoords adasProcessed in
  let adasFallbackCoords := List.length adasProcessed - adasRealCoords - adasStreetCoords in
  let adasIncidents := map incident adasProcessed in
  let '(s, c) :=
    writeAll refuses (List.length adasIncidents) batchSize adasIncidents 0 s c in
  {| persisted := s; counts := c;
     realCoordsCount := adsRealCoords + adasRealCoords;
     streetCoordsCount := adsStreetCoords + adasStreetCoords;
     fallbackCoordsCount := adsFallbackCoords + adasFallbackCoords;
     adsProcessed := adsProcessed; adasProcessed := adasProcessed;
     final := w |}.
End Run.

End Seed.

(** ** Sample services and worlds *)

(** A service that answers every query with a point in Los Angeles, one
    that answers with the centre of Austin, one that answers with a point
    outside the range of coordinates, and a world whose city cache holds
    the centre of San Francisco. *)
Definition far_service (n : nat) (req : request) : response :=
  Json [ {| center_lng := (-118.2437)%Q; center_lat := 34.0522%Q;
            place_name := "Market Street, Los Angeles" |} ].

Definition sf_world : world :=
  Geo.set_city fresh "san francisco,ca"
    (Some {| lat := 37.7749%Q; lng := (-122.4194)%Q; displayName := "San Francisco" |}).

Definition sane_service (n : nat) (req : request) : response :=
  Json [ {| center_lng := (-97.7431)%Q; center_lat := 30.2672%Q;
            place_name := "Austin, Texas" |} ].

Definition wild_service (n : nat) (req : request) : response :=
  Json [ {| center_lng := 200%Q; center_lat := 95%Q; place_name := "Nowhere" |} ].

(** Two ADS records and one ADAS record of a small run. *)
Definition sample_ads : list RawRecord :=
  [ {[ "Report Number" := "30270-1234"; "City" := "Austin"; "State" := "TX";
       "Make" := "Waymo LLC" ]};
    {[ "State" := "CA"; "Latitude" := "37.7749"; "Longitude" := "-122.4194" ]} ].

Definition sample_adas : list RawRecord :=
  [ {[ "City" := "Austin"; "State" := "TX"; "Make" := "Tesla" ]} ].

Definition never_refuses (keys : list string) : bool := false.

(** ** Further definitions *)

(** A field of the CSV scanner that is trimmed and without a quote
    character. *)
Definition clean (f : string) : Prop := count_char Csv.quote f = 0 /\ trim f = f.

(** A CSV text of a header line and one row. *)
Definition sample_csv : string :=
  ("Report ID,City,State" ++ String Csv.newline ("1, Austin ," ++ dq ++ "TX" ++ dq))%string.

(** The requests [later] are the requests [earlier] and, sent after them,
    at most [n] more, all for the kind [kind] of result. *)
Definition grows_by (kind : result_types) (n : nat) (earlier later : list request) : Prop :=
  exists added, later = added ++ earlier /\ List.length added <= n /\
                Forall (fun r => types r = kind) added.

(** The entries of the cache [earlier] are in [later] as they were. *)
Definition keeps (earlier later : gmap string (option GeocodedLocation)) : Prop :=
  forall k, is_Some (earlier !! k) -> later !! k = earlier !! k.

(** What the processing of [n] records may do to the state of a run: the
    city cache stays as it is, the entries of the street cache are kept,
    at most [n] requests are sent, all for addresses, at most [2 * n]
    random numbers are drawn and at most [n] narratives scanned. *)
Definition processes (n : nat) (w w1 : world) : Prop :=
  geocodeCache w1 = geocodeCache w /\
  keeps (streetGeocodeCache w) (streetGeocodeCache w1) /\
  grows_by AddressPoi n (requests w) (requests w1) /\
  draws w <= draws w1 <= draws w + 2 * n /\
  List.length (narratives w) <= List.length (narratives w1)
    <= List.length (narratives w) + n.

(** The number of days of month [m] (0 to 11) of year [y], from the table
    of the days on which the months start. *)
Definition month_length (y m : Z) : Z :=
  (JsDate.month_start (JsDate.leap y) (m + 1) - JsDate.month_start (JsDate.leap y) m)%Z.

(** Two incidents that tell the same of a report: all the fields but the
    location, the address, the city and the description, which depend on
    how a record is located. *)
Definition same_report (x y : IncidentInsert) : Prop :=
  external_id x = external_id y /\ incident_type x = incident_type y /\
  av_company x = av_company y /\ occurred_at x = occurred_at y /\
  reported_at x = reported_at y /\ fatalities x = fatalities y /\
  injuries x = injuries y /\ status x = status y /\ source x = source y /\
  raw_data x = raw_data y.

(** ** The seeding script without geocoding *)

(** [frontend/scripts/seed-data.ts] has the date parser, the CSV parser
    and the mappings of company and incident type of the script above, and
    a table of 15 states. A record is located at the centre of its state,
    moved by a jitter; the only state of a run is the number of
    [Math.random] draws. *)
Module Simple.
Import Geo Normalizer Writer.
Local Open Scope Q_scope.

Definition STATE_COORDS : list (string * StateCenter) :=
  [("CA", Build_StateCenter 37.7749 (-122.4194) "San Francisco");
   ("TX", Build_StateCenter 30.2672 (-97.7431) "Austin");
   ("AZ", Build_StateCenter 33.4484 (-112.0740) "Phoenix");
   ("FL", Build_StateCenter 28.5383 (-81.3792) "Orlando");
   ("NY", Build_StateCenter 40.7128 (-74.0060) "New York");
   ("WA", Build_StateCenter 47.6062 (-122.3321) "Seattle");
   ("NV", Build_StateCenter 36.1699 (-115.1398) "Las Vegas");
   ("MI", Build_StateCenter 42.3314 (-83.0458) "Detroit");
   ("PA", Build_StateCenter 40.4406 (-79.9959) "Pittsburgh");
   ("CO", Build_StateCenter 39.7392 (-104.9903) "Denver");
   ("MA", Build_StateCenter 42.3601 (-71.0589) "Boston");
   ("IL", Build_StateCenter 41.8781 (-87.6298) "Chicago");
   ("GA", Build_StateCenter 33.7490 (-84.3880) "Atlanta");
   ("NC", Build_StateCenter 35.2271 (-80.8431) "Charlotte");
   ("OH", Build_StateCenter 39.9612 (-82.9988) "Columbus")].

(** [STATE_COORDS[state]] *)
Definition state_property (state : string) : property :=
  match own_property STATE_COORDS state with
  | Some e => Own e
  | None => if existsb (String.eqb state) Object_prototype_names then Inherited
            else Undefined
  end.

(** [STATE_COORDS[state]?.city] *)
Definition state_city (state : string) : option string :=
  match state_property state with
  | Own e => Some (s_city e)
  | Inherited | Undefined => None
  end.

(** [STATE_COORDS[state] || STATE_COORDS['CA']], read at [lat] and
    [lng]. *)
Definition state_or_CA (state : string) : option StateCenter :=
  match state_property state with
  | Own e => Some e
  | Inherited => None
  | Undefined => own_property STATE_COORDS "CA"
  end.

Section Run.
Variable tza : Z.
Variable Date_parse : string -> option Z.
Variable random : nat -> Q.

(** [addJitter(value, range)] with the [n]-th draw of [Math.random]. *)
Definition addJitter (n : nat) (value : Q) (range : Q) : Q :=
  value + (random n - 0.5) * range.

(** The body shared by [processADSRecord] and [processADASRecord]; the
    jitter has its default range of 0.05, and a centre that has no
    [lat] and [lng] gives [NaN] after the two draws. *)
Definition processRecord (ds : dataset) (record : RawRecord) (index : nat)
    (now : Z) (draws : nat) : IncidentInsert * nat :=
  let reportNumber := reportNumber ds record index in
  let manufacturer :=
    default "" (or_else (field record "Make") (field record "Manufacturer")) in
  let state := field_or record "State" "CA" in
  let city :=
    default "Unknown" (or_else (field record "City") (state_city state)) in
  let coords :=
    match state_or_CA state with
    | Some stateCoords =>
        {| c_lat := Num (addJitter draws (s_lat stateCoords) 0.05);
           c_lng := Num (addJitter (S draws) (s_lng stateCoords) 0.05) |}
    | None => {| c_lat := NaN; c_lng := NaN |}
    end in
  let incidentDate :=
    or_else (field record "Incident Date") (field record "Date of Incident") in
  let incidentTime := record !! "Incident Time (24:00)" in
  let parsedDate := DateParser.parseNHTSADate tza Date_parse incidentDate incidentTime in
  let occurredAt := DateParser.occurredAt parsedDate now in
  let fatalities := count_field record "Deaths" "Fatalities" in
  let injuries := count_field record "Injuries" "Persons Injured" in
  let model := field_or record "Model" "" in
  let year := field_or record "Model Year" "" in
  let description :=
    trim ("NHTSA SGO Report: " ++ manufacturer ++ " " ++ model ++ " " ++ year ++ " "
          ++ wording ds ++ " " ++ city ++ ", " ++ state ++ ". "
          ++ (if bool_decide (record !! "Crash" = Some "Yes") then "Crash reported." else "")
          ++ " " ++ field_or record "Highest Injury Severity Reported" "")%string in
  ({| incident_type := mapIncidentType record;
      av_company := mapCompany manufacturer;
      description := description;
      location := coords;
      address := field record "Street";
      city := city;
      occurred_at := occurredAt;
      reported_at := now;
      status := "verified";
      source := "nhtsa";
      external_id := (id_prefix ds ++ reportNumber)%string;
      fatalities := fatalities;
      injuries := injuries;
      raw_data := record |}, S (S draws)).

Definition processADSRecord := processRecord ADS.
Definition processADASRecord := processRecord ADAS.

(** [records.map((record, idx) => process(record, idx))]; no record
    gives [null], so that the filter after it keeps them all. *)
Fixpoint processEach (ds : dataset) (records : list RawRecord) (index : nat)
    (now : Z) (draws : nat) : list IncidentInsert * nat :=
  match records with
  | [] => ([], draws)
  | record :: rest =>
      let '(x, draws) := processRecord ds record index now draws in
      let '(xs, draws) := processEach ds rest (S index) now draws in
      (x :: xs, draws)
  end.

Variable refuses : list string -> bool.

Record outcome := {
  persisted : store;
  counts : counters;
  adsIncidents : list IncidentInsert;
  adasIncidents : list IncidentInsert;
  drawn : nat
}.

(** [seedNHTSAData] once both files are fetched and parsed, the clock
    reading [now] throughout. *)
Definition seedNHTSAData (adsRecords adasRecords : list RawRecord) (now : Z)
    (s : store) : outcome :=
  let '(adsIncidents, n) := processEach ADS adsRecords 0 now 0 in
  let batchSize := 50%nat in
  let '(s, c) :=
    writeAll refuses (List.length adsIncidents) batchSize adsIncidents 0 s
      {| totalInserted := 0; totalSkipped := 0; totalErrors := 0 |} in
  let '(adasIncidents, n) := processEach ADAS (take 500 adasRecords) 0 now n in
  let '(s, c) :=
    writeAll refuses (List.length adasIncidents) batchSize adasIncidents 0 s c in
  {| persisted := s; counts := c; adsIncidents := adsIncidents;
     adasIncidents := adasIncidents; drawn := n |}.
End Run.

End Simple.
(* ================================================================= *)
(** * Properties *)

(** ** Strings *)

Lemma append_cons c (a b : string) :
  (String c a ++ b)%string = String c (a ++ b)%string.
Proof. reflexivity. Qed.

Lemma append_nil (b : string) : ("" ++ b)%string = b.
Proof. reflexivity. Qed.

Lemma count_char_app x (a b : string) :
  count_char x (a ++ b)%string = count_char x a + count_char x b.
Proof.
  induction a as [|c a IH]; [reflexivity|].
  rewrite append_cons. simpl. rewrite IH. lia.
Qed.

Lemma count_char_trimStart x s : count_char x (trimStart s) <= count_char x s.
Proof.
  induction s as [|c s IH]; simpl; [lia|].
  destruct (is_ws c); simpl; lia.
Qed.

Lemma count_char_trimEnd x s : count_char x (trimEnd s) <= count_char x s.
Proof.
  induction s as [|c s IH]; simpl; [lia|].
  destruct (trimEnd s) eqn:E.
  - destruct (is_ws c); simpl in *; lia.
  - simpl in *. lia.
Qed.

Lemma count_char_trim x s : count_char x (trim s) <= count_char x s.
Proof.
  unfold trim. etransitivity; [apply count_char_trimEnd|apply count_char_trimStart].
Qed.

Lemma string_app_nil_r (s : string) : (s ++ "")%string = s.
Proof. induction s as [|c s IH]; [reflexivity|]. now rewrite append_cons, IH. Qed.

Lemma string_app_assoc (a b c : string) :
  ((a ++ b) ++ c)%string = (a ++ (b ++ c))%string.
Proof. induction a as [|x a IH]; [reflexivity|]. now rewrite !append_cons, IH. Qed.

Lemma filter_seq_shift (P Q : nat -> Prop)
    `{!forall i, Decision (P i)} `{!forall i, Decision (Q i)} n :
  (forall i, P (S i) <-> Q i) -> forall a,
  length (filter P (seq (S a) n)) = length (filter Q (seq a n)).
Proof.
  intros HPQ. induction n as [|n IH]; intros a; [reflexivity|].
  simpl seq. rewrite !filter_cons.
  destruct (decide (P (S a))) as [HP|HP], (decide (Q a)) as [HQ|HQ]; simpl;
    rewrite ?IH; try reflexivity; exfalso; apply HPQ in HP || apply HPQ in HQ;
    contradiction.
Qed.

(** ** The CSV scanner *)

Module CsvFacts.
Import Csv.

Lemma scan_app st (a b : string) : scan st (a ++ b)%string = scan (scan st a) b.
Proof.
  revert st. induction a as [|c a IH]; intros st; [reflexivity|].
  rewrite append_cons. simpl. apply IH.
Qed.

(** Inside quotes, a stretch of text without a quote character is taken
    over verbatim, commas included. *)
Lemma scan_inside_quotes body r cur :
  count_char quote body = 0 ->
  scan (Scanner r cur true) body = Scanner r (cur ++ body)%string true.
Proof.
  revert cur. induction body as [|c body IH]; intros cur H; simpl.
  - now rewrite string_app_nil_r.
  - simpl in H. unfold scan_char. simpl.
    destruct (Ascii.eqb c quote) eqn:E; [simpl in H; lia|].
    rewrite andb_false_r. rewrite IH by (simpl in H; lia).
    now rewrite string_app_assoc.
Qed.

Lemma scan_char_quote_free st c : quote_free st -> quote_free (scan_char st c).
Proof.
  intros [Hr Hc]. unfold scan_char.
  destruct (Ascii.eqb c quote) eqn:E; [split; assumption|].
  destruct (Ascii.eqb c comma && negb (inQuotes st)); split; simpl; try assumption.
  - apply Forall_app. split; [assumption|]. constructor; [|constructor].
    pose proof (count_char_trim quote (current st)). lia.
  - reflexivity.
  - rewrite count_char_app. simpl. rewrite E. lia.
Qed.

Lemma scan_quote_free line : forall st, quote_free st -> quote_free (scan st line).
Proof.
  induction line as [|c line IH]; intros st H; simpl; [assumption|].
  apply IH, scan_char_quote_free, H.
Qed.

Lemma separators_from_cons odd c line :
  separators_from odd (String c line) =
  (if Ascii.eqb c comma && negb odd then 1 else 0) +
  separators_from (if Ascii.eqb c quote then negb odd else odd) line.
Proof.
  unfold separators_from. simpl String.length.
  simpl seq. rewrite filter_cons.
  assert (Hrest :
    length (filter (fun i => is_separator_from odd (String c line) i = true)
                   (seq 1 (String.length line))) =
    length (filter (fun i => is_separator_from
                        (if Ascii.eqb c quote then negb odd else odd) line i = true)
                   (seq 0 (String.length line)))).
  { apply filter_seq_shift. intros i.
    unfold is_separator_from.
    change (String.get (S i) (String c line)) with (String.get i line).
    change (String.substring 0 (S i) (String c line))
      with (String c (String.substring 0 i line)).
    destruct (String.get i line) as [d|]; [|tauto].
    set (k := count_char quote (String.substring 0 i line)).
    change (count_char quote (String c (String.substring 0 i line)))
      with ((if Ascii.eqb c quote then 1 else 0) + k).
    destruct (Ascii.eqb c quote).
    - change (1 + k) with (S k). rewrite Nat.even_succ, <- Nat.negb_even.
      destruct odd, (Nat.even k); simpl; tauto.
    - change (0 + k) with k. tauto. }
  case_decide as Hd.
  - simpl length. rewrite Hrest.
    unfold is_separator_from in Hd. simpl in Hd.
    destruct (Ascii.eqb c comma), odd; simpl in *; try discriminate; reflexivity.
  - rewrite Hrest.
    unfold is_separator_from in Hd. simpl in Hd.
    destruct (Ascii.eqb c comma), odd; simpl in *; try reflexivity; congruence.
Qed.

Lemma scan_length line : forall st,
  length (result (scan st line)) =
  length (result st) + separators_from (inQuotes st) line.
Proof.
  induction line as [|c line IH]; intros st.
  - simpl. unfold separators_from. simpl. lia.
  - simpl scan. rewrite IH, separators_from_cons. unfold scan_char.
    destruct (Ascii.eqb c quote) eqn:Eq.
    + assert (Ascii.eqb c comma = false) as ->.
      { apply Ascii.eqb_eq in Eq. subst c. reflexivity. }
      simpl. lia.
    + destruct (Ascii.eqb c comma && negb (inQuotes st)); simpl.
      * rewrite length_app. simpl. lia.
      * lia.
Qed.

Lemma separators_from_false line : separators_from false line = separators line.
Proof.
  unfold separators_from, separators.
  erewrite list_filter_iff; [reflexivity|].
  intros i. unfold is_separator_from, is_separator.
  destruct (String.get i line); [|tauto]. simpl. tauto.
Qed.

Lemma fill_app values a : forall b idx record,
  fill values idx (a ++ b) record =
  fill values (idx + length a) b (fill values idx a record).
Proof.
  induction a as [|h a IH]; intros b idx record; simpl.
  - f_equal. lia.
  - rewrite IH. f_equal. lia.
Qed.

(** From a column index the row does not reach, every header gets the
    empty string, whatever the record held before. *)
Lemma fill_missing values (headers : list string) : forall idx (record : RawRecord) h,
  length values <= idx -> h ∈ headers ->
  fill values idx headers record !! h = Some "".
Proof.
  induction headers as [|h0 hs IH]; intros idx record h Hlen Hin.
  - inversion Hin.
  - simpl. destruct (decide (h ∈ hs)) as [Hhs|Hhs].
    + apply IH; [lia|assumption].
    + assert (h = h0) as -> by (inversion Hin; subst; [reflexivity|contradiction]).
      assert (Hkeep : forall hs' i (r : RawRecord),
                 h0 ∉ hs' -> fill values i hs' r !! h0 = r !! h0).
      { induction hs' as [|x hs' IH']; intros i r Hn; simpl; [reflexivity|].
        rewrite IH' by (intros ?; apply Hn; now right).
        apply lookup_insert_ne. intros ->. apply Hn. now left. }
      rewrite Hkeep by assumption. rewrite lookup_insert_eq.
      unfold cell. rewrite (lookup_ge_None_2 values idx) by lia. reflexivity.
Qed.

End CsvFacts.



(** ** Calendar arithmetic *)

Module DateFacts.
Import JsDate.
Local Open Scope Z_scope.

Lemma DayFromYear_succ y : DayFromYear (y + 1) = DayFromYear y + DaysInYear y.
Proof.
  unfold DayFromYear, DaysInYear.
  destruct (Z.eqb_spec (y mod 4) 0), (Z.eqb_spec (y mod 100) 0),
    (Z.eqb_spec (y mod 400) 0); simpl; Z.div_mod_to_equations; lia.
Qed.

Lemma DaysInYear_cases y : DaysInYear y = 365 \/ DaysInYear y = 366.
Proof.
  unfold DaysInYear.
  destruct (y mod 4 =? 0), (y mod 100 =? 0), (y mod 400 =? 0); simpl; auto.
Qed.

(** The year of a time value is the year whose days contain its day. *)
Lemma YearFromTime_spec t y :
  DayFromYear y <= Day t < DayFromYear (y + 1) -> YearFromTime t = y.
Proof.
  intros H. unfold YearFromTime. set (d := Day t) in *.
  set (e := 1970 + d * 10000 / 3652425).
  assert (He : y - 1 <= e <= y + 1).
  { subst e. unfold DayFromYear in H. Z.div_mod_to_equations. lia. }
  pose proof (DayFromYear_succ e) as S0.
  pose proof (DayFromYear_succ (e + 1)) as S1.
  pose proof (DayFromYear_succ y) as Sy.
  pose proof (DayFromYear_succ (y - 1)) as Sp.
  replace (y - 1 + 1) with y in Sp by lia.
  pose proof (DaysInYear_cases e). pose proof (DaysInYear_cases (e + 1)).
  pose proof (DaysInYear_cases y). pose proof (DaysInYear_cases (y - 1)).
  assert (Hc : e = y - 1 \/ e = y \/ e = y + 1) by lia.
  destruct Hc as [Hc|[Hc|Hc]]; rewrite Hc in *.
  - replace (y - 1 + 1) with y in * by lia.
    destruct (Z.ltb_spec d (DayFromYear (y - 1))); [lia|].
    destruct (Z.leb_spec (DayFromYear y) d); lia.
  - destruct (Z.ltb_spec d (DayFromYear y)); [lia|].
    destruct (Z.leb_spec (DayFromYear (y + 1)) d); lia.
  - destruct (Z.ltb_spec d (DayFromYear (y + 1))); lia.
Qed.

(** The first day of month [m] of year [y]. *)
Lemma month_start_fields t y m :
  0 <= m <= 11 -> Day t = DayFromYear y + month_start (leap y) m ->
  YearFromTime t = y /\ MonthFromTime t = m /\ DateFromTime t = 1.
Proof.
  intros Hm Hd.
  assert (Hy : YearFromTime t = y).
  { apply YearFromTime_spec. rewrite DayFromYear_succ, Hd. unfold leap.
    assert (Hc : m = 0 \/ m = 1 \/ m = 2 \/ m = 3 \/ m = 4 \/ m = 5 \/ m = 6 \/
                 m = 7 \/ m = 8 \/ m = 9 \/ m = 10 \/ m = 11) by lia.
    destruct (DaysInYear_cases y) as [E|E]; rewrite E;
      repeat (destruct Hc as [->|Hc]; [simpl; lia|]); subst m; simpl; lia. }
  assert (Hw : DayWithinYear t = month_start (leap y) m).
  { unfold DayWithinYear. rewrite Hy, Hd. lia. }
  assert (Hl : InLeapYear t = leap y).
  { unfold InLeapYear. now rewrite Hy. }
  split; [assumption|].
  unfold DateFromTime, MonthFromTime. rewrite Hw, Hl.
  assert (Hc : m = 0 \/ m = 1 \/ m = 2 \/ m = 3 \/ m = 4 \/ m = 5 \/ m = 6 \/
               m = 7 \/ m = 8 \/ m = 9 \/ m = 10 \/ m = 11) by lia.
  unfold leap. destruct (DaysInYear y =? 366);
    repeat (destruct Hc as [->|Hc]; [split; reflexivity|]); subst m;
    split; reflexivity.
Qed.

(** Hours and minutes added to the start of a day. *)
Lemma time_fields D hh mm :
  0 <= hh < 24 -> 0 <= mm < 60 ->
  let t := MakeDate D (MakeTime hh mm 0 0) in
  Day t = D /\ HourFromTime t = hh /\ MinFromTime t = mm /\
  SecFromTime t = 0 /\ msFromTime t = 0.
Proof.
  intros Hh Hm. unfold MakeDate, MakeTime, Day, HourFromTime, MinFromTime,
    SecFromTime, msFromTime, msPerDay, msPerHour, msPerMinute, msPerSecond.
  repeat split; Z.div_mod_to_equations; lia.
Qed.

Lemma MakeDay_in_range y m :
  100 <= y <= 9999 -> 0 <= m <= 11 ->
  MakeDay y m 1 = DayFromYear y + month_start (leap y) m /\
  -700000 <= MakeDay y m 1 <= 3000000.
Proof.
  intros Hy Hm. unfold MakeDay.
  replace (m / 12) with 0 by (Z.div_mod_to_equations; lia).
  replace (m mod 12) with m by (Z.div_mod_to_equations; lia).
  replace (y + 0) with y by lia. split; [lia|].
  assert (0 <= month_start (leap y) m <= 335).
  { assert (Hc : m = 0 \/ m = 1 \/ m = 2 \/ m = 3 \/ m = 4 \/ m = 5 \/ m = 6 \/
                 m = 7 \/ m = 8 \/ m = 9 \/ m = 10 \/ m = 11) by lia.
    unfold leap. destruct (DaysInYear y =? 366);
      repeat (destruct Hc as [->|Hc]; [simpl; lia|]); subst m; simpl; lia. }
  unfold DayFromYear. Z.div_mod_to_equations. lia.
Qed.

End DateFacts.

(** ** Characters and numerals *)

Ltac by_char c :=
  destruct c as [[] [] [] [] [] [] [] []]; try discriminate; repeat split.

Lemma digit_facts c :
  is_digit c = true ->
  is_ws c = false /\ upper_char c = c /\ Ascii.eqb c "-" = false /\
  Ascii.eqb c "+" = false /\ Ascii.eqb c ":" = false /\ Ascii.eqb c "/" = false /\
  JsNumber.digit_of 10 c = Some (digit_val c) /\ (0 <= digit_val c <= 9)%Z.
Proof. intros H. by_char c; discriminate. Qed.

Lemma digit_char_facts k :
  (0 <= k <= 9)%Z ->
  is_digit (DateParser.digit_char k) = true /\ digit_val (DateParser.digit_char k) = k.
Proof.
  intros H.
  assert (Hc : (k = 0 \/ k = 1 \/ k = 2 \/ k = 3 \/ k = 4 \/ k = 5 \/ k = 6 \/
               k = 7 \/ k = 8 \/ k = 9)%Z) by lia.
  repeat (destruct Hc as [->|Hc]; [split; reflexivity|]). subst k. split; reflexivity.
Qed.

Lemma trimStart_id c r : is_ws c = false -> trimStart (String c r) = String c r.
Proof. intros H. simpl. now rewrite H. Qed.

Lemma trimEnd_last s c :
  is_ws c = false -> trimEnd (s ++ String c "")%string = (s ++ String c "")%string.
Proof.
  intros H. induction s as [|x s IH].
  - rewrite append_nil. simpl. now rewrite H.
  - rewrite append_cons. simpl. rewrite IH.
    destruct s; reflexivity.
Qed.

Module ParserFacts.
Import JsNumber JsDate DateParser.
Local Open Scope Z_scope.

Lemma int10_four d1 d2 d3 d4 :
  is_digit d1 = true -> is_digit d2 = true -> is_digit d3 = true -> is_digit d4 = true ->
  int10 (four d1 d2 d3 d4) =
  1000 * digit_val d1 + 100 * digit_val d2 + 10 * digit_val d3 + digit_val d4.
Proof.
  intros H1 H2 H3 H4.
  destruct (digit_facts _ H1) as (W1 & _ & M1 & P1 & _ & _ & D1 & _).
  destruct (digit_facts _ H2) as (_ & _ & _ & _ & _ & _ & D2 & _).
  destruct (digit_facts _ H3) as (_ & _ & _ & _ & _ & _ & D3 & _).
  destruct (digit_facts _ H4) as (_ & _ & _ & _ & _ & _ & D4 & _).
  unfold int10, parseInt, four. rewrite trimStart_id by assumption.
  unfold strip_sign. rewrite M1, P1. unfold leading_int. rewrite D1.
  simpl digits_from. rewrite D2, D3, D4. lia.
Qed.

Lemma int10_two d1 d2 :
  is_digit d1 = true -> is_digit d2 = true ->
  int10 (String d1 (String d2 "")) = 10 * digit_val d1 + digit_val d2.
Proof.
  intros H1 H2.
  destruct (digit_facts _ H1) as (W1 & _ & M1 & P1 & _ & _ & D1 & _).
  destruct (digit_facts _ H2) as (_ & _ & _ & _ & _ & _ & D2 & _).
  unfold int10, parseInt. rewrite trimStart_id by assumption.
  unfold strip_sign. rewrite M1, P1. unfold leading_int. rewrite D1.
  simpl digits_from. rewrite D2. lia.
Qed.

Lemma int10_yyyy y : 0 <= y <= 9999 -> int10 (yyyy y) = y.
Proof.
  intros H. unfold yyyy.
  destruct (digit_char_facts (y / 1000)) as [A1 B1]; [Z.div_mod_to_equations; lia|].
  destruct (digit_char_facts (y / 100 mod 10)) as [A2 B2]; [Z.div_mod_to_equations; lia|].
  destruct (digit_char_facts (y / 10 mod 10)) as [A3 B3]; [Z.div_mod_to_equations; lia|].
  destruct (digit_char_facts (y mod 10)) as [A4 B4]; [Z.div_mod_to_equations; lia|].
  fold (four (digit_char (y / 1000)) (digit_char (y / 100 mod 10))
             (digit_char (y / 10 mod 10)) (digit_char (y mod 10))).
  rewrite int10_four by assumption. rewrite B1, B2, B3, B4.
  Z.div_mod_to_equations. lia.
Qed.

Lemma int10_dd n : 0 <= n <= 99 -> int10 (dd n) = n.
Proof.
  intros H. unfold dd.
  destruct (digit_char_facts (n / 10)) as [A1 B1]; [Z.div_mod_to_equations; lia|].
  destruct (digit_char_facts (n mod 10)) as [A2 B2]; [Z.div_mod_to_equations; lia|].
  rewrite int10_two by assumption. rewrite B1, B2. Z.div_mod_to_equations. lia.
Qed.

(** A month key, a hyphen and four digits pass the first pattern
    unchanged by trimming and capitalisation. *)
Lemma match_month_year_four mon m d1 d2 d3 d4 :
  In (mon, m) MONTH_MAP ->
  is_digit d1 = true -> is_digit d2 = true -> is_digit d3 = true -> is_digit d4 = true ->
  let s := (mon ++ "-" ++ four d1 d2 d3 d4)%string in
  truthy s = true /\
  match_month_year (toUpperCase (trim s)) = Some (mon, four d1 d2 d3 d4) /\
  lookup_month MONTH_MAP mon = Some m /\ 0 <= m <= 11.
Proof.
  intros Hin H1 H2 H3 H4.
  destruct (digit_facts _ H1) as (_ & U1 & _).
  destruct (digit_facts _ H2) as (_ & U2 & _).
  destruct (digit_facts _ H3) as (_ & U3 & _).
  destruct (digit_facts _ H4) as (W4 & U4 & _).
  assert (Hs : forall a b c : ascii,
    is_ws a = false -> upper_char a = a -> upper_char b = b -> upper_char c = c ->
    is_upper a = true -> is_upper b = true -> is_upper c = true ->
    let s := String a (String b (String c (String "-" (four d1 d2 d3 d4)))) in
    truthy s = true /\
    match_month_year (toUpperCase (trim s)) =
      Some (String a (String b (String c "")), four d1 d2 d3 d4)).
  { intros a b c Wa Ua Ub Uc Ia Ib Ic s. split; [reflexivity|].
    unfold trim. subst s. rewrite trimStart_id by assumption.
    change (String a (String b (String c (String "-" (four d1 d2 d3 d4)))))
      with ((String a (String b (String c (String "-"
              (String d1 (String d2 (String d3 ""))))))) ++ String d4 "")%string.
    rewrite trimEnd_last by assumption.
    unfold toUpperCase. rewrite !append_cons, append_nil. simpl map_chars.
    rewrite Ua, Ub, Uc, U1, U2, U3, U4.
    unfold match_month_year, all_chars. simpl.
    rewrite Ia, Ib, Ic, H1, H2, H3, H4. reflexivity. }
  simpl in Hin.
  repeat (destruct Hin as [Hin|Hin];
          [inversion Hin; subst mon m;
           lazymatch goal with
           | |- context [(String ?a (String ?b (String ?c EmptyString)) ++ _)%string] =>
               destruct (Hs a b c eq_refl eq_refl eq_refl eq_refl eq_refl eq_refl eq_refl)
                 as [T M]
           end;
           (split; [exact T|split; [exact M|split; [reflexivity|lia]]])|]).
  contradiction.
Qed.

Lemma match_time_hhmm h1 h2 m1 m2 :
  is_digit h1 = true -> is_digit h2 = true -> is_digit m1 = true -> is_digit m2 = true ->
  let ts := String h1 (String h2 (String ":" (String m1 (String m2 "")))) in
  truthy ts = true /\
  match_time ts = Some (String h1 (String h2 ""), String m1 (String m2 "")).
Proof.
  intros H1 H2 H3 H4 ts. split; [reflexivity|].
  subst ts. simpl. now rewrite H1, H2, H3, H4.
Qed.

End ParserFacts.

(** ** The date parser *)

Section DateParserProps.
Import JsNumber JsDate DateParser DateFacts.
Local Open Scope Z_scope.

Variable tza : Z.
Variable Date_parse : string -> option Z.

Lemma shows_local L y m d hh mm :
  YearFromTime L = y -> MonthFromTime L = m -> DateFromTime L = d ->
  HourFromTime L = hh -> MinFromTime L = mm -> SecFromTime L = 0 -> msFromTime L = 0 ->
  shows tza (UTC tza L) y m d hh mm.
Proof.
  intros. unfold shows, getFullYear, getMonth, getDate, getHours, getMinutes,
    getSeconds, getMilliseconds.
  replace (LocalTime tza (UTC tza L)) with L by (unfold LocalTime, UTC; lia).
  repeat split; assumption.
Qed.

(** The first instant of month [m] of year [y], and a time of day added
    to it by [setHours]. *)
Lemma construct_month_start y m :
  100 <= y <= 9999 -> 0 <= m <= 11 ->
  construct tza y m 1 = UTC tza (MakeDate (MakeDay y m 1) 0) /\
  shows tza (construct tza y m 1) y m 1 0 0.
Proof.
  intros Hy Hm. destruct (MakeDay_in_range y m Hy Hm) as [Ed Hr].
  unfold construct.
  replace ((0 <=? y) && (y <=? 99)) with false
    by (symmetry; apply andb_false_iff; right; apply Z.leb_gt; lia).
  change (MakeTime 0 0 0 0) with 0.
  set (L := MakeDate (MakeDay y m 1) 0).
  split; [reflexivity|].
  destruct (time_fields (MakeDay y m 1) 0 0) as (Dd & Hh & Hmi & Hs & Hms); [lia..|].
  change (MakeTime 0 0 0 0) with 0 in *. fold L in Dd, Hh, Hmi, Hs, Hms.
  destruct (month_start_fields L y m Hm) as (Fy & Fm & Fd); [now rewrite Dd|].
  apply shows_local; assumption.
Qed.

Lemma setHours_month_start y m hh mm :
  100 <= y <= 9999 -> 0 <= m <= 11 -> 0 <= hh <= 99 -> 0 <= mm <= 99 ->
  let L := MakeDate (MakeDay y m 1) (MakeTime hh mm 0 0) in
  setHours tza (construct tza y m 1) hh mm = UTC tza L /\
  (hh <= 23 -> mm <= 59 -> shows tza (UTC tza L) y m 1 hh mm).
Proof.
  intros Hy Hm Hh Hmi L. destruct (MakeDay_in_range y m Hy Hm) as [Ed Hr].
  destruct (construct_month_start y m Hy Hm) as [-> _].
  destruct (time_fields (MakeDay y m 1) 0 0) as (Dd & _ & _ & Hs & Hms); [lia..|].
  change (MakeTime 0 0 0 0) with 0 in *.
  split.
  - unfold setHours.
    replace (LocalTime tza (UTC tza (MakeDate (MakeDay y m 1) 0)))
      with (MakeDate (MakeDay y m 1) 0) by (unfold LocalTime, UTC; lia).
    rewrite Dd, Hs, Hms. reflexivity.
  - intros Hh' Hmi'.
    destruct (time_fields (MakeDay y m 1) hh mm) as (Dd' & Fh & Fmi & Fs & Fms); [lia..|].
    fold L in Dd', Fh, Fmi, Fs, Fms.
    destruct (month_start_fields L y m Hm) as (Fy & Fm & Fd); [now rewrite Dd'|].
    apply shows_local; assumption.
Qed.

Lemma parse_month_year mon m y timeStr :
  In (mon, m) MONTH_MAP -> 100 <= y <= 9999 ->
  parseNHTSADate tza Date_parse (Some (mon ++ "-" ++ yyyy y)%string) timeStr =
  Some (apply_time tza (construct tza y m 1) timeStr) /\ 0 <= m <= 11.
Proof.
  intros Hin Hy.
  destruct (digit_char_facts (y / 1000)) as [A1 _]; [Z.div_mod_to_equations; lia|].
  destruct (digit_char_facts (y / 100 mod 10)) as [A2 _]; [Z.div_mod_to_equations; lia|].
  destruct (digit_char_facts (y / 10 mod 10)) as [A3 _]; [Z.div_mod_to_equations; lia|].
  destruct (digit_char_facts (y mod 10)) as [A4 _]; [Z.div_mod_to_equations; lia|].
  destruct (ParserFacts.match_month_year_four mon m _ _ _ _ Hin A1 A2 A3 A4)
    as (T & M & K & Hm).
  unfold four in T, M. fold (yyyy y) in T, M.
  unfold parseNHTSADate. rewrite T. simpl negb. cbv iota.
  rewrite M, K, (ParserFacts.int10_yyyy y) by lia.
  replace (y =? 0) with false by (symmetry; apply Z.eqb_neq; lia).
  split; [reflexivity|exact Hm].
Qed.


(** C5. [13/40/2025] passes the month/day/year pattern and the [Date]
    constructor carries month 13 and day 40 over: the parser returns
    9 February 2026, 00:00 local time, not [null], and the caller keeps
    that date instead of the ingestion time. *)
Theorem parseNHTSADate_day_overflow :
  exists d, parseNHTSADate tza Date_parse (Some "13/40/2025") None = Some d /\
            shows tza d 2026 1 9 0 0 /\
            forall now, occurredAt (Some d) now = d.
Proof.
  exists (UTC tza 1770595200000).
  split; [reflexivity|]. split; [|reflexivity].
  apply shows_local; reflexivity.
Qed.

(** The sibling path: the same calendar date in ISO form goes to the
    host's parser, and is [null] when the host finds it invalid. *)
Lemma parseNHTSADate_iso_invalid :
  Date_parse "2025-13-40" = None ->
  parseNHTSADate tza Date_parse (Some "2025-13-40") None = None.
Proof. intros H. vm_compute. now rewrite H. Qed.

End DateParserProps.



(** ** Counts *)

Module NumberFacts.
Import JsNumber.
Local Open Scope Z_scope.

Lemma startsWith_cons a p b s :
  startsWith (String a p) (String b s) = Ascii.eqb a b && startsWith p s.
Proof. reflexivity. Qed.

Lemma not_digit_facts c :
  is_digit c = false -> digit_of 10 c = None /\ Ascii.eqb "0" c = false.
Proof. intros H. by_char c; discriminate. Qed.

Lemma digit_of_nonneg R c d : digit_of R c = Some d -> 0 <= d.
Proof.
  unfold digit_of, is_digit, is_lower, is_upper.
  destruct (N.leb_spec 48 (code c)), (N.leb_spec (code c) 57); simpl.
  1: { destruct (_ <? R); intros [= <-]; lia. }
  all: destruct (N.leb_spec 97 (code c)), (N.leb_spec (code c) 122); simpl;
    try (destruct (_ <? R); intros [= <-]; lia);
    destruct (N.leb_spec 65 (code c)), (N.leb_spec (code c) 90); simpl;
    try discriminate; destruct (_ <? R); intros [= <-]; lia.
Qed.

Lemma digits_from_nonneg R s : forall acc, 0 <= R -> 0 <= acc -> 0 <= digits_from R acc s.
Proof.
  induction s as [|c s IH]; intros acc HR Hacc; simpl; [assumption|].
  destruct (digit_of R c) as [d|] eqn:E; [|assumption].
  apply digit_of_nonneg in E. apply IH; nia.
Qed.

Lemma leading_int_nonneg R s m : 0 <= R -> leading_int R s = Some m -> 0 <= m.
Proof.
  intros HR. destruct s as [|c s]; simpl; [discriminate|].
  destruct (digit_of R c) as [d|] eqn:E; [|discriminate].
  intros [= <-]. apply digits_from_nonneg; [assumption|].
  eapply digit_of_nonneg, E.
Qed.

Lemma parseInt_or_0_no_digit v :
  Normalizer.no_leading_digit v = true -> parseInt_or_0 v = 0.
Proof.
  unfold Normalizer.no_leading_digit, parseInt_or_0, parseInt.
  destruct (strip_sign (trimStart v)) as [sign body]. simpl snd.
  destruct body as [|c r]; intros H; [reflexivity|].
  apply negb_true_iff, not_digit_facts in H as [Hd H0].
  rewrite !startsWith_cons, H0. simpl. now rewrite Hd.
Qed.

Lemma parseInt_or_0_sign v :
  (Normalizer.minus_sign v = false -> 0 <= parseInt_or_0 v) /\
  (Normalizer.minus_sign v = true -> parseInt_or_0 v <= 0).
Proof.
  unfold Normalizer.minus_sign, parseInt_or_0, parseInt, strip_sign.
  destruct (trimStart v) as [|c r]; [split; [reflexivity|discriminate]|].
  rewrite startsWith_cons. change (startsWith "" r) with true.
  rewrite andb_true_r, (Ascii.eqb_sym "-" c).
  assert (Hm : forall R body m, leading_int R body = Some m ->
               (R = 10 \/ R = 16) -> 0 <= m).
  { intros R body m E [->| ->]; eapply leading_int_nonneg; try exact E; lia. }
  destruct (Ascii.eqb c "-"); [|destruct (Ascii.eqb c "+")];
    (split; intros Hs; try discriminate Hs);
    match goal with
    | |- context [if ?b then _ else _] => destruct b
    end;
    match goal with
    | |- context [leading_int ?R ?body] =>
        destruct (leading_int R body) as [m|] eqn:E; [|lia];
        assert (0 <= m) by (eapply Hm; [exact E|auto]); lia
    end.
Qed.

End NumberFacts.

Section NormalizerProps.
Import Geo Normalizer.
Local Open Scope Z_scope.

Variable tza : Z.
Variable Date_parse : string -> option Z.
Variable patterns : list (string -> option string).
Variable service : nat -> request -> response.
Variable random : nat -> Q.

Abbreviation process := (processRecord tza Date_parse patterns service random).
Abbreviation resolve' := (resolve patterns service random).

Lemma process_fields ds record index now w :
  let p := fst (process ds record index now w) in
  let r := fst (resolve' record (city_of record) (state_of record) w) in
  fatalities (incident p) = count_field record "Deaths" "Fatalities" /\
  injuries (incident p) = count_field record "Injuries" "Persons Injured" /\
  external_id (incident p) = (id_prefix ds ++ reportNumber ds record index)%string /\
  raw_data (incident p) = record /\
  city (incident p) = city_of record /\
  location (incident p) = resolved r /\
  hasRealCoords p = bool_decide (is_Some (realCoords r)) /\
  hasStreetCoords p = bool_decide (is_Some (streetCoords r)) /\
  snd (process ds record index now w) =
    snd (resolve' record (city_of record) (state_of record) w).
Proof.
  unfold processRecord.
  destruct (resolve _ _ _ record (city_of record) (state_of record) w) as [r w'].
  simpl. repeat split; reflexivity.
Qed.


End NormalizerProps.



(** ** Coordinates *)

Module GeoFacts.
Import Geo JsNumber.
Local Open Scope Q_scope.

Lemma Qle_bool_true x y : Qle_bool x y = true <-> x <= y.
Proof. apply Qle_bool_iff. Qed.

Lemma Qle_bool_false x y : Qle_bool x y = false <-> y < x.
Proof.
  split; intros H.
  - apply Qnot_le_lt. intros Hle. apply Qle_bool_iff in Hle. congruence.
  - destruct (Qle_bool x y) eqn:E; [|reflexivity].
    apply Qle_bool_iff in E. exfalso. apply (Qlt_not_le _ _ H E).
Qed.

Lemma parseFloat_empty : parseFloat "" = NaN.
Proof. reflexivity. Qed.

Lemma in_box x lo hi :
  lt x lo = false -> gt x hi = false -> isNaN x = false ->
  exists a, x = Num a /\ lo <= a <= hi.
Proof.
  destruct x as [a| |[]]; simpl; try discriminate.
  intros H1 H2 _. apply negb_false_iff in H1, H2.
  apply Qle_bool_iff in H1, H2. exists a. repeat split; assumption.
Qed.

(** What [parseNHTSACoordinates] returns lies in the box it checks. *)
Lemma parseNHTSACoordinates_range record c :
  parseNHTSACoordinates record = Some c ->
  exists a b, c = {| c_lat := Num a; c_lng := Num b |} /\
              18 <= a <= 72 /\ -180 <= b <= -65.
Proof.
  unfold parseNHTSACoordinates.
  destruct (flagged_unknown record "Latitude - Unknown"
            || flagged_unknown record "Longitude - Unknown"); [discriminate|].
  destruct (record !! "Latitude") as [latS|]; [|discriminate].
  destruct (record !! "Longitude") as [lngS|]; [|discriminate]. simpl.
  destruct (negb (truthy (trim latS)) || negb (truthy (trim lngS))); [discriminate|].
  destruct (isNaN (parseFloat (trim latS)) || isNaN (parseFloat (trim lngS))) eqn:En;
    [discriminate|].
  destruct (lt (parseFloat (trim latS)) 18 || gt (parseFloat (trim latS)) 72
            || lt (parseFloat (trim lngS)) (-180) || gt (parseFloat (trim lngS)) (-65))
    eqn:Eb; [discriminate|].
  intros [= <-]. apply orb_false_iff in En as [N1 N2].
  apply orb_false_iff in Eb as [Eb B4]. apply orb_false_iff in Eb as [Eb B3].
  apply orb_false_iff in Eb as [B1 B2].
  destruct (in_box _ _ _ B1 B2 N1) as (a & -> & Ha).
  destruct (in_box _ _ _ B3 B4 N2) as (b & -> & Hb).
  exists a, b. repeat split; tauto.
Qed.

Lemma parseNHTSACoordinates_present record latS lngS la lo :
  record !! "Latitude" = Some latS -> record !! "Longitude" = Some lngS ->
  flagged_unknown record "Latitude - Unknown" = false ->
  flagged_unknown record "Longitude - Unknown" = false ->
  parseFloat (trim latS) = Num la -> parseFloat (trim lngS) = Num lo ->
  18 <= la <= 72 -> -180 <= lo <= -65 ->
  parseNHTSACoordinates record = Some {| c_lat := Num la; c_lng := Num lo |}.
Proof.
  intros Hla Hlo Ula Ulo Pla Plo [A1 A2] [B1 B2]. unfold parseNHTSACoordinates.
  rewrite Ula, Ulo, Hla, Hlo. simpl.
  assert (Tla : truthy (trim latS) = true).
  { destruct (trim latS); [rewrite parseFloat_empty in Pla; discriminate|reflexivity]. }
  assert (Tlo : truthy (trim lngS) = true).
  { destruct (trim lngS); [rewrite parseFloat_empty in Plo; discriminate|reflexivity]. }
  rewrite Tla, Tlo, Pla, Plo. simpl.
  apply Qle_bool_iff in A1, A2, B1, B2. now rewrite A1, A2, B1, B2.
Qed.

Lemma own_property_In table key e :
  own_property table key = Some e -> In e (map snd table).
Proof.
  induction table as [|[k e'] table IH]; simpl; [discriminate|].
  destruct (String.eqb k key); [intros [= <-]; now left|right; auto].
Qed.

Lemma STATE_COORDS_roomy e : In e (map snd STATE_COORDS) -> roomy e = true.
Proof.
  assert (H : forallb roomy (map snd STATE_COORDS) = true) by (vm_compute; reflexivity).
  rewrite forallb_forall in H. apply H.
Qed.

Lemma state_or_CA_roomy state e : state_or_CA state = Some e -> roomy e = true.
Proof.
  unfold state_or_CA, state_property.
  destruct (own_property STATE_COORDS state) as [e'|] eqn:E.
  - intros [= <-]. eapply STATE_COORDS_roomy, own_property_In, E.
  - destruct (existsb _ _); [discriminate|]. intros [= <-]. vm_compute. reflexivity.
Qed.

Lemma roomy_bounds e :
  roomy e = true ->
  -89.95 <= s_lat e <= 89.95 /\ -179.95 <= s_lng e <= 179.95.
Proof.
  unfold roomy. rewrite !andb_true_iff, !Qle_bool_iff. tauto.
Qed.

Lemma valid_intro a b :
  -90 <= a <= 90 -> -180 <= b <= 180 -> valid {| c_lat := Num a; c_lng := Num b |} = true.
Proof.
  intros [A1 A2] [B1 B2]. unfold valid. simpl.
  apply Qle_bool_iff in A1, A2, B1, B2. now rewrite A1, A2, B1, B2.
Qed.

End GeoFacts.

Section GeoProps.
Import Geo Normalizer GeoFacts.
Local Open Scope Q_scope.

Variable tza : Z.
Variable Date_parse : string -> option Z.
Variable patterns : list (string -> option string).
Variable service : nat -> request -> response.
Variable random : nat -> Q.

Abbreviation process := (processRecord tza Date_parse patterns service random).
Abbreviation resolve' := (resolve patterns service random).

Lemma extracted_truthy narrative a :
  Narrative.extractLocationFromNarrative patterns narrative = Some a -> truthy a = true.
Proof.
  unfold Narrative.extractLocationFromNarrative.
  destruct (negb (truthy narrative)); [discriminate|].
  induction patterns as [|p ps IH]; simpl; [discriminate|].
  destruct (p narrative) as [m|]; [|exact IH].
  destruct (truthy m && (5 <? String.length _)%nat && (String.length _ <? 100)%nat)
    eqn:E; [|exact IH].
  intros [= <-]. apply andb_true_iff in E as [E _]. apply andb_true_iff in E as [_ E].
  apply Nat.ltb_lt in E. destruct (trim _); [simpl in E; lia|reflexivity].
Qed.

Lemma resolve_real record city state w c :
  parseNHTSACoordinates record = Some c ->
  resolve' record city state w =
  ({| realCoords := Some c; streetCoords := None; extractedAddress := None;
      resolved := c |}, w).
Proof. intros H. unfold resolve. rewrite H. reflexivity. Qed.

(** C3. A record with latitude and longitude present, not flagged
    unknown, numeric and within [18, 72] and [-180, -65] is given exactly
    that pair as its location; the world is left as it was: no narrative
    is scanned, no request is sent, no random number drawn and no cache
    written. *)
Theorem real_coordinates_take_precedence ds record index now w latS lngS la lo :
  record !! "Latitude" = Some latS -> record !! "Longitude" = Some lngS ->
  flagged_unknown record "Latitude - Unknown" = false ->
  flagged_unknown record "Longitude - Unknown" = false ->
  JsNumber.parseFloat (trim latS) = Num la ->
  JsNumber.parseFloat (trim lngS) = Num lo ->
  18 <= la <= 72 -> -180 <= lo <= -65 ->
  let p := fst (process ds record index now w) in
  let w' := snd (process ds record index now w) in
  location (incident p) = {| c_lat := Num la; c_lng := Num lo |} /\
  hasRealCoords p = true /\ hasStreetCoords p = false /\
  w' = w /\ narratives w' = narratives w /\ requests w' = requests w.
Proof.
  intros Hla Hlo Ula Ulo Pla Plo Bla Blo p w'.
  pose proof (parseNHTSACoordinates_present _ _ _ _ _ Hla Hlo Ula Ulo Pla Plo Bla Blo)
    as Hreal.
  destruct (process_fields tza Date_parse patterns service random ds record index now w)
    as (_ & _ & _ & _ & _ & Hloc & Hr & Hs & Hw).
  rewrite (resolve_real _ _ _ _ _ Hreal) in Hloc, Hr, Hs, Hw. simpl in *.
  subst p w'. rewrite Hloc, Hr, Hs, Hw. repeat split; reflexivity.
Qed.

Lemma geocodeStreetAddress_rejects address city state w f fs cityCoords :
  streetGeocodeCache w !! street_key address city state = None ->
  service (List.length (requests w)) (street_request address city state) = Json (f :: fs) ->
  geocodeCache w !! city_key city state = Some (Some cityCoords) ->
  (1 # 4) < (center_lat f - lat cityCoords) * (center_lat f - lat cityCoords)
            + (center_lng f - lng cityCoords) * (center_lng f - lng cityCoords) ->
  geocodeStreetAddress service address city state w =
  (None, set_street (snd (fetch service w (street_request address city state)))
           (street_key address city state) None).
Proof.
  intros Hmiss Hsvc Hcity Hfar. unfold geocodeStreetAddress.
  rewrite Hmiss. unfold fetch. fold (street_request address city state).
  rewrite Hsvc. simpl. rewrite Hcity. unfold further_than_half_degree.
  apply Qle_bool_false in Hfar. now rewrite Hfar.
Qed.


Lemma getCoordinates_cache city state w :
  geocodeCache (snd (getCoordinates random city state w)) = geocodeCache w.
Proof.
  unfold getCoordinates.
  destruct (geocodeCache w !! city_key city state) as [[g|]|];
    [reflexivity|destruct (state_or_CA state); reflexivity..].
Qed.

Lemma geocodeStreetAddress_cache address city state w :
  geocodeCache (snd (geocodeStreetAddress service address city state w)) = geocodeCache w.
Proof.
  unfold geocodeStreetAddress.
  destruct (streetGeocodeCache w !! street_key address city state); [reflexivity|].
  unfold fetch. destruct (service _ _) as [| |[|f fs]]; try reflexivity.
  simpl. destruct (match geocodeCache w !! city_key city state with
                   | Some (Some c) => _ | _ => false end); reflexivity.
Qed.

Lemma geocodeStreetAddress_sane address city state w g :
  service_sane service -> cache_sane (streetGeocodeCache w) ->
  fst (geocodeStreetAddress service address city state w) = Some g -> sane g.
Proof.
  intros Hsvc Hcache. unfold geocodeStreetAddress.
  destruct (streetGeocodeCache w !! street_key address city state) as [v|] eqn:E.
  - simpl. intros ->. eapply Hcache, E.
  - unfold fetch. destruct (service _ _) as [| |[|f fs]] eqn:Es; simpl; try discriminate.
    destruct (match geocodeCache w !! city_key city state with
              | Some (Some c) => _ | _ => false end); simpl; [discriminate|].
    intros [= <-]. eapply Hsvc, Es.
Qed.

(** The state tier: a state that is in the table or has no inherited
    name gives a table entry, California's for an unknown code, moved by
    at most 0.05 degrees. *)
Lemma getCoordinates_state city state w :
  unit_interval random ->
  state_property state <> Inherited ->
  (forall g, geocodeCache w !! city_key city state <> Some (Some g)) ->
  exists e a b,
    state_or_CA state = Some e /\
    fst (getCoordinates random city state w) = {| c_lat := Num a; c_lng := Num b |} /\
    s_lat e - 0.05 <= a <= s_lat e + 0.05 /\ s_lng e - 0.05 <= b <= s_lng e + 0.05 /\
    valid (fst (getCoordinates random city state w)) = true.
Proof.
  intros Hr Hst Hc. unfold getCoordinates, jitter.
  assert (Hs : exists e, state_or_CA state = Some e).
  { unfold state_or_CA. destruct (state_property state); [eauto|contradiction|eauto]. }
  destruct Hs as [e He]. rewrite He.
  pose proof (roomy_bounds e (state_or_CA_roomy _ _ He)) as [[L1 L2] [G1 G2]].
  pose proof (Hr (draws w)) as [R1 R2]. pose proof (Hr (S (draws w))) as [R3 R4].
  destruct (geocodeCache w !! city_key city state) as [[g|]|];
    [exfalso; exact (Hc g eq_refl)| |];
    (exists e, (s_lat e + (random (draws w) - 0.5) * 0.1),
       (s_lng e + (random (S (draws w)) - 0.5) * 0.1);
     split; [reflexivity|]; split; [reflexivity|];
     split; [lra|]; split; [lra|]; apply valid_intro; lra).
Qed.

Lemma getCoordinates_valid city state w :
  unit_interval random -> state_property state <> Inherited ->
  cache_sane (geocodeCache w) ->
  valid (fst (getCoordinates random city state w)) = true.
Proof.
  intros Hr Hst Hc.
  destruct (geocodeCache w !! city_key city state) as [[g|]|] eqn:E.
  - unfold getCoordinates, jitter. rewrite E. simpl.
    destruct (Hc _ _ E) as [[L1 L2] [G1 G2]].
    pose proof (Hr (draws w)) as [R1 R2]. pose proof (Hr (S (draws w))) as [R3 R4].
    apply valid_intro; lra.
  - destruct (getCoordinates_state city state w Hr Hst) as (_ & _ & _ & _ & _ & _ & _ & V);
      [intros g; rewrite E; discriminate|exact V].
  - destruct (getCoordinates_state city state w Hr Hst) as (_ & _ & _ & _ & _ & _ & _ & V);
      [intros g; rewrite E; discriminate|exact V].
Qed.

(** The coordinates [resolve] settles on, tier by tier. *)
Lemma resolve_tiers record city state w :
  let r := fst (resolve' record city state w) in
  match realCoords r, streetCoords r with
  | Some c, _ => parseNHTSACoordinates record = Some c /\ resolved r = c
  | None, Some g =>
      (exists a w1, narratives w1 = field_or record "Narrative" "" :: narratives w /\
                    geocodeCache w1 = geocodeCache w /\
                    streetGeocodeCache w1 = streetGeocodeCache w /\
                    fst (geocodeStreetAddress service a city state w1) = Some g) /\
      resolved r = {| c_lat := Num (lat g); c_lng := Num (lng g) |}
  | None, None =>
      exists w1, geocodeCache w1 = geocodeCache w /\
                 resolved r = fst (getCoordinates random city state w1)
  end.
Proof.
  unfold resolve. destruct (parseNHTSACoordinates record) as [c|] eqn:Hreal.
  - simpl. split; reflexivity.
  - unfold extract.
    destruct (Narrative.extractLocationFromNarrative patterns _) as [a|].
    + destruct (truthy a).
      * match goal with
        | |- context [geocodeStreetAddress service a city state ?w1] =>
            pose proof (geocodeStreetAddress_cache a city state w1) as Hc;
            destruct (geocodeStreetAddress service a city state w1) as [[g|] w2] eqn:Hg
        end.
        -- simpl. split; [|reflexivity]. eexists a, _. rewrite Hg.
           repeat split; reflexivity.
        -- simpl in *. destruct (getCoordinates random city state w2) as [c w3] eqn:Hgc.
           simpl. exists w2. split; [exact Hc|]. now rewrite Hgc.
      * match goal with
        | |- context [getCoordinates random city state ?w1] =>
            destruct (getCoordinates random city state w1) as [c w3] eqn:Hgc;
            simpl; exists w1; split; [reflexivity|now rewrite Hgc]
        end.
    + match goal with
      | |- context [getCoordinates random city state ?w1] =>
          destruct (getCoordinates random city state w1) as [c w3] eqn:Hgc;
          simpl; exists w1; split; [reflexivity|now rewrite Hgc]
      end.
Qed.

(** C2. For a record whose state is not the name of a property
    inherited from [Object.prototype], with [Math.random] in the unit
    interval: real GPS coordinates lie in [18, 72] and [-180, -65]; the
    state tier gives a table entry moved by at most 0.05 degrees, which
    is a valid point; and every tier gives a valid point when the
    coordinates the service returns, and those already cached, have a
    latitude within 89.98 and a longitude within 179.98 degrees. *)
Theorem location_valid ds record index now w :
  unit_interval random ->
  state_property (state_of record) <> Inherited ->
  let p := fst (process ds record index now w) in
  (hasRealCoords p = true ->
     exists a b, location (incident p) = {| c_lat := Num a; c_lng := Num b |} /\
                 18 <= a <= 72 /\ -180 <= b <= -65 /\
                 valid (location (incident p)) = true) /\
  (hasRealCoords p = false -> hasStreetCoords p = false ->
     (forall g, geocodeCache w !! city_key (city_of record) (state_of record)
                <> Some (Some g)) ->
     exists e a b,
       state_or_CA (state_of record) = Some e /\
       location (incident p) = {| c_lat := Num a; c_lng := Num b |} /\
       s_lat e - 0.05 <= a <= s_lat e + 0.05 /\
       s_lng e - 0.05 <= b <= s_lng e + 0.05 /\
       valid (location (incident p)) = true) /\
  (service_sane service -> cache_sane (geocodeCache w) ->
     cache_sane (streetGeocodeCache w) ->
     valid (location (incident p)) = true).
Proof.
  intros Hr Hst p.
  destruct (process_fields tza Date_parse patterns service random ds record index now w)
    as (_ & _ & _ & _ & _ & Hloc & Hreal & Hstreet & _).
  fold p in Hloc, Hreal, Hstreet. rewrite Hloc, Hreal, Hstreet.
  pose proof (resolve_tiers record (city_of record) (state_of record) w) as T.
  simpl in T.
  destruct (realCoords (fst (resolve' record (city_of record) (state_of record) w)))
    as [c|].
  - destruct T as [Hc ->].
    destruct (parseNHTSACoordinates_range _ _ Hc) as (a & b & -> & Ha & Hb).
    assert (V : valid {| c_lat := Num a; c_lng := Num b |} = true)
      by (apply valid_intro; lra).
    split; [|split]; intros; try discriminate; try exact V.
    exists a, b. repeat split; tauto.
  - destruct (streetCoords (fst (resolve' record (city_of record) (state_of record) w)))
      as [g|].
    + destruct T as [(a & w1 & _ & _ & Hs & Hg) ->].
      split; [|split]; intros; try discriminate.
      assert (Sg : sane g).
      { eapply geocodeStreetAddress_sane; [eassumption| |exact Hg].
        rewrite Hs. assumption. }
      destruct Sg as [[L1 L2] [G1 G2]]. apply valid_intro; lra.
    + destruct T as (w1 & Hc & ->).
      split; [|split]; intros; try discriminate.
      * apply getCoordinates_state; try assumption. rewrite Hc. assumption.
      * apply getCoordinates_valid; try assumption. rewrite Hc. assumption.
Qed.

(** The state code is total apart from the inherited names: a record
    without a [State] gets state [CA] and the city of California's entry,
    and a state code that is neither in the table nor an inherited name
    falls back to the California entry, with the city [Unknown]. *)
Lemma state_fallback_total :
  (forall r : RawRecord, field r "State" = None ->
     state_of r = "CA"%string /\
     (field r "City" = None -> city_of r = "San Francisco"%string)) /\
  (forall state, own_property STATE_COORDS state = None ->
     existsb (String.eqb state) Object_prototype_names = false ->
     state_or_CA state = Some CA /\ state_city state = None).
Proof.
  split.
  - intros r Hs.
    assert (E : state_of r = "CA"%string).
    { unfold state_of, field_or. unfold field in Hs.
      destruct (r !! "State") as [v|]; [|reflexivity].
      destruct (truthy v); [discriminate|reflexivity]. }
    split; [exact E|]. intros Hc. unfold city_of. rewrite Hc, E. reflexivity.
  - intros state Ho Hi. unfold state_or_CA, state_city, state_property.
    now rewrite Ho, Hi.
Qed.

(** C10. The state [constructor] is not in the table, but every object
    literal inherits a property of that name, so [STATE_COORDS[state]]
    finds it and the fallback to California is not taken: what is found
    has no coordinates and no city, the location of the record is
    [NaN NaN] and its city [Unknown]. *)
Theorem state_fallback_inherited_name now :
  let record : RawRecord := {[ "State" := "constructor" ]} in
  let p := fst (process ADS record 0 now fresh) in
  own_property STATE_COORDS "constructor" = None /\
  state_or_CA "constructor" = None /\
  location (incident p) = {| c_lat := NaN; c_lng := NaN |} /\
  valid (location (incident p)) = false /\
  city (incident p) = "Unknown"%string.
Proof. intros record p. repeat split; reflexivity. Qed.

End GeoProps.

Lemma real_coordinates_take_precedence_witness :
  let record : RawRecord :=
    {[ "Latitude" := "37.7749"; "Longitude" := " -122.4194"; "State" := "CA" ]} in
  let out := Normalizer.processADSRecord 0 (fun _ => None) [] (fun _ _ => Thrown)
               (fun _ => 0.5%Q) record 0 0%Z fresh in
  location (incident (fst out)) = {| c_lat := Num 37.7749; c_lng := Num (-122.4194) |} /\
  hasRealCoords (fst out) = true /\ hasStreetCoords (fst out) = false /\
  snd out = fresh /\ narratives (snd out) = [] /\ requests (snd out) = [].
Proof.
  intros record out.
  apply (real_coordinates_take_precedence 0 (fun _ => None) [] (fun _ _ => Thrown)
           (fun _ => 0.5%Q) Normalizer.ADS record 0 0%Z fresh
           "37.7749" " -122.4194" 37.7749%Q (-122.4194)%Q);
    try reflexivity; unfold Qle; simpl; lia.
Defined.


Lemma location_valid_witness :
  let record : RawRecord := {[ "City" := "Austin"; "State" := "TX" ]} in
  let p := fst (Normalizer.processADSRecord 0 (fun _ => None) [] sane_service
                  (fun _ => 0.5%Q) record 0 0%Z fresh) in
  Geo.valid (location (incident p)) = true.
Proof.
  intros record p.
  assert (Hr : Geo.unit_interval (fun _ => 0.5%Q)).
  { intros n. split; [unfold Qle|unfold Qlt]; simpl; lia. }
  assert (Hst : Geo.state_property (Normalizer.state_of record) <> Geo.Inherited).
  { vm_compute. discriminate. }
  assert (Hs : Geo.service_sane sane_service).
  { intros n req f fs [= <- _]. unfold Geo.sane, Geo.located. simpl.
    repeat split; unfold Qle; simpl; lia. }
  assert (Hc : Geo.cache_sane (∅ : gmap string (option GeocodedLocation))).
  { intros k g Hk. rewrite lookup_empty in Hk. discriminate. }
  exact (proj2 (proj2 (location_valid 0 (fun _ => None) [] sane_service (fun _ => 0.5%Q)
                         Normalizer.ADS record 0 0%Z fresh Hr Hst)) Hs Hc Hc).
Defined.

(** C2 as stated (whatever the service returns) fails when the service returns a point
    outside the valid range: the centre it gives for a city is cached and
    used as it is. *)
Lemma location_from_service_unchecked :
  let record : RawRecord := {[ "City" := "Paris"; "State" := "TX" ]} in
  let w := Normalizer.preGeocodeAllCities wild_service [record] fresh in
  let p := fst (Normalizer.processADSRecord 0 (fun _ => None) [] wild_service
                  (fun _ => 0.5%Q) record 0 0%Z w) in
  c_lat (location (incident p)) = Num (95 + (0.5 - 0.5) * 0.04)%Q /\
  Geo.valid (location (incident p)) = false.
Proof. intros record w p. split; vm_compute; reflexivity. Qed.

(** ** Batches *)

Section BatchProps.
Import Geo Normalizer.

Variable tza : Z.
Variable Date_parse : string -> option Z.
Variable patterns : list (string -> option string).
Variable service : nat -> request -> response.
Variable random : nat -> Q.

Abbreviation process := (processRecord tza Date_parse patterns service random).
Abbreviation batch := (processBatch tza Date_parse patterns service random).
Abbreviation all := (processAll tza Date_parse patterns service random).

Lemma processBatch_facts ds records : forall index now w,
  map (fun p => raw_data (incident p)) (fst (batch ds records index now w)) = records /\
  map (fun p => external_id (incident p)) (fst (batch ds records index now w))
    = planned_ids ds records index /\
  List.length (fst (batch ds records index now w)) = List.length records.
Proof.
  induction records as [|r rs IH]; intros index now w; simpl; [auto|].
  destruct (process_fields tza Date_parse patterns service random ds r index now w)
    as (_ & _ & Hid & Hraw & _).
  destruct (process ds r index now w) as [p w1]. simpl in Hid, Hraw.
  destruct (IH (S index) now w1) as (I1 & I2 & I3).
  destruct (batch ds rs (S index) now w1) as [ps w2]. simpl in *.
  rewrite Hid, Hraw, I1, I2, I3. auto.
Qed.

Lemma processBatch_app ds a : forall b index now w,
  batch ds (a ++ b) index now w =
  let '(pa, w1) := batch ds a index now w in
  let '(pb, w2) := batch ds b (index + List.length a) now w1 in
  (pa ++ pb, w2).
Proof.
  induction a as [|r a IH]; intros b index now w; simpl.
  - rewrite Nat.add_0_r. destruct (batch ds b index now w). reflexivity.
  - destruct (process ds r index now w) as [p w1]. rewrite IH.
    destruct (batch ds a (S index) now w1) as [pa w2].
    replace (index + S (List.length a)) with (S index + List.length a) by lia.
    destruct (batch ds b (S index + List.length a) now w2). reflexivity.
Qed.

(** The loop over slices processes the records from [i] on, each once
    and in order, under its position as index. *)
Lemma processAll_flat ds size records now : 0 < size -> forall fuel i processed w,
  List.length records - i <= fuel ->
  all fuel ds size records i now processed w =
  let '(rs, w') := batch ds (drop i records) i now w in (processed ++ rs, w').
Proof.
  intros Hsize. induction fuel as [|fuel IH]; intros i processed w Hfuel.
  - simpl. rewrite drop_ge by lia. simpl. now rewrite app_nil_r.
  - simpl. destruct (Nat.ltb_spec i (List.length records)) as [Hi|Hi].
    + rewrite <- (take_drop size (drop i records)) at 2.
      rewrite processBatch_app.
      destruct (batch ds (take size (drop i records)) i now w) as [pa w1].
      rewrite IH by lia. rewrite drop_drop.
      destruct (Nat.le_gt_cases (i + size) (List.length records)) as [Hle|Hgt].
      * rewrite length_take, length_drop.
        replace (i + size `min` (List.length records - i)) with (i + size) by lia.
        destruct (batch ds (drop (i + size) records) (i + size) now w1).
        now rewrite app_assoc.
      * rewrite (drop_ge records (i + size)) by lia. simpl. now rewrite app_assoc.
    + rewrite drop_ge by lia. simpl. now rewrite app_nil_r.
Qed.

Lemma processAll_whole ds records now w :
  all (List.length records) ds 20 records 0 now [] w = batch ds records 0 now w.
Proof.
  rewrite processAll_flat by lia. rewrite drop_0.
  destruct (batch ds records 0 now w). reflexivity.
Qed.

End BatchProps.

(** ** The writer *)

Module WriterFacts.
Import Writer.

Lemma upsert_key_stable keys k : k ∈ keys -> upsert_key keys k = keys.
Proof. intros H. unfold upsert_key. now rewrite bool_decide_eq_true_2. Qed.

Lemma upsert_key_incl keys k : keys ⊆ upsert_key keys k /\ k ∈ upsert_key keys k.
Proof.
  unfold upsert_key. case_bool_decide; [split; [reflexivity|assumption]|].
  split; [intros x Hx|]; apply elem_of_app; [now left|right; now left].
Qed.

Lemma upsert_key_NoDup keys k : NoDup keys -> NoDup (upsert_key keys k).
Proof.
  intros H. unfold upsert_key. case_bool_decide; [assumption|].
  apply NoDup_app. split; [assumption|]. split.
  - intros x Hx Hk. apply list_elem_of_singleton in Hk as ->. contradiction.
  - apply NoDup_singleton.
Qed.

Lemma fold_upsert_key_incl batch : forall keys,
  keys ⊆ fold_left upsert_key batch keys /\
  (forall k, k ∈ batch -> k ∈ fold_left upsert_key batch keys).
Proof.
  induction batch as [|b batch IH]; intros keys; simpl.
  - split; [reflexivity|]. intros k Hk. inversion Hk.
  - destruct (IH (upsert_key keys b)) as [I1 I2].
    destruct (upsert_key_incl keys b) as [U1 U2]. split.
    + etransitivity; eassumption.
    + intros k Hk. apply elem_of_cons in Hk as [->|Hk]; [apply I1, U2|apply I2, Hk].
Qed.

Lemma fold_upsert_key_stable batch : forall keys,
  (forall k, k ∈ batch -> k ∈ keys) -> fold_left upsert_key batch keys = keys.
Proof.
  induction batch as [|b batch IH]; intros keys H; simpl; [reflexivity|].
  rewrite upsert_key_stable by (apply H; now left).
  apply IH. intros k Hk. apply H. now right.
Qed.

Lemma fold_upsert_key_NoDup batch : forall keys,
  NoDup keys -> NoDup (fold_left upsert_key batch keys).
Proof.
  induction batch as [|b batch IH]; intros keys H; simpl; [assumption|].
  apply IH, upsert_key_NoDup, H.
Qed.

Lemma fold_upsert_key_app a b keys :
  fold_left upsert_key (a ++ b) keys = fold_left upsert_key b (fold_left upsert_key a keys).
Proof. apply fold_left_app. Qed.

(** An upsert leaves the keys as they are when the key is there, and
    adds the key at the end when it is not. *)
Lemma ids_upsert_row s x : ids (upsert_row s x) = upsert_key (ids s) (external_id x).
Proof.
  induction s as [|row rest IH]; simpl.
  - unfold upsert_key. rewrite bool_decide_eq_false_2; [reflexivity|].
    intros H. inversion H.
  - destruct (String.eqb_spec (external_id row) (external_id x)) as [E|E].
    + simpl. rewrite upsert_key_stable by (rewrite E; left). now rewrite E.
    + simpl. rewrite IH. unfold upsert_key, ids.
      destruct (bool_decide (external_id x ∈ map external_id rest)) eqn:D.
      * apply bool_decide_eq_true in D. rewrite bool_decide_eq_true_2; [reflexivity|].
        now right.
      * apply bool_decide_eq_false in D. rewrite bool_decide_eq_false_2; [reflexivity|].
        intros H. apply elem_of_cons in H as [H|H]; [congruence|contradiction].
Qed.

Lemma ids_fold_upsert_row batch : forall s,
  ids (fold_left upsert_row batch s)
  = fold_left upsert_key (map external_id batch) (ids s).
Proof.
  induction batch as [|b batch IH]; intros s; simpl; [reflexivity|].
  now rewrite IH, ids_upsert_row.
Qed.

Section Refusal.
Variable refuses : list string -> bool.

Lemma ids_writeAll size incidents : forall fuel i s c,
  ids (fst (writeAll refuses fuel size incidents i s c))
  = writeKeys refuses fuel size (map external_id incidents) i (ids s).
Proof.
  induction fuel as [|fuel IH]; intros i s c; simpl; [reflexivity|].
  rewrite length_map.
  destruct (i <? List.length incidents)%nat; [|reflexivity].
  unfold upsert. rewrite skipn_map, firstn_map.
  destruct (refuses _); rewrite IH; [reflexivity|].
  simpl fst. now rewrite ids_fold_upsert_row.
Qed.

Lemma writeKeys_accepted size incoming : forall fuel i keys,
  writeKeys refuses fuel size incoming i keys
  = fold_left upsert_key (accepted refuses fuel size incoming i) keys.
Proof.
  induction fuel as [|fuel IH]; intros i keys; simpl; [reflexivity|].
  destruct (i <? List.length incoming)%nat; [|reflexivity].
  rewrite fold_upsert_key_app, IH. destruct (refuses _); reflexivity.
Qed.

(** Without a refusal every key is accepted. *)
Lemma accepted_all size incoming :
  0 < size -> (forall b, refuses b = false) -> forall fuel i,
  List.length incoming - i <= fuel ->
  accepted refuses fuel size incoming i = drop i incoming.
Proof.
  intros Hsize Hnone. induction fuel as [|fuel IH]; intros i Hfuel; simpl.
  - rewrite drop_ge by lia. reflexivity.
  - destruct (Nat.ltb_spec i (List.length incoming)) as [Hi|Hi].
    + rewrite Hnone, IH by lia. rewrite <- drop_drop. apply take_drop.
    + rewrite drop_ge by lia. reflexivity.
Qed.
End Refusal.

End WriterFacts.

(** ** The ingestion run *)

Section SeedProps.
Import Geo Normalizer Writer Seed WriterFacts.

Variable tza : Z.
Variable Date_parse : string -> option Z.
Variable patterns : list (string -> option string).
Variable refuses : list string -> bool.

Abbreviation seed := (seedNHTSAData tza Date_parse patterns).
Abbreviation batch := (processBatch tza Date_parse patterns).

Lemma planned_ids_length ds records : forall i,
  List.length (planned_ids ds records i) = List.length records.
Proof. induction records as [|r rs IH]; intros i; simpl; [reflexivity|now rewrite IH]. Qed.

Lemma seed_outcome service random ads adas now s :
  let o := seed service random refuses ads adas now s in
  let w0 := preGeocodeAllCities service (ads ++ take 500 adas) fresh in
  adsProcessed o = fst (batch service random ADS ads 0 now w0) /\
  adasProcessed o =
    fst (batch service random ADAS (take 500 adas) 0 now
           (snd (batch service random ADS ads 0 now w0))) /\
  ids (persisted o) = keys_after refuses ads adas (ids s).
Proof.
  unfold seedNHTSAData. rewrite processAll_whole.
  set (w0 := preGeocodeAllCities service (ads ++ take 500 adas) fresh).
  pose proof (processBatch_facts tza Date_parse patterns service random ADS ads 0 now w0)
    as (_ & Ha & La).
  destruct (batch service random ADS ads 0 now w0) as [pa w1]. simpl in Ha, La.
  cbn [fst snd].
  pose proof (ids_writeAll refuses 50 (map incident pa) (List.length (map incident pa)) 0 s
                {| totalInserted := 0; totalSkipped := 0; totalErrors := 0 |}) as I1.
  destruct (writeAll refuses (List.length (map incident pa)) 50 (map incident pa) 0 s _)
    as [s1 c1]. simpl in I1.
  rewrite processAll_whole.
  pose proof (processBatch_facts tza Date_parse patterns service random ADAS
                (take 500 adas) 0 now w1) as (_ & Hb & Lb).
  destruct (batch service random ADAS (take 500 adas) 0 now w1) as [pb w2].
  simpl in Hb, Lb.
  pose proof (ids_writeAll refuses 50 (map incident pb) (List.length (map incident pb)) 0
                s1 c1) as I2.
  destruct (writeAll refuses (List.length (map incident pb)) 50 (map incident pb) 0 s1 c1)
    as [s2 c2]. simpl in I2. simpl.
  split; [reflexivity|]. split; [reflexivity|].
  rewrite I2, I1, !map_map, Ha, Hb, !length_map, La, Lb.
  unfold keys_after. now rewrite !writeKeys_accepted.
Qed.

Lemma keys_after_facts ads adas keys :
  keys ⊆ keys_after refuses ads adas keys /\
  (forall k, k ∈ accepted refuses (List.length ads) 50 (planned_ids ADS ads 0) 0 ->
             k ∈ keys_after refuses ads adas keys) /\
  (forall k, k ∈ accepted refuses (List.length (take 500 adas)) 50
                   (planned_ids ADAS (take 500 adas) 0) 0 ->
             k ∈ keys_after refuses ads adas keys) /\
  (NoDup keys -> NoDup (keys_after refuses ads adas keys)).
Proof.
  unfold keys_after.
  set (A1 := accepted refuses (List.length ads) 50 (planned_ids ADS ads 0) 0).
  set (A2 := accepted refuses (List.length (take 500 adas)) 50
               (planned_ids ADAS (take 500 adas) 0) 0).
  destruct (fold_upsert_key_incl A1 keys) as [I1 J1].
  destruct (fold_upsert_key_incl A2 (fold_left upsert_key A1 keys)) as [I2 J2].
  repeat split.
  - etransitivity; eassumption.
  - intros k Hk. apply I2, J1, Hk.
  - exact J2.
  - intros H. apply fold_upsert_key_NoDup, fold_upsert_key_NoDup, H.
Qed.

Lemma keys_after_idempotent ads adas keys :
  keys_after refuses ads adas (keys_after refuses ads adas keys) = keys_after refuses ads adas keys.
Proof.
  destruct (keys_after_facts ads adas keys) as (_ & H1 & H2 & _).
  unfold keys_after at 1.
  rewrite (fold_upsert_key_stable _ (keys_after refuses ads adas keys)) by exact H1.
  apply fold_upsert_key_stable. exact H2.
Qed.


(** C9. A run hands to the normalizer exactly the first 500 records of
    the ADAS file, and all the records of the ADS file, each once and in
    order; what lies beyond position 500 of the ADAS file has no effect
    on the outcome of the run; and when no batch is refused, the
    identifier of every processed record is in the store. *)
Theorem adas_limited_to_500 service random ads adas now s :
  let o := seed service random refuses ads adas now s in
  map (fun p => raw_data (incident p)) (adasProcessed o) = take 500 adas /\
  List.length (adasProcessed o) = Nat.min 500 (List.length adas) /\
  List.length (adasProcessed o) <= 500 /\
  map (fun p => raw_data (incident p)) (adsProcessed o) = ads /\
  o = seed service random refuses ads (take 500 adas) now s /\
  ((forall b, refuses b = false) ->
   forall p, p ∈ adsProcessed o ++ adasProcessed o ->
             external_id (incident p) ∈ ids (persisted o)).
Proof.
  intros o. destruct (seed_outcome service random ads adas now s) as (A & B & K).
  fold o in A, B, K.
  pose proof (processBatch_facts tza Date_parse patterns service random ADS ads 0 now
                (preGeocodeAllCities service (ads ++ take 500 adas) fresh))
    as (Ra & Ia & La).
  pose proof (processBatch_facts tza Date_parse patterns service random ADAS
                (take 500 adas) 0 now
                (snd (batch service random ADS ads 0 now
                        (preGeocodeAllCities service (ads ++ take 500 adas) fresh))))
    as (Rb & Ib & Lb).
  rewrite <- A in Ra, Ia, La. rewrite <- B in Rb, Ib, Lb.
  split; [exact Rb|]. split; [rewrite Lb, length_take; lia|].
  split; [rewrite Lb, length_take; lia|]. split; [exact Ra|].
  split; [subst o; unfold seedNHTSAData; now rewrite take_take, Nat.min_id|].
  intros Hnone p Hp. rewrite K.
  destruct (keys_after_facts ads adas (ids s)) as (_ & H1 & H2 & _).
  apply elem_of_app in Hp as [Hp|Hp].
  - apply H1. rewrite accepted_all; [|lia|exact Hnone|rewrite planned_ids_length; lia].
    rewrite drop_0, <- Ia. apply list_elem_of_fmap_2' with (x := p); [exact Hp|reflexivity].
  - apply H2. rewrite accepted_all; [|lia|exact Hnone|rewrite planned_ids_length; lia].
    rewrite drop_0, <- Ib. apply list_elem_of_fmap_2' with (x := p); [exact Hp|reflexivity].
Qed.

End SeedProps.


Lemma adas_limited_to_500_witness :
  let o := Seed.seedNHTSAData 0 (fun _ => None) [] sane_service (fun _ => 0.5%Q)
             never_refuses sample_ads sample_adas 0%Z [] in
  (forall b, never_refuses b = false) /\
  List.length (Seed.adasProcessed o) <= 500 /\
  forall p, p ∈ Seed.adsProcessed o ++ Seed.adasProcessed o ->
            external_id (incident p) ∈ Writer.ids (Seed.persisted o).
Proof.
  intros o.
  assert (Hnone : forall b, never_refuses b = false) by reflexivity.
  split; [exact Hnone|].
  destruct (adas_limited_to_500 0 (fun _ => None) [] never_refuses
              sane_service (fun _ => 0.5%Q) sample_ads sample_adas 0%Z [])
    as (_ & _ & Hle & _ & _ & Hin).
  split; [exact Hle|exact (Hin Hnone)].
Defined.

(** * Further properties *)

(** ** Trimming *)

Lemma trimEnd_idempotent s : trimEnd (trimEnd s) = trimEnd s.
Proof.
  induction s as [|c r IH]; [reflexivity|]. simpl.
  destruct (trimEnd r) as [|c' r'] eqn:E.
  - destruct (is_ws c) eqn:W; [reflexivity|]. simpl. now rewrite W.
  - simpl. simpl in IH. rewrite IH. reflexivity.
Qed.

Lemma trimStart_head s :
  match trimStart s with String c _ => is_ws c = false | EmptyString => True end.
Proof.
  induction s as [|c r IH]; simpl; [exact I|].
  destruct (is_ws c) eqn:W; [exact IH|exact W].
Qed.

Lemma trimEnd_head s :
  match s with String c _ => is_ws c = false | EmptyString => True end ->
  trimStart (trimEnd s) = trimEnd s.
Proof.
  destruct s as [|c r]; [reflexivity|]. intros W. simpl.
  destruct (trimEnd r); [rewrite W|]; simpl; now rewrite W.
Qed.

Lemma trim_idempotent s : trim (trim s) = trim s.
Proof.
  unfold trim. rewrite (trimEnd_head (trimStart s)) by apply trimStart_head.
  apply trimEnd_idempotent.
Qed.

Lemma remove_char_absent x s : count_char x s = 0 -> remove_char x s = s.
Proof.
  induction s as [|c r IH]; simpl; [reflexivity|].
  destruct (Ascii.eqb c x); [discriminate|]. intros H. now rewrite IH.
Qed.

(** ** The records of [parseCSV] *)

Module CsvRecords.
Import Csv.

Lemma clean_trim cur : count_char quote cur = 0 -> clean (trim cur).
Proof.
  intros H. split; [|apply trim_idempotent].
  pose proof (count_char_trim quote cur). lia.
Qed.

Lemma scan_clean line : forall st,
  Forall clean (result st) -> count_char quote (current st) = 0 ->
  Forall clean (result (scan st line)) /\ count_char quote (current (scan st line)) = 0.
Proof.
  induction line as [|c line IH]; intros st Hr Hc; simpl; [auto|].
  apply IH; unfold scan_char; destruct (Ascii.eqb c quote) eqn:E; simpl; try assumption;
    destruct (Ascii.eqb c comma && negb (inQuotes st)); simpl; try assumption;
    try reflexivity.
  - apply Forall_app. split; [assumption|]. constructor; [|constructor].
    now apply clean_trim.
  - rewrite count_char_app. simpl. rewrite E. lia.
Qed.

Lemma parseCSVLine_clean line : Forall clean (parseCSVLine line).
Proof.
  unfold parseCSVLine.
  destruct (scan_clean line (Scanner [] "" false)) as [Hr Hc];
    [constructor|reflexivity|].
  apply Forall_app. split; [assumption|]. constructor; [|constructor].
  now apply clean_trim.
Qed.

Lemma cell_clean values idx : Forall clean values -> clean (cell values idx).
Proof.
  intros H. unfold cell. destruct (values !! idx) as [v|] eqn:E.
  - rewrite Forall_forall in H. destruct (H v) as [Hq Ht].
    { eapply list_elem_of_lookup_2, E. }
    rewrite remove_char_absent by assumption. split; assumption.
  - split; reflexivity.
Qed.

Lemma fill_lookup values (headers : list string) : forall idx (record : RawRecord) k v,
  fill values idx headers record !! k = Some v ->
  record !! k = Some v \/ exists i, v = cell values i.
Proof.
  induction headers as [|h hs IH]; intros idx record k v H; simpl in H; [now left|].
  apply IH in H as [H|H]; [|now right].
  destruct (decide (h = k)) as [->|Hne].
  - rewrite lookup_insert_eq in H. injection H as <-. right. eauto.
  - rewrite lookup_insert_ne in H by assumption. now left.
Qed.

Lemma fill_dom values (headers : list string) : forall idx (record : RawRecord),
  dom (fill values idx headers record) = list_to_set headers ∪ dom record.
Proof.
  induction headers as [|h hs IH]; intros idx record; simpl.
  - now rewrite (left_id_L ∅ (∪)).
  - rewrite IH, dom_insert_L, (assoc_L (∪)).
    now rewrite (comm_L (∪) (list_to_set hs) {[h]}).
Qed.

Lemma rows_elem headers (lines : list string) record :
  record ∈ rows headers lines ->
  exists l, l ∈ lines /\ record = make_record headers (parseCSVLine (trim l)).
Proof.
  induction lines as [|l ls IH]; simpl; intros H; [inversion H|].
  destruct (truthy (trim l)).
  - apply elem_of_cons in H as [->|H].
    + exists l. split; [left|reflexivity].
    + destruct (IH H) as (l' & Hl & E). exists l'. split; [now right|exact E].
  - destruct (IH H) as (l' & Hl & E). exists l'. split; [now right|exact E].
Qed.

Lemma rows_length headers (lines : list string) :
  List.length (rows headers lines)
  = List.length (filter (fun l => truthy (trim l) = true) lines).
Proof.
  induction lines as [|l ls IH]; simpl; [reflexivity|].
  rewrite filter_cons. destruct (truthy (trim l)) eqn:E.
  - rewrite decide_True by reflexivity. simpl. now rewrite IH.
  - rewrite decide_False by discriminate. exact IH.
Qed.

Lemma parseCSV_rows csvText :
  parseCSV csvText =
  rows (map (fun h => trim (remove_char quote h))
            (parseCSVLine (hd "" (split newline csvText))))
       (tail (split newline csvText)).
Proof.
  unfold parseCSV. destruct (split newline csvText) as [|first [|second rest]];
    reflexivity.
Qed.

End CsvRecords.




(** X3. Every value of every record of [parseCSV] is free of quote
    characters and of white space at its ends. *)
Theorem parseCSV_values_clean csvText record k v :
  record ∈ Csv.parseCSV csvText -> record !! k = Some v ->
  count_char Csv.quote v = 0 /\ trim v = v.
Proof.
  rewrite CsvRecords.parseCSV_rows. intros H Hk.
  apply CsvRecords.rows_elem in H as (l & _ & ->).
  apply CsvRecords.fill_lookup in Hk as [Hk|[i ->]].
  - rewrite lookup_empty in Hk. discriminate.
  - apply CsvRecords.cell_clean, CsvRecords.parseCSVLine_clean.
Qed.


Lemma parseCSV_values_clean_witness :
  let record := hd ∅ (Csv.parseCSV sample_csv) in
  record ∈ Csv.parseCSV sample_csv /\ record !! "City" = Some "Austin" /\
  count_char Csv.quote "Austin" = 0 /\ trim "Austin" = "Austin".
Proof.
  intros record.
  assert (Hin : record ∈ Csv.parseCSV sample_csv).
  { apply list_elem_of_lookup_2 with 0. vm_compute. reflexivity. }
  assert (Hk : record !! "City" = Some "Austin") by (vm_compute; reflexivity).
  split; [exact Hin|]. split; [exact Hk|].
  exact (parseCSV_values_clean sample_csv record "City" "Austin" Hin Hk).
Defined.

(** ** Mapping of companies and incident types *)

Lemma map_chars_app f (a b : string) :
  map_chars f (a ++ b)%string = (map_chars f a ++ map_chars f b)%string.
Proof.
  induction a as [|c a IH]; [reflexivity|].
  rewrite append_cons. simpl. now rewrite IH, append_cons.
Qed.

Lemma startsWith_app n (b : string) : startsWith n (n ++ b)%string = true.
Proof.
  induction n as [|c n IH]; [reflexivity|].
  rewrite append_cons. simpl. now rewrite Ascii.eqb_refl, IH.
Qed.

Lemma includes_here (s n : string) : startsWith n s = true -> includes s n = true.
Proof. intros H. destruct s; simpl; rewrite H; reflexivity. Qed.

Lemma includes_app (a n b : string) : includes (a ++ n ++ b)%string n = true.
Proof.
  induction a as [|c a IH].
  - rewrite append_nil. apply includes_here, startsWith_app.
  - rewrite append_cons. simpl. rewrite IH. apply orb_true_r.
Qed.

(** X4. [mapCompany] looks for its aliases anywhere in the name and in
    any letter case, [waymo] and [alphabet] first: a name that holds one of
    these two maps to [waymo] whatever else it holds; and the result is
    [other] exactly when none of the seven aliases occurs. *)
Theorem mapCompany_aliases :
  (forall pre x post : string,
     toLowerCase x = "waymo" \/ toLowerCase x = "alphabet" ->
     Normalizer.mapCompany (pre ++ x ++ post) = "waymo") /\
  (forall manufacturer,
     Normalizer.mapCompany manufacturer = "other" <->
     forall alias, In alias ["waymo"; "alphabet"; "cruise"; "gm"; "zoox"; "amazon"; "tesla"] ->
                   includes (toLowerCase manufacturer) alias = false).
Proof.
  split.
  - intros pre x post Hx. unfold Normalizer.mapCompany, toLowerCase.
    rewrite !map_chars_app. fold (toLowerCase x).
    destruct Hx as [-> | ->]; rewrite includes_app; [reflexivity|].
    now rewrite orb_true_r.
  - intros m. unfold Normalizer.mapCompany. set (name := toLowerCase m). split.
    + intros H alias Ha.
      destruct (includes name "waymo") eqn:E1; [discriminate|].
      destruct (includes name "alphabet") eqn:E2; [discriminate|].
      destruct (includes name "cruise") eqn:E3; [discriminate|].
      destruct (includes name "gm") eqn:E4; [discriminate|].
      destruct (includes name "zoox") eqn:E5; [discriminate|].
      destruct (includes name "amazon") eqn:E6; [discriminate|].
      destruct (includes name "tesla") eqn:E7; [discriminate|].
      simpl in Ha. repeat (destruct Ha as [<-|Ha]; [assumption|]). contradiction.
    + intros H.
      rewrite (H "waymo"), (H "alphabet"), (H "cruise"), (H "gm"), (H "zoox"),
        (H "amazon"), (H "tesla") by (simpl; tauto). reflexivity.
Qed.

Lemma mapCompany_aliases_witness :
  toLowerCase "Waymo" = "waymo" /\
  Normalizer.mapCompany ("Tesla / " ++ "Waymo" ++ " LLC") = "waymo".
Proof.
  split; [reflexivity|].
  apply (proj1 mapCompany_aliases "Tesla / " "Waymo" " LLC"). left. reflexivity.
Defined.

(** ** Narrative extraction *)

(** X5. Whatever the patterns match, a location extracted from a
    narrative has from 6 to 99 characters and no white space at its ends,
    and comes from a narrative that is not empty; an empty narrative gives
    [null], as does a narrative that no pattern matches. *)
Theorem extractLocationFromNarrative_bounds (patterns : list (string -> option string)) :
  (forall narrative location,
     Narrative.extractLocationFromNarrative patterns narrative = Some location ->
     6 <= String.length location <= 99 /\ trim location = location /\
     narrative <> ""%string) /\
  Narrative.extractLocationFromNarrative patterns "" = None /\
  (forall narrative,
     Forall (fun pattern => pattern narrative = None) patterns ->
     Narrative.extractLocationFromNarrative patterns narrative = None).
Proof.
  split; [|split].
  - intros narrative location. unfold Narrative.extractLocationFromNarrative.
    destruct narrative as [|c r]; [discriminate|]. simpl negb. cbv iota.
    induction patterns as [|p ps IH]; simpl; [discriminate|].
    destruct (p (String c r)) as [m|]; [|exact IH].
    destruct (truthy m && (5 <? String.length _)%nat && (String.length _ <? 100)%nat)
      eqn:E; [|exact IH].
    intros [= <-]. apply andb_true_iff in E as [E E3]. apply andb_true_iff in E as [_ E2].
    apply Nat.ltb_lt in E2, E3. split; [lia|]. split; [apply trim_idempotent|discriminate].
  - reflexivity.
  - intros narrative H. unfold Narrative.extractLocationFromNarrative.
    destruct (negb (truthy narrative)); [reflexivity|].
    induction H as [|p ps Hp _ IH]; simpl; [reflexivity|]. now rewrite Hp.
Qed.

Lemma extractLocationFromNarrative_bounds_witness :
  let patterns := [fun _ : string => Some "on  Market Street "] in
  Narrative.extractLocationFromNarrative patterns "collision on  Market Street "
    = Some "Market Street" /\
  6 <= String.length "Market Street" <= 99 /\ trim "Market Street" = "Market Street".
Proof.
  intros patterns.
  assert (E : Narrative.extractLocationFromNarrative patterns
                "collision on  Market Street " = Some "Market Street") by reflexivity.
  split; [exact E|].
  destruct (proj1 (extractLocationFromNarrative_bounds patterns) _ _ E) as (H1 & H2 & _).
  split; [exact H1|exact H2].
Defined.

(** ** The fields of a processed record *)

Section ProcessedProps.
Import Geo Normalizer.

Variable tza : Z.
Variable Date_parse : string -> option Z.
Variable patterns : list (string -> option string).
Variable service : nat -> request -> response.
Variable random : nat -> Q.

Abbreviation process := (processRecord tza Date_parse patterns service random).

Lemma mapIncidentType_range record :
  mapIncidentType record = "collision" \/ mapIncidentType record = "near_miss".
Proof.
  unfold mapIncidentType.
  destruct (_ || _ || _); [now left|]. destruct (_ || _); [now right|now left].
Qed.

Lemma mapCompany_range manufacturer :
  In (mapCompany manufacturer) ["waymo"; "cruise"; "zoox"; "tesla"; "other"].
Proof.
  unfold mapCompany.
  destruct (_ || _); [simpl; tauto|]. destruct (_ || _); [simpl; tauto|].
  destruct (_ || _); [simpl; tauto|]. destruct (includes _ _); simpl; tauto.
Qed.

(** X6. Whatever the record holds, the incident made of it has a type
    that is [collision] or [near_miss], a company among the five the
    mapping knows, status [verified] and source [nhtsa], the record
    itself as raw data, the clock reading as [reported_at], and an
    identifier that starts with the prefix of its data set; a crash flag
    [yes], in any letter case, makes it a collision; and without a date
    column that is not empty, [occurred_at] is the clock reading too. *)
Theorem processed_incident_fields ds record index now w :
  let i := incident (fst (process ds record index now w)) in
  (incident_type i = "collision" \/ incident_type i = "near_miss") /\
  In (av_company i) ["waymo"; "cruise"; "zoox"; "tesla"; "other"] /\
  status i = "verified" /\ source i = "nhtsa" /\
  raw_data i = record /\ reported_at i = now /\
  startsWith (id_prefix ds) (external_id i) = true /\
  (forall crash, record !! "Crash" = Some crash -> toLowerCase crash = "yes" ->
                 incident_type i = "collision") /\
  (field record "Incident Date" = None -> field record "Date of Incident" = None ->
   occurred_at i = now).
Proof.
  unfold processRecord.
  destruct (resolve _ _ _ record (city_of record) (state_of record) w) as [r w'].
  simpl. split; [apply mapIncidentType_range|]. split; [apply mapCompany_range|].
  repeat split.
  - apply startsWith_app.
  - intros crash Hc Hy. unfold mapIncidentType. rewrite Hc. simpl. now rewrite Hy.
  - intros -> ->. reflexivity.
Qed.

End ProcessedProps.

Lemma processed_incident_fields_witness :
  let record : RawRecord := {[ "Crash" := "YES"; "Make" := "Jaguar (Waymo)" ]} in
  let i := incident (fst (Normalizer.processADASRecord 0 (fun _ => None) []
                            (fun _ _ => Thrown) (fun _ => 0.5%Q) record 7 42%Z fresh)) in
  record !! "Crash" = Some "YES" /\ toLowerCase "YES" = "yes" /\
  incident_type i = "collision" /\ occurred_at i = 42%Z.
Proof.
  intros record i.
  assert (Hc : record !! "Crash" = Some "YES") by reflexivity.
  assert (Hy : toLowerCase "YES" = "yes") by reflexivity.
  destruct (processed_incident_fields 0 (fun _ => None) [] (fun _ _ => Thrown)
              (fun _ => 0.5%Q) Normalizer.ADAS record 7 42%Z fresh)
    as (_ & _ & _ & _ & _ & _ & _ & Hcrash & Hdate).
  split; [exact Hc|]. split; [exact Hy|].
  split; [exact (Hcrash "YES" Hc Hy)|apply Hdate; reflexivity].
Defined.

(** ** The geocoding caches *)

Section CacheProps.
Import Geo GeoFacts.
Local Open Scope Q_scope.

Variable service : nat -> request -> response.
Variable random : nat -> Q.

Lemma city_key_lower city state city' state' :
  toLowerCase city' = toLowerCase city -> toLowerCase state' = toLowerCase state ->
  city_key city' state' = city_key city state.
Proof. intros Hc Hs. unfold city_key. now rewrite Hc, Hs. Qed.




(** X10. [getCoordinates] sends no request and writes no cache: it
    draws two random numbers and nothing else changes; and when the
    city has a resolved centre in the city cache, the point it gives lies
    within 0.02 degrees of that centre in latitude and in longitude. *)
Theorem getCoordinates_city_tier city state w :
  unit_interval random ->
  let r := getCoordinates random city state w in
  snd r = {| geocodeCache := geocodeCache w;
             streetGeocodeCache := streetGeocodeCache w;
             requests := requests w; narratives := narratives w;
             draws := S (S (draws w)) |} /\
  (forall cached, geocodeCache w !! city_key city state = Some (Some cached) ->
     exists a b, fst r = {| c_lat := Num a; c_lng := Num b |} /\
                 lat cached - 0.02 <= a <= lat cached + 0.02 /\
                 lng cached - 0.02 <= b <= lng cached + 0.02).
Proof.
  intros Hr r. subst r. unfold getCoordinates, jitter. split.
  - destruct (geocodeCache w !! city_key city state) as [[g|]|];
      [reflexivity|destruct (state_or_CA state); reflexivity..].
  - intros cached ->. simpl.
    pose proof (Hr (draws w)) as [R1 R2]. pose proof (Hr (S (draws w))) as [R3 R4].
    eexists _, _. split; [reflexivity|]. split; lra.
Qed.

End CacheProps.




Lemma getCoordinates_city_tier_witness :
  Geo.unit_interval (fun _ => 0.25%Q) /\
  draws (snd (Geo.getCoordinates (fun _ => 0.25%Q) "San Francisco" "CA" sf_world)) = 2.
Proof.
  assert (Hr : Geo.unit_interval (fun _ => 0.25%Q)).
  { intros n. split; [unfold Qle|unfold Qlt]; simpl; lia. }
  split; [exact Hr|].
  now rewrite (proj1 (getCoordinates_city_tier (fun _ => 0.25%Q) "San Francisco" "CA"
                        sf_world Hr)).
Defined.

(** ** Pre-geocoding *)

Lemma grows_by_refl kind n l : grows_by kind n l l.
Proof. exists []. split; [reflexivity|]. split; [simpl; lia|constructor]. Qed.

Lemma grows_by_trans kind n m a b c :
  grows_by kind n a b -> grows_by kind m b c -> grows_by kind (n + m) a c.
Proof.
  intros (x & -> & Lx & Fx) (y & -> & Ly & Fy). exists (y ++ x).
  split; [now rewrite app_assoc|]. split; [rewrite length_app; lia|].
  apply Forall_app. split; assumption.
Qed.

Lemma grows_by_le kind n m a b : n <= m -> grows_by kind n a b -> grows_by kind m a b.
Proof. intros H (x & -> & Lx & Fx). exists x. split; [reflexivity|]. split; [lia|exact Fx]. Qed.

Lemma keeps_refl m : keeps m m.
Proof. intros k _. reflexivity. Qed.

Lemma keeps_trans a b c : keeps a b -> keeps b c -> keeps a c.
Proof.
  intros H1 H2 k Hk. rewrite H2, H1; [reflexivity|exact Hk|]. rewrite H1; exact Hk.
Qed.

Lemma keeps_insert (m : gmap string (option GeocodedLocation)) k v :
  m !! k = None -> keeps m (<[k := v]> m).
Proof.
  intros Hk j [x Hj]. apply lookup_insert_ne. intros ->. congruence.
Qed.

Lemma split_acc_no_sep sep s : forall cur,
  count_char sep s = 0 -> split_acc sep cur s = [(cur ++ s)%string].
Proof.
  induction s as [|c r IH]; intros cur H; simpl.
  - now rewrite string_app_nil_r.
  - simpl in H. destruct (Ascii.eqb c sep); [discriminate|].
    rewrite IH by exact H. now rewrite string_app_assoc.
Qed.

Lemma split_acc_first sep a b : forall cur,
  count_char sep a = 0 ->
  split_acc sep cur (a ++ String sep b) = (cur ++ a)%string :: split_acc sep "" b.
Proof.
  induction a as [|c r IH]; intros cur H.
  - rewrite append_nil. simpl. rewrite Ascii.eqb_refl. now rewrite string_app_nil_r.
  - rewrite append_cons. simpl. simpl in H. destruct (Ascii.eqb c sep); [discriminate|].
    rewrite IH by exact H. now rewrite string_app_assoc.
Qed.

Section PreGeocodeProps.
Import Geo Normalizer.

Variable service : nat -> request -> response.

Lemma geocodeLocation_step city state w :
  let w1 := snd (geocodeLocation service city state w) in
  streetGeocodeCache w1 = streetGeocodeCache w /\ draws w1 = draws w /\
  narratives w1 = narratives w /\ keeps (geocodeCache w) (geocodeCache w1) /\
  grows_by PlaceLocality 1 (requests w) (requests w1) /\
  is_Some (geocodeCache w1 !! city_key city state).
Proof.
  unfold geocodeLocation.
  destruct (geocodeCache w !! city_key city state) as [v|] eqn:E.
  - simpl. refine (conj eq_refl (conj eq_refl (conj eq_refl (conj _ (conj _ _))))).
    + apply keeps_refl.
    + apply grows_by_refl.
    + rewrite E. eauto.
  - unfold fetch.
    assert (G : grows_by PlaceLocality 1 (requests w)
                  ({| query := (city ++ ", " ++ state ++ ", USA")%string;
                      types := PlaceLocality |} :: requests w)).
    { eexists [_]. split; [reflexivity|]. split; [simpl; lia|].
      constructor; [reflexivity|constructor]. }
    destruct (service _ _) as [| |[|f fs]]; simpl;
      (refine (conj eq_refl (conj eq_refl (conj eq_refl (conj _ (conj G _)))));
       [now apply keeps_insert|rewrite lookup_insert_eq; eauto]).
Qed.

Lemma uniqueLocations_facts records : forall seen,
  let locs := uniqueLocations records seen in
  (forall loc, loc ∈ seen -> loc ∈ locs) /\
  List.length locs <= List.length seen + List.length records /\
  (forall record c s,
     record ∈ records -> record !! "City" = Some c -> record !! "State" = Some s ->
     trim c <> ""%string -> trim s <> ""%string ->
     (trim c ++ "|" ++ trim s)%string ∈ locs) /\
  (NoDup seen -> NoDup locs).
Proof.
  induction records as [|r rs IH]; intros seen; simpl.
  - split; [auto|]. split; [lia|]. split; [|auto].
    intros record c s H. inversion H.
  - set (city := default ""%string (trim <$> r !! "City")).
    set (state := default ""%string (trim <$> r !! "State")).
    set (loc := (city ++ "|" ++ state)%string).
    assert (Hhead : forall next,
              (loc ∈ next \/ truthy city && truthy state = false) ->
              (forall x, x ∈ seen -> x ∈ next) ->
              List.length next <= S (List.length seen) ->
              (NoDup seen -> NoDup next) ->
              let locs := uniqueLocations rs next in
              (forall x, x ∈ seen -> x ∈ locs) /\
              List.length locs <= List.length seen + S (List.length rs) /\
              (forall record c s,
                 record ∈ r :: rs -> record !! "City" = Some c ->
                 record !! "State" = Some s ->
                 trim c <> ""%string -> trim s <> ""%string ->
                 (trim c ++ "|" ++ trim s)%string ∈ locs) /\
              (NoDup seen -> NoDup locs)).
    { intros next Hloc Hsub Hlen Hnd. destruct (IH next) as (I1 & I2 & I3 & I4).
      split; [auto|]. split; [lia|]. split; [|auto].
      intros record c s Hin Hc Hs Tc Ts.
      apply elem_of_cons in Hin as [->|Hin]; [|eapply I3; eassumption].
      destruct Hloc as [Hloc|Hloc].
      - apply I1. subst loc city state. now rewrite Hc, Hs in Hloc.
      - subst city state. rewrite Hc, Hs in Hloc. simpl in Hloc.
        unfold truthy in Hloc.
        destruct (String.eqb_spec (trim c) ""); [contradiction|].
        destruct (String.eqb_spec (trim s) ""); [contradiction|]. discriminate. }
    destruct (truthy city && truthy state) eqn:T; simpl.
    + case_bool_decide as Hd; simpl.
      * apply Hhead; [now left|auto|lia|auto].
      * apply Hhead.
        -- left. apply elem_of_app. right. now left.
        -- intros x Hx. apply elem_of_app. now left.
        -- rewrite length_app. simpl. lia.
        -- intros Hnd. apply NoDup_app. split; [exact Hnd|]. split.
           ++ intros x Hx Hx'. apply list_elem_of_singleton in Hx' as ->. contradiction.
           ++ apply NoDup_singleton.
    + apply Hhead; [now right|auto|lia|auto].
Qed.

Lemma pre_fold locs : forall w,
  let w' := fold_left (fun w loc => snd (geocodeLocation service
                         (nth 0 (split "|" loc) "") (nth 1 (split "|" loc) "") w))
              locs w in
  streetGeocodeCache w' = streetGeocodeCache w /\ draws w' = draws w /\
  narratives w' = narratives w /\ keeps (geocodeCache w) (geocodeCache w') /\
  grows_by PlaceLocality (List.length locs) (requests w) (requests w') /\
  (forall loc, loc ∈ locs ->
     is_Some (geocodeCache w' !! city_key (nth 0 (split "|" loc) "")
                                         (nth 1 (split "|" loc) ""))).
Proof.
  induction locs as [|l ls IH]; intros w; simpl.
  - refine (conj eq_refl (conj eq_refl (conj eq_refl (conj _ (conj _ _))))).
    + apply keeps_refl.
    + apply grows_by_refl.
    + intros loc H. inversion H.
  - destruct (geocodeLocation_step (nth 0 (split "|" l) "") (nth 1 (split "|" l) "") w)
      as (S1 & D1 & N1 & K1 & G1 & C1).
    destruct (IH (snd (geocodeLocation service (nth 0 (split "|" l) "")
                         (nth 1 (split "|" l) "") w))) as (S2 & D2 & N2 & K2 & G2 & C2).
    split; [now rewrite S2|]. split; [now rewrite D2|]. split; [now rewrite N2|].
    split; [eapply keeps_trans; eassumption|].
    split; [exact (grows_by_trans _ _ _ _ _ _ G1 G2)|].
    intros loc Hin. apply elem_of_cons in Hin as [->|Hin]; [|apply C2, Hin].
    rewrite K2; exact C1.
Qed.

(** X11. After [preGeocodeAllCities] every record with a city and a
    state that are not blank, and hold no vertical bar, has an entry in
    the city cache under its trimmed city and state, found or not found;
    the entries that were in the cache are kept; at most one request is
    sent for each record, all for places; and the street cache is not
    touched. *)
Theorem preGeocodeAllCities_covers records w :
  let w' := preGeocodeAllCities service records w in
  (forall record c s,
     record ∈ records -> record !! "City" = Some c -> record !! "State" = Some s ->
     trim c <> ""%string -> trim s <> ""%string ->
     count_char "|" (trim c) = 0 -> count_char "|" (trim s) = 0 ->
     is_Some (geocodeCache w' !! city_key (trim c) (trim s))) /\
  keeps (geocodeCache w) (geocodeCache w') /\
  grows_by PlaceLocality (List.length records) (requests w) (requests w') /\
  streetGeocodeCache w' = streetGeocodeCache w /\
  narratives w' = narratives w /\ draws w' = draws w.
Proof.
  intros w'. subst w'. unfold preGeocodeAllCities.
  destruct (pre_fold (uniqueLocations records []) w) as (S1 & D1 & N1 & K1 & G1 & C1).
  destruct (uniqueLocations_facts records []) as (_ & L & U & _).
  split; [|split; [exact K1|split; [|auto]]].
  - intros record c s Hin Hc Hs Tc Ts Bc Bs.
    specialize (C1 _ (U record c s Hin Hc Hs Tc Ts)).
    assert (E : split "|" (trim c ++ "|" ++ trim s) = [trim c; trim s]).
    { unfold split. change ("|" ++ trim s)%string with (String "|" (trim s)).
      rewrite split_acc_first by exact Bc. rewrite split_acc_no_sep by exact Bs.
      now rewrite !append_nil. }
    rewrite E in C1. exact C1.
  - eapply grows_by_le; [|exact G1]. simpl in L. lia.
Qed.

End PreGeocodeProps.

Lemma preGeocodeAllCities_covers_witness :
  let record : RawRecord := {[ "City" := " Austin"; "State" := "TX" ]} in
  let w' := Normalizer.preGeocodeAllCities sane_service [record] fresh in
  record ∈ [record] /\ trim " Austin" <> ""%string /\
  is_Some (geocodeCache w' !! Geo.city_key (trim " Austin") (trim "TX")).
Proof.
  intros record w'.
  assert (Hin : record ∈ [record]) by (left; reflexivity).
  assert (Tc : trim " Austin" <> ""%string) by discriminate.
  split; [exact Hin|]. split; [exact Tc|].
  apply (proj1 (preGeocodeAllCities_covers sane_service [record] fresh)
           record " Austin" "TX" Hin); try reflexivity; discriminate.
Defined.

(** ** Further properties of the processing *)

Lemma processes_refl w : processes 0 w w.
Proof.
  unfold processes. split; [reflexivity|]. split; [apply keeps_refl|].
  split; [apply grows_by_refl|]. lia.
Qed.

Lemma processes_trans n m w1 w2 w3 :
  processes n w1 w2 -> processes m w2 w3 -> processes (n + m) w1 w3.
Proof.
  intros (C1 & K1 & G1 & D1 & N1) (C2 & K2 & G2 & D2 & N2).
  unfold processes. split; [congruence|]. split; [eapply keeps_trans; eassumption|].
  split; [exact (grows_by_trans _ _ _ _ _ _ G1 G2)|]. lia.
Qed.

Lemma processes_le n m w1 w2 : n <= m -> processes n w1 w2 -> processes m w1 w2.
Proof.
  intros H (C1 & K1 & G1 & D1 & N1). unfold processes.
  split; [exact C1|]. split; [exact K1|]. split; [exact (grows_by_le _ _ _ _ _ H G1)|]. lia.
Qed.

Section ProcessingProps.
Import Geo Normalizer.

Variable tza : Z.
Variable Date_parse : string -> option Z.
Variable patterns : list (string -> option string).
Variable service : nat -> request -> response.
Variable random : nat -> Q.

Lemma geocodeStreetAddress_step address city state w :
  let w1 := snd (geocodeStreetAddress service address city state w) in
  geocodeCache w1 = geocodeCache w /\ draws w1 = draws w /\
  narratives w1 = narratives w /\
  keeps (streetGeocodeCache w) (streetGeocodeCache w1) /\
  grows_by AddressPoi 1 (requests w) (requests w1).
Proof.
  unfold geocodeStreetAddress.
  destruct (streetGeocodeCache w !! street_key address city state) as [v|] eqn:E.
  - simpl. refine (conj eq_refl (conj eq_refl (conj eq_refl (conj _ _)))).
    + apply keeps_refl.
    + apply grows_by_refl.
  - unfold fetch.
    assert (G : grows_by AddressPoi 1 (requests w)
                  ({| query := (address ++ ", " ++ city ++ ", " ++ state ++ ", USA")%string;
                      types := AddressPoi |} :: requests w)).
    { eexists [_]. split; [reflexivity|]. split; [simpl; lia|].
      constructor; [reflexivity|constructor]. }
    destruct (service _ _) as [| |[|f fs]]; simpl;
      try (refine (conj eq_refl (conj eq_refl (conj eq_refl (conj _ G))));
           now apply keeps_insert).
    match goal with |- context [if ?b then _ else _] => destruct b end; simpl;
      refine (conj eq_refl (conj eq_refl (conj eq_refl (conj _ G))));
      now apply keeps_insert.
Qed.

Lemma resolve_step record city state w :
  let r := fst (resolve patterns service random record city state w) in
  let w1 := snd (resolve patterns service random record city state w) in
  processes 1 w w1 /\
  (is_Some (realCoords r) -> streetCoords r = None /\ w1 = w) /\
  (is_Some (streetCoords r) -> draws w1 = draws w).
Proof.
  unfold resolve. destruct (parseNHTSACoordinates record) as [c|].
  - simpl. split; [apply (processes_le 0); [lia|apply processes_refl]|].
    split; [auto|]. intros [x Hx]. discriminate.
  - unfold extract.
    destruct (Narrative.extractLocationFromNarrative patterns _) as [a|].
    + destruct (truthy a).
      * match goal with
        | |- context [geocodeStreetAddress service a city state ?w0] =>
            pose proof (geocodeStreetAddress_step a city state w0) as (C & D & N & K & G);
            destruct (geocodeStreetAddress service a city state w0) as [[g|] w2]
        end; simpl in C, D, N, K, G.
        -- simpl. split; [|split; [intros [x Hx]; discriminate|intros _; exact D]].
           unfold processes. rewrite C, D, N. simpl.
           split; [reflexivity|]. split; [exact K|]. split; [exact G|]. lia.
        -- unfold getCoordinates.
           destruct (geocodeCache w2 !! city_key city state) as [[cached|]|];
             [|destruct (state_or_CA state)..]; simpl;
             (split; [|split; intros [x Hx]; discriminate]);
             unfold processes; simpl; rewrite ?C, ?D, ?N; simpl;
             (split; [reflexivity|]; split; [exact K|]; split; [exact G|]; lia).
      * unfold getCoordinates. simpl.
        destruct (geocodeCache w !! city_key city state) as [[cached|]|];
          [|destruct (state_or_CA state)..]; simpl;
          (split; [|split; intros [x Hx]; discriminate]);
          unfold processes; simpl;
          (split; [reflexivity|]; split; [apply keeps_refl|];
           split; [apply (grows_by_le _ 0); [lia|apply grows_by_refl]|]; lia).
    + unfold getCoordinates. simpl.
      destruct (geocodeCache w !! city_key city state) as [[cached|]|];
        [|destruct (state_or_CA state)..]; simpl;
        (split; [|split; intros [x Hx]; discriminate]);
        unfold processes; simpl;
        (split; [reflexivity|]; split; [apply keeps_refl|];
         split; [apply (grows_by_le _ 0); [lia|apply grows_by_refl]|]; lia).
Qed.

Lemma processRecord_step ds record index now w :
  let p := fst (processRecord tza Date_parse patterns service random ds record index now w) in
  let w1 := snd (processRecord tza Date_parse patterns service random ds record index now w) in
  processes 1 w w1 /\
  (hasRealCoords p = true -> hasStreetCoords p = false /\ w1 = w) /\
  (hasStreetCoords p = true -> draws w1 = draws w).
Proof.
  destruct (process_fields tza Date_parse patterns service random ds record index now w)
    as (_ & _ & _ & _ & _ & _ & Hr & Hs & Hw).
  destruct (resolve_step record (city_of record) (state_of record) w) as (P & R & S).
  cbv zeta. rewrite Hr, Hs, Hw. split; [exact P|]. split.
  - intros H. apply bool_decide_eq_true in H. destruct (R H) as [E1 E2].
    split; [|exact E2]. rewrite E1. apply bool_decide_eq_false_2. intros [x Hx]. discriminate.
  - intros H. apply bool_decide_eq_true in H. exact (S H).
Qed.

Lemma processBatch_step ds records : forall index now w,
  processes (List.length records) w
    (snd (processBatch tza Date_parse patterns service random ds records index now w)) /\
  Forall (fun p => hasRealCoords p && hasStreetCoords p = false)
    (fst (processBatch tza Date_parse patterns service random ds records index now w)).
Proof.
  induction records as [|r rs IH]; intros index now w; simpl.
  - split; [apply processes_refl|constructor].
  - destruct (processRecord_step ds r index now w) as (P & R & _).
    destruct (processRecord _ _ _ _ _ ds r index now w) as [p w1]. simpl in P, R.
    destruct (IH (S index) now w1) as (P2 & F2).
    destruct (processBatch _ _ _ _ _ ds rs (S index) now w1) as [ps w2]. simpl in *.
    split; [exact (processes_trans 1 _ _ _ _ P P2)|].
    constructor; [|exact F2].
    destruct (hasRealCoords p); [|reflexivity]. now destruct (R eq_refl) as [-> _].
Qed.


(** X13. A processed record is never counted both as located by the
    coordinates of its record and as located by a street address; when
    it has the coordinates of its record, processing it leaves the
    caches, the requests, the narratives and the random draws as they
    were; when it is located by a street address, no random number is
    drawn: the coordinates are stored without jitter. *)
Theorem accuracy_flags_exclusive ds record index now w :
  let p := fst (processRecord tza Date_parse patterns service random ds record index now w) in
  let w1 := snd (processRecord tza Date_parse patterns service random ds record index now w) in
  hasRealCoords p && hasStreetCoords p = false /\
  (hasRealCoords p = true -> w1 = w) /\
  (hasStreetCoords p = true -> draws w1 = draws w).
Proof.
  intros p w1. destruct (processRecord_step ds record index now w) as (_ & R & S).
  fold p w1 in R, S. split; [|split; [intros H; now apply R|exact S]].
  destruct (hasRealCoords p); [|reflexivity]. now destruct (R eq_refl) as [-> _].
Qed.

End ProcessingProps.

Lemma accuracy_flags_exclusive_witness :
  let record : RawRecord :=
    {[ "Latitude" := "37.7749"; "Longitude" := "-122.4194"; "State" := "CA" ]} in
  let out := Normalizer.processRecord 0 (fun _ => None) [] sane_service (fun _ => 0.5%Q)
               Normalizer.ADS record 0 0%Z fresh in
  hasRealCoords (fst out) = true /\ snd out = fresh.
Proof.
  intros record out.
  assert (H : hasRealCoords (fst out) = true) by (vm_compute; reflexivity).
  split; [exact H|].
  exact (proj1 (proj2 (accuracy_flags_exclusive 0 (fun _ => None) [] sane_service
                         (fun _ => 0.5%Q) Normalizer.ADS record 0 0%Z fresh)) H).
Defined.

(** ** Further properties of the identifiers and of the run *)

Lemma append_inj_l p : forall a b : string, (p ++ a)%string = (p ++ b)%string -> a = b.
Proof.
  induction p as [|c p IH]; intros a b H.
  - now rewrite !append_nil in H.
  - rewrite !append_cons in H. injection H as H. now apply IH.
Qed.

Lemma index_string_inj i j : Normalizer.index_string i = Normalizer.index_string j -> i = j.
Proof.
  unfold Normalizer.index_string. intros H.
  assert (N : forall n, Nat.to_uint n <> Decimal.Nil).
  { intros n E. pose proof (DecimalNat.Unsigned.of_to n) as R. rewrite E in R.
    pose proof (DecimalNat.Unsigned.to_of Decimal.Nil) as T. simpl in R. subst n.
    simpl in E. discriminate. }
  apply DecimalNat.Unsigned.to_uint_inj.
  assert (S : Some (Nat.to_uint i) = Some (Nat.to_uint j)).
  { rewrite <- (DecimalString.NilZero.usu _ (N i)), <- (DecimalString.NilZero.usu _ (N j)).
    now rewrite H. }
  now injection S.
Qed.

Lemma fold_upsert_key_fresh batch : forall keys,
  NoDup batch -> (forall k, k ∈ batch -> k ∉ keys) ->
  fold_left Writer.upsert_key batch keys = keys ++ batch.
Proof.
  induction batch as [|b batch IH]; intros keys Hnd Hfresh; simpl.
  - now rewrite app_nil_r.
  - apply NoDup_cons in Hnd as [Hb Hnd].
    unfold Writer.upsert_key at 2.
    rewrite bool_decide_eq_false_2 by (apply Hfresh; now left).
    rewrite IH; [now rewrite <- app_assoc|exact Hnd|].
    intros k Hk Hin. apply elem_of_app in Hin as [Hin|Hin].
    + apply (Hfresh k); [now right|exact Hin].
    + apply list_elem_of_singleton in Hin as ->. contradiction.
Qed.

Lemma count_exclusive (f g : ProcessedIncident -> bool) l :
  Forall (fun p => f p && g p = false) l ->
  Seed.count_if f l + Seed.count_if g l <= List.length l.
Proof.
  unfold Seed.count_if. induction 1 as [|p l Hp _ IH]; simpl; [lia|].
  destruct (f p), (g p); simpl in *; try discriminate; lia.
Qed.

Section IdentifierProps.
Import Normalizer.

Lemma planned_ids_elem ds records : forall index k,
  k ∈ planned_ids ds records index ->
  exists record j, record ∈ records /\ index <= j < index + List.length records /\
                   k = (id_prefix ds ++ reportNumber ds record j)%string.
Proof.
  induction records as [|r rs IH]; intros index k H; simpl in H; [inversion H|].
  apply elem_of_cons in H as [->|H].
  - exists r, index. split; [now left|]. split; [simpl; lia|reflexivity].
  - destruct (IH _ _ H) as (record & j & Hin & Hj & E).
    exists record, j. split; [now right|]. split; [simpl; lia|exact E].
Qed.

(** X14. The external identifier of a record of the ADS file is never
    the external identifier of a record of the ADAS file, whatever the
    report numbers and the positions: the two prefixes part at their
    ninth character, so that no record of one file replaces a row of the
    other. *)
Theorem dataset_ids_disjoint ads adas i j k :
  k ∈ planned_ids ADS ads i -> k ∉ planned_ids ADAS adas j.
Proof.
  intros Ha Hb.
  apply planned_ids_elem in Ha as (ra & ia & _ & _ & Ea).
  apply planned_ids_elem in Hb as (rb & ib & _ & _ & Eb).
  rewrite Ea in Eb. simpl in Eb. rewrite !append_cons in Eb. discriminate.
Qed.

(** X15. When no record of a file has a report number, the external
    identifiers of its records, made from the positions, are pairwise
    distinct. *)
Theorem index_ids_distinct ds records index :
  (forall record, record ∈ records -> field record "Report Number" = None) ->
  NoDup (planned_ids ds records index).
Proof.
  revert index. induction records as [|r rs IH]; intros index H; simpl.
  - constructor.
  - apply NoDup_cons. split; [|apply IH; intros record Hin; apply H; now right].
    intros Hin. apply planned_ids_elem in Hin as (record & j & Hrec & Hj & E).
    assert (R : forall x n, field x "Report Number" = None ->
                reportNumber ds x n = (index_prefix ds ++ index_string n)%string).
    { intros x n Hx. unfold reportNumber, field_or. unfold field in Hx.
      destruct (x !! "Report Number") as [v|]; [|reflexivity].
      destruct (truthy v); [discriminate|reflexivity]. }
    rewrite (R r index) in E by (apply H; now left).
    rewrite (R record j) in E by (apply H; now right).
    apply append_inj_l, append_inj_l, index_string_inj in E. lia.
Qed.

End IdentifierProps.

Lemma dataset_ids_disjoint_witness :
  "nhtsa-ads-30270-1234" ∈ Normalizer.planned_ids Normalizer.ADS sample_ads 0 /\
  "nhtsa-ads-30270-1234" ∉ Normalizer.planned_ids Normalizer.ADAS sample_adas 0.
Proof.
  assert (H : "nhtsa-ads-30270-1234" ∈ Normalizer.planned_ids Normalizer.ADS sample_ads 0)
    by (left; reflexivity).
  split; [exact H|]. exact (dataset_ids_disjoint sample_ads sample_adas 0 0 _ H).
Defined.

Lemma index_ids_distinct_witness :
  NoDup (Normalizer.planned_ids Normalizer.ADAS (sample_adas ++ sample_adas) 7).
Proof.
  apply index_ids_distinct. intros record H.
  apply elem_of_cons in H as [->|H]; [reflexivity|].
  apply list_elem_of_singleton in H as ->. reflexivity.
Defined.

Section RunProps.
Import Geo Normalizer Writer Seed WriterFacts.

Variable tza : Z.
Variable Date_parse : string -> option Z.
Variable patterns : list (string -> option string).
Variable service : nat -> request -> response.
Variable random : nat -> Q.
Variable refuses : list string -> bool.

Lemma writeAll_counters size incidents : 0 < size -> forall fuel i s c,
  List.length incidents - i <= fuel ->
  let c' := snd (writeAll refuses fuel size incidents i s c) in
  totalInserted c' + totalSkipped c' + totalErrors c'
    = totalInserted c + totalSkipped c + totalErrors c + (List.length incidents - i) /\
  ((forall b, refuses b = false) ->
   totalErrors c' = totalErrors c /\
   totalInserted c' = totalInserted c + (List.length incidents - i)).
Proof.
  intros Hsize. induction fuel as [|fuel IH]; intros i s c Hfuel; simpl.
  - split; [lia|]. intros _. lia.
  - destruct (Nat.ltb_spec i (List.length incidents)) as [Hi|Hi]; simpl;
      [|split; [lia|intros _; lia]].
    unfold upsert.
    pose proof (length_take (drop i incidents) size) as Lt.
    rewrite length_drop in Lt.
    destruct (refuses _) eqn:Hr.
    + match goal with |- context [writeAll refuses fuel size incidents (i + size) s ?c1] =>
        destruct (IH (i + size) s c1) as [I1 I2]; [lia|] end.
      simpl in I1, I2. split; [rewrite I1; simpl; lia|].
      intros Hnone. rewrite Hnone in Hr. discriminate.
    + match goal with |- context [writeAll refuses fuel size incidents (i + size) ?s1 ?c1] =>
        destruct (IH (i + size) s1 c1) as [I1 I2]; [lia|] end.
      simpl in I1, I2. split; [rewrite I1; simpl; lia|].
      intros Hnone. destruct (I2 Hnone) as [E1 E2]. rewrite E1, E2. simpl. lia.
Qed.

(** X16. Every record a run processes is counted exactly once by the
    writer, as inserted, as skipped or as failed: the three counters of
    a run add up to the number of records of the ADS file and of the
    first 500 of the ADAS file; with the storage service as the spec
    describes it, and refusing no batch, all of them are counted as
    inserted. *)
Theorem seed_counters_total ads adas now s :
  let o := seedNHTSAData tza Date_parse patterns service random refuses ads adas now s in
  totalInserted (counts o) + totalSkipped (counts o) + totalErrors (counts o)
    = List.length ads + Nat.min 500 (List.length adas) /\
  ((forall b, refuses b = false) ->
   totalErrors (counts o) = 0 /\
   totalInserted (counts o) = List.length ads + Nat.min 500 (List.length adas)).
Proof.
  remember (Nat.min 500 (List.length adas)) as m eqn:Hm.
  unfold seedNHTSAData. rewrite processAll_whole.
  set (w0 := preGeocodeAllCities service (ads ++ take 500 adas) fresh).
  pose proof (processBatch_facts tza Date_parse patterns service random ADS ads 0 now w0)
    as (_ & _ & La).
  destruct (processBatch _ _ _ _ _ ADS ads 0 now w0) as [pa w1]. simpl in La.
  cbn [fst snd].
  pose proof (writeAll_counters 50 (map incident pa) ltac:(lia)
                (List.length (map incident pa)) 0 s
                {| totalInserted := 0; totalSkipped := 0; totalErrors := 0 |} ltac:(lia))
    as [T1 N1].
  destruct (writeAll refuses (List.length (map incident pa)) 50 (map incident pa) 0 s _)
    as [s1 c1]. simpl in T1, N1.
  rewrite processAll_whole.
  pose proof (processBatch_facts tza Date_parse patterns service random ADAS
                (take 500 adas) 0 now w1) as (_ & _ & Lb).
  destruct (processBatch _ _ _ _ _ ADAS (take 500 adas) 0 now w1) as [pb w2].
  simpl in Lb.
  pose proof (writeAll_counters 50 (map incident pb) ltac:(lia)
                (List.length (map incident pb)) 0 s1 c1 ltac:(lia)) as [T2 N2].
  destruct (writeAll refuses (List.length (map incident pb)) 50 (map incident pb) 0 s1 c1)
    as [s2 c2]. simpl in T2, N2. simpl.
  rewrite length_map in *. rewrite length_take, <- Hm in Lb.
  split; [lia|]. intros Hnone. destruct (N1 Hnone), (N2 Hnone). lia.
Qed.

(** X17. The three counts of location accuracy of a run, real, street
    and fallback, add up to the number of records processed: no record
    is counted twice, and the difference that gives the fallback count
    never goes below zero. *)
Theorem accuracy_counts_partition ads adas now s :
  let o := seedNHTSAData tza Date_parse patterns service random refuses ads adas now s in
  realCoordsCount o + streetCoordsCount o + fallbackCoordsCount o
    = List.length ads + Nat.min 500 (List.length adas) /\
  realCoordsCount o + streetCoordsCount o
    <= List.length (adsProcessed o) + List.length (adasProcessed o).
Proof.
  remember (Nat.min 500 (List.length adas)) as m eqn:Hm.
  unfold seedNHTSAData. rewrite processAll_whole.
  set (w0 := preGeocodeAllCities service (ads ++ take 500 adas) fresh).
  pose proof (processBatch_facts tza Date_parse patterns service random ADS ads 0 now w0)
    as (_ & _ & La).
  pose proof (processBatch_step tza Date_parse patterns service random ADS ads 0 now w0)
    as [_ Fa].
  destruct (processBatch _ _ _ _ _ ADS ads 0 now w0) as [pa w1]. simpl in La, Fa.
  cbn [fst snd].
  destruct (writeAll refuses (List.length (map incident pa)) 50 (map incident pa) 0 s _)
    as [s1 c1].
  rewrite processAll_whole.
  pose proof (processBatch_facts tza Date_parse patterns service random ADAS
                (take 500 adas) 0 now w1) as (_ & _ & Lb).
  pose proof (processBatch_step tza Date_parse patterns service random ADAS
                (take 500 adas) 0 now w1) as [_ Fb].
  destruct (processBatch _ _ _ _ _ ADAS (take 500 adas) 0 now w1) as [pb w2].
  simpl in Lb, Fb.
  destruct (writeAll refuses (List.length (map incident pb)) 50 (map incident pb) 0 s1 c1)
    as [s2 c2]. simpl.
  apply (count_exclusive hasRealCoords hasStreetCoords) in Fa, Fb.
  rewrite length_take, <- Hm in Lb. lia.
Qed.

(** X18. A run into an empty store, with no batch refused and with the
    external identifiers of each file pairwise distinct, leaves in the
    store one row for each record processed, the rows of the ADS file
    first and then those of the ADAS file, each in the order of the
    file (the storage service as the spec describes it). *)
Theorem seed_fresh_store ads adas now :
  (forall b, refuses b = false) ->
  NoDup (planned_ids ADS ads 0) ->
  NoDup (planned_ids ADAS (take 500 adas) 0) ->
  let o := seedNHTSAData tza Date_parse patterns service random refuses ads adas now [] in
  ids (persisted o) = planned_ids ADS ads 0 ++ planned_ids ADAS (take 500 adas) 0 /\
  List.length (persisted o) = List.length ads + Nat.min 500 (List.length adas).
Proof.
  intros Hnone Ha Hb o.
  destruct (seed_outcome tza Date_parse patterns refuses service random ads adas now [])
    as (_ & _ & K). fold o in K.
  assert (E : ids (persisted o)
              = planned_ids ADS ads 0 ++ planned_ids ADAS (take 500 adas) 0).
  { rewrite K. unfold keys_after.
    rewrite !accepted_all; [|lia|exact Hnone|rewrite planned_ids_length; lia
                            |lia|exact Hnone|rewrite planned_ids_length; lia].
    rewrite !drop_0. simpl ids.
    rewrite (fold_upsert_key_fresh _ []); [|exact Ha|intros k _ H; inversion H].
    rewrite fold_upsert_key_fresh; [reflexivity|exact Hb|].
    intros k Hk Hin. rewrite app_nil_l in Hin.
    apply planned_ids_elem in Hin as (ra & ia & _ & _ & Ea).
    apply planned_ids_elem in Hk as (rb & ib & _ & _ & Eb).
    rewrite Ea in Eb. simpl in Eb. rewrite !append_cons in Eb. discriminate. }
  split; [exact E|].
  unfold ids in E. rewrite <- (length_map external_id), E, length_app.
  rewrite !planned_ids_length, length_take. lia.
Qed.


End RunProps.

Lemma seed_counters_total_witness :
  let o := Seed.seedNHTSAData 0 (fun _ => None) [] sane_service (fun _ => 0.5%Q)
             never_refuses sample_ads sample_adas 0%Z [] in
  (forall b, never_refuses b = false) /\
  Writer.totalErrors (Seed.counts o) = 0 /\
  Writer.totalInserted (Seed.counts o)
    = List.length sample_ads + Nat.min 500 (List.length sample_adas).
Proof.
  intros o.
  assert (Hnone : forall b, never_refuses b = false) by reflexivity.
  split; [exact Hnone|].
  exact (proj2 (seed_counters_total 0 (fun _ => None) [] sane_service (fun _ => 0.5%Q)
                  never_refuses sample_ads sample_adas 0%Z []) Hnone).
Defined.

Lemma seed_fresh_store_witness :
  let o := Seed.seedNHTSAData 0 (fun _ => None) [] sane_service (fun _ => 0.5%Q)
             never_refuses sample_ads sample_adas 0%Z [] in
  NoDup (Normalizer.planned_ids Normalizer.ADS sample_ads 0) /\
  NoDup (Normalizer.planned_ids Normalizer.ADAS (take 500 sample_adas) 0) /\
  Writer.ids (Seed.persisted o)
    = Normalizer.planned_ids Normalizer.ADS sample_ads 0
      ++ Normalizer.planned_ids Normalizer.ADAS (take 500 sample_adas) 0 /\
  List.length (Seed.persisted o)
    = List.length sample_ads + Nat.min 500 (List.length sample_adas).
Proof.
  intros o.
  assert (Ha : NoDup (Normalizer.planned_ids Normalizer.ADS sample_ads 0)).
  { apply NoDup_cons. split; [|apply NoDup_singleton].
    intros H. apply list_elem_of_singleton in H. discriminate. }
  assert (Hb : NoDup (Normalizer.planned_ids Normalizer.ADAS (take 500 sample_adas) 0))
    by apply NoDup_singleton.
  split; [exact Ha|]. split; [exact Hb|].
  apply (seed_fresh_store 0 (fun _ => None) [] sane_service (fun _ => 0.5%Q)
           never_refuses sample_ads sample_adas 0%Z); [reflexivity|exact Ha|exact Hb].
Defined.


(** ** Further properties of the date parser *)

Lemma upper_char_facts c :
  is_ws (upper_char c) = is_ws c /\ upper_char (upper_char c) = upper_char c.
Proof. by_char c. Qed.

Lemma trimStart_upper s : trimStart (toUpperCase s) = toUpperCase (trimStart s).
Proof.
  unfold toUpperCase. induction s as [|c r IH]; simpl; [reflexivity|].
  rewrite (proj1 (upper_char_facts c)). now destruct (is_ws c).
Qed.

Lemma trimEnd_upper s : trimEnd (toUpperCase s) = toUpperCase (trimEnd s).
Proof.
  unfold toUpperCase. induction s as [|c r IH]; simpl; [reflexivity|].
  rewrite IH, (proj1 (upper_char_facts c)).
  destruct (trimEnd r); simpl; [now destruct (is_ws c)|reflexivity].
Qed.

Lemma toUpperCase_idempotent s : toUpperCase (toUpperCase s) = toUpperCase s.
Proof.
  unfold toUpperCase. induction s as [|c r IH]; simpl; [reflexivity|].
  now rewrite IH, (proj2 (upper_char_facts c)).
Qed.

(** What the parser matches its patterns against is a fixed point of
    trimming and capitalisation. *)
Lemma normal_form_fixed s : toUpperCase (trim (toUpperCase (trim s))) = toUpperCase (trim s).
Proof.
  unfold trim at 1. rewrite trimStart_upper, trimEnd_upper. fold (trim (trim s)).
  now rewrite trim_idempotent, toUpperCase_idempotent.
Qed.

Module CalendarFacts.
Import JsDate DateFacts.
Local Open Scope Z_scope.

Ltac month_cases m :=
  let Hc := fresh "Hc" in
  assert (Hc : m = 0 \/ m = 1 \/ m = 2 \/ m = 3 \/ m = 4 \/ m = 5 \/ m = 6 \/
               m = 7 \/ m = 8 \/ m = 9 \/ m = 10 \/ m = 11) by lia;
  repeat (destruct Hc as [->|Hc]); [..|subst m].

(** Day [d] of month [m] of year [y]. *)
Lemma month_day_fields t y m d :
  0 <= m <= 11 -> 1 <= d <= month_length y m ->
  Day t = DayFromYear y + month_start (leap y) m + d - 1 ->
  YearFromTime t = y /\ MonthFromTime t = m /\ DateFromTime t = d.
Proof.
  intros Hm Hd Ht. unfold month_length in Hd.
  assert (Hy : YearFromTime t = y).
  { apply YearFromTime_spec. rewrite DayFromYear_succ, Ht. unfold leap in *.
    destruct (DaysInYear_cases y) as [E|E]; rewrite E in *;
      month_cases m; simpl in *; lia. }
  assert (Hw : DayWithinYear t = month_start (leap y) m + d - 1).
  { unfold DayWithinYear. rewrite Hy, Ht. lia. }
  assert (Hl : InLeapYear t = leap y).
  { unfold InLeapYear. now rewrite Hy. }
  split; [assumption|].
  unfold DateFromTime, MonthFromTime. rewrite Hw, Hl.
  unfold leap in *. destruct (DaysInYear y =? 366);
    month_cases m; simpl in *;
    repeat match goal with
           | |- context [?a <? ?b] => destruct (Z.ltb_spec a b); try lia
           end;
    (split; [reflexivity|simpl; lia]).
Qed.

Lemma month_length_bound y m : 0 <= m <= 11 -> 28 <= month_length y m <= 31.
Proof.
  intros Hm. unfold month_length, leap.
  destruct (DaysInYear y =? 366); month_cases m; simpl; lia.
Qed.

Lemma MakeDay_month y m d :
  0 <= m <= 11 -> MakeDay y m d = DayFromYear y + month_start (leap y) m + d - 1.
Proof.
  intros Hm. unfold MakeDay.
  replace (m / 12) with 0 by (Z.div_mod_to_equations; lia).
  replace (m mod 12) with m by (Z.div_mod_to_equations; lia).
  now replace (y + 0) with y by lia.
Qed.

End CalendarFacts.

Module MdyFacts.
Import JsNumber JsDate DateParser.
Local Open Scope Z_scope.

Lemma match_mdy_digits a b c e d1 d2 d3 d4 :
  is_digit a = true -> is_digit b = true -> is_digit c = true -> is_digit e = true ->
  is_digit d1 = true -> is_digit d2 = true -> is_digit d3 = true -> is_digit d4 = true ->
  let s := String a (String b (String "/" (String c (String e (String "/"
             (four d1 d2 d3 d4)))))) in
  match_month_year s = None /\
  match_mdy s = Some (String a (String b ""), String c (String e ""), four d1 d2 d3 d4).
Proof.
  intros Ha Hb Hc He H1 H2 H3 H4 s. split; [reflexivity|].
  subst s. unfold match_mdy. simpl digits_1_2_then. rewrite Ha, Hb. simpl.
  rewrite Hc, He. simpl. unfold all_chars. simpl. now rewrite H1, H2, H3, H4.
Qed.

Lemma canonical_mdy m d y :
  0 <= m <= 99 -> 0 <= d <= 99 -> 0 <= y <= 9999 ->
  let s := (dd m ++ "/" ++ dd d ++ "/" ++ yyyy y)%string in
  match_month_year s = None /\ match_mdy s = Some (dd m, dd d, yyyy y).
Proof.
  intros Hm Hd Hy.
  destruct (digit_char_facts (m / 10)) as [A1 _]; [Z.div_mod_to_equations; lia|].
  destruct (digit_char_facts (m mod 10)) as [A2 _]; [Z.div_mod_to_equations; lia|].
  destruct (digit_char_facts (d / 10)) as [A3 _]; [Z.div_mod_to_equations; lia|].
  destruct (digit_char_facts (d mod 10)) as [A4 _]; [Z.div_mod_to_equations; lia|].
  destruct (digit_char_facts (y / 1000)) as [B1 _]; [Z.div_mod_to_equations; lia|].
  destruct (digit_char_facts (y / 100 mod 10)) as [B2 _]; [Z.div_mod_to_equations; lia|].
  destruct (digit_char_facts (y / 10 mod 10)) as [B3 _]; [Z.div_mod_to_equations; lia|].
  destruct (digit_char_facts (y mod 10)) as [B4 _]; [Z.div_mod_to_equations; lia|].
  exact (match_mdy_digits _ _ _ _ _ _ _ _ A1 A2 A3 A4 B1 B2 B3 B4).
Qed.

End MdyFacts.

Section MdyProps.
Import JsNumber JsDate DateParser DateFacts CalendarFacts.
Local Open Scope Z_scope.

Variable tza : Z.
Variable Date_parse : string -> option Z.

(** The second branch takes every month and day of one or two digits. *)
Lemma parse_mdy s m d y timeStr :
  truthy s = true ->
  toUpperCase (trim s) = (dd m ++ "/" ++ dd d ++ "/" ++ yyyy y)%string ->
  0 <= m <= 99 -> 0 <= d <= 99 -> 0 <= y <= 9999 ->
  parseNHTSADate tza Date_parse (Some s) timeStr =
  Some (apply_time tza (construct tza y (m - 1) d) timeStr).
Proof.
  intros T E Hm Hd Hy. destruct (MdyFacts.canonical_mdy m d y Hm Hd Hy) as [M1 M2].
  unfold parseNHTSADate. rewrite T. simpl negb. cbv iota zeta.
  rewrite E, M1, M2.
  now rewrite (ParserFacts.int10_dd m), (ParserFacts.int10_dd d),
    (ParserFacts.int10_yyyy y) by lia.
Qed.

Lemma construct_day y m d :
  100 <= y -> construct tza y m d = UTC tza (MakeDate (MakeDay y m d) 0).
Proof.
  intros Hy. unfold construct.
  now replace ((0 <=? y) && (y <=? 99)) with false
    by (symmetry; apply andb_false_iff; right; apply Z.leb_gt; lia).
Qed.

Lemma setHours_day D hh mm :
  setHours tza (UTC tza (MakeDate D 0)) hh mm = UTC tza (MakeDate D (MakeTime hh mm 0 0)).
Proof.
  destruct (time_fields D 0 0) as (Dd & _ & _ & Hs & Hms); [lia..|].
  change (MakeTime 0 0 0 0) with 0 in *. unfold setHours.
  replace (LocalTime tza (UTC tza (MakeDate D 0))) with (MakeDate D 0)
    by (unfold LocalTime, UTC; lia).
  now rewrite Dd, Hs, Hms.
Qed.


(** X21. The parser reads a date only after trimming and
    capitalisation: a string that is, trimmed and in capital letters, a
    month abbreviation of the table, a hyphen and a year from 0100 to
    9999, is parsed as that month and year written plainly, with or
    without a time token. *)
Theorem parseNHTSADate_month_year_lenient s mon m y timeStr :
  truthy s = true ->
  toUpperCase (trim s) = (mon ++ "-" ++ yyyy y)%string ->
  In (mon, m) MONTH_MAP -> 100 <= y <= 9999 ->
  parseNHTSADate tza Date_parse (Some s) timeStr
  = parseNHTSADate tza Date_parse (Some (mon ++ "-" ++ yyyy y)%string) timeStr /\
  parseNHTSADate tza Date_parse (Some s) timeStr
  = Some (apply_time tza (construct tza y m 1) timeStr).
Proof.
  intros T E Hin Hy.
  destruct (parse_month_year tza Date_parse mon m y timeStr Hin Hy) as [P _].
  assert (Q : parseNHTSADate tza Date_parse (Some s) timeStr
              = Some (apply_time tza (construct tza y m 1) timeStr)).
  { destruct (digit_char_facts (y / 1000)) as [A1 _]; [Z.div_mod_to_equations; lia|].
    destruct (digit_char_facts (y / 100 mod 10)) as [A2 _]; [Z.div_mod_to_equations; lia|].
    destruct (digit_char_facts (y / 10 mod 10)) as [A3 _]; [Z.div_mod_to_equations; lia|].
    destruct (digit_char_facts (y mod 10)) as [A4 _]; [Z.div_mod_to_equations; lia|].
    destruct (ParserFacts.match_month_year_four mon m _ _ _ _ Hin A1 A2 A3 A4)
      as (_ & M & K & Hm).
    unfold four in M. fold (yyyy y) in M.
    rewrite <- E, normal_form_fixed, E in M.
    unfold parseNHTSADate. rewrite T. simpl negb. cbv iota zeta.
    rewrite E, M, K, (ParserFacts.int10_yyyy y) by lia.
    now replace (y =? 0) with false by (symmetry; apply Z.eqb_neq; lia). }
  split; [now rewrite P, Q|exact Q].
Qed.

End MdyProps.


Lemma parseNHTSADate_month_year_lenient_witness :
  truthy "  oct-2025 " = true /\
  DateParser.parseNHTSADate 0 (fun _ => None) (Some "  oct-2025 ") (Some "14:30")
  = DateParser.parseNHTSADate 0 (fun _ => None) (Some "OCT-2025") (Some "14:30").
Proof.
  assert (T : truthy "  oct-2025 " = true) by reflexivity.
  split; [exact T|].
  apply (parseNHTSADate_month_year_lenient 0 (fun _ => None) "  oct-2025 " "OCT" 9 2025
           (Some "14:30") T); [reflexivity| |lia].
  do 9 right. left. reflexivity.
Defined.

(** ** Further properties of the script without geocoding *)

Section SimpleProps.
Import Geo Normalizer Writer WriterFacts GeoFacts.
Local Open Scope Q_scope.

Variable tza : Z.
Variable Date_parse : string -> option Z.
Variable random : nat -> Q.
Variable refuses : list string -> bool.

Lemma simple_state_or_CA_roomy state e :
  Simple.state_or_CA state = Some e -> roomy e = true.
Proof.
  assert (H : forallb roomy (map snd Simple.STATE_COORDS) = true)
    by (vm_compute; reflexivity).
  rewrite forallb_forall in H.
  unfold Simple.state_or_CA, Simple.state_property.
  destruct (own_property Simple.STATE_COORDS state) as [e'|] eqn:E.
  - intros [= <-]. eapply H, own_property_In, E.
  - destruct (existsb _ _); [discriminate|]. intros E'.
    eapply H, own_property_In, E'.
Qed.

Lemma simple_processEach_facts ds records : forall index now draws,
  let out := Simple.processEach tza Date_parse random ds records index now draws in
  map external_id (fst out) = planned_ids ds records index /\
  map raw_data (fst out) = records /\
  List.length (fst out) = List.length records /\
  snd out = (draws + 2 * List.length records)%nat.
Proof.
  induction records as [|r rs IH]; intros index now draws; simpl.
  - repeat split; lia.
  - destruct (IH (S index) now (S (S draws))) as (I1 & I2 & I3 & I4).
    destruct (Simple.processEach _ _ _ ds rs (S index) now (S (S draws))) as [xs n].
    simpl in *. rewrite I1, I2, I3, I4. repeat split; lia.
Qed.

(** X22. Without geocoding, a record is located within 0.025 degrees
    of the centre of its state, or of the centre of California when the
    state is not in the table, in latitude and in longitude, and the
    location is a valid pair of coordinates; only a state that is the
    name of an inherited property gives a location that is not a number.
    Two random numbers are drawn in either case. *)
Theorem simple_location_near_centre ds record index now draws :
  unit_interval random ->
  let out := Simple.processRecord tza Date_parse random ds record index now draws in
  snd out = S (S draws) /\
  match Simple.state_or_CA (field_or record "State" "CA") with
  | Some c =>
      exists a b, location (fst out) = {| c_lat := Num a; c_lng := Num b |} /\
                  s_lat c - 0.025 <= a < s_lat c + 0.025 /\
                  s_lng c - 0.025 <= b < s_lng c + 0.025 /\
                  valid (location (fst out)) = true
  | None =>
      location (fst out) = {| c_lat := NaN; c_lng := NaN |} /\
      In (field_or record "State" "CA") Object_prototype_names
  end.
Proof.
  intros Hr out. split; [reflexivity|].
  subst out. unfold Simple.processRecord. cbn [fst location].
  destruct (Simple.state_or_CA (field_or record "State" "CA")) as [c|] eqn:E.
  - destruct (roomy_bounds c (simple_state_or_CA_roomy _ _ E)) as [B1 B2].
    pose proof (Hr draws) as R1. pose proof (Hr (S draws)) as R2.
    eexists _, _. split; [reflexivity|]. unfold Simple.addJitter.
    split; [lra|]. split; [lra|]. apply valid_intro; lra.
  - split; [reflexivity|].
    unfold Simple.state_or_CA, Simple.state_property in E.
    destruct (own_property Simple.STATE_COORDS (field_or record "State" "CA"));
      [discriminate|].
    destruct (existsb _ _) eqn:X; [|discriminate].
    apply existsb_exists in X as (n & Hin & Hn). apply String.eqb_eq in Hn.
    now rewrite Hn.
Qed.

Lemma simple_seed_keys ads adas now s :
  ids (Simple.persisted (Simple.seedNHTSAData tza Date_parse random refuses ads adas now s))
  = Seed.keys_after refuses ads adas (ids s).
Proof.
  unfold Simple.seedNHTSAData.
  pose proof (simple_processEach_facts ADS ads 0 now 0) as (Ia & _ & La & _).
  destruct (Simple.processEach _ _ _ ADS ads 0 now 0) as [xa na]. simpl in Ia, La.
  pose proof (ids_writeAll refuses 50 xa (List.length xa) 0 s
                {| totalInserted := 0; totalSkipped := 0; totalErrors := 0 |}) as I1.
  destruct (writeAll refuses (List.length xa) 50 xa 0 s _) as [s1 c1]. simpl in I1.
  pose proof (simple_processEach_facts ADAS (take 500 adas) 0 now na) as (Ib & _ & Lb & _).
  destruct (Simple.processEach _ _ _ ADAS (take 500 adas) 0 now na) as [xb nb].
  simpl in Ib, Lb.
  pose proof (ids_writeAll refuses 50 xb (List.length xb) 0 s1 c1) as I2.
  destruct (writeAll refuses (List.length xb) 50 xb 0 s1 c1) as [s2 c2]. simpl in I2.
  cbn [Simple.persisted].
  rewrite I2, I1, Ia, Ib, La, Lb. unfold Seed.keys_after.
  now rewrite !writeKeys_accepted.
Qed.

(** X23. A run without geocoding hands to the writer one incident for
    each record of the ADS file and for each of the first 500 records
    of the ADAS file, in order, and no other; it draws two random
    numbers for each; and the identifiers it leaves in the store are
    those the plan of the run gives, from the identifiers that were
    there. *)
Theorem simple_seed_outcome ads adas now s :
  let o := Simple.seedNHTSAData tza Date_parse random refuses ads adas now s in
  map raw_data (Simple.adsIncidents o) = ads /\
  map raw_data (Simple.adasIncidents o) = take 500 adas /\
  (List.length (Simple.adasIncidents o) <= 500)%nat /\
  Simple.drawn o = (2 * (List.length ads + Nat.min 500 (List.length adas)))%nat /\
  ids (Simple.persisted o) = Seed.keys_after refuses ads adas (ids s).
Proof.
  intros o. split; [|split; [|split; [|split; [|apply simple_seed_keys]]]]; subst o;
    remember (Nat.min 500 (List.length adas)) as m eqn:Hm;
    unfold Simple.seedNHTSAData;
    pose proof (simple_processEach_facts ADS ads 0 now 0) as (_ & Ra & La & Da);
    destruct (Simple.processEach _ _ _ ADS ads 0 now 0) as [xa na];
    simpl in Ra, La, Da;
    destruct (writeAll refuses (List.length xa) 50 xa 0 s _) as [s1 c1];
    pose proof (simple_processEach_facts ADAS (take 500 adas) 0 now na)
      as (_ & Rb & Lb & Db);
    rewrite length_take, <- Hm in Lb, Db;
    destruct (Simple.processEach _ _ _ ADAS (take 500 adas) 0 now na) as [xb nb];
    simpl in Rb, Lb, Db;
    destruct (writeAll refuses (List.length xb) 50 xb 0 s1 c1) as [s2 c2];
    cbn [Simple.adsIncidents Simple.adasIncidents Simple.drawn];
    [exact Ra|exact Rb|lia|lia].
Qed.

End SimpleProps.

Section VariantProps.
Import Geo Normalizer Writer WriterFacts.

Variable tza : Z.
Variable Date_parse : string -> option Z.
Variable patterns : list (string -> option string).
Variable service : nat -> request -> response.
Variable random1 random2 : nat -> Q.
Variable refuses : list string -> bool.

Lemma variants_agree_batch ds records : forall index now draws w,
  Forall2 same_report
    (fst (Simple.processEach tza Date_parse random1 ds records index now draws))
    (map incident
       (fst (processBatch tza Date_parse patterns service random2 ds records index now w))).
Proof.
  induction records as [|r rs IH]; intros index now draws w; simpl; [constructor|].
  pose proof (IH (S index) now (S (S draws))) as I.
  destruct (Simple.processEach _ _ _ ds rs (S index) now (S (S draws))) as [xs n].
  unfold processRecord at 1.
  destruct (resolve patterns service random2 r (city_of r) (state_of r) w) as [res w1].
  specialize (I w1).
  destruct (processBatch _ _ _ _ _ ds rs (S index) now w1) as [ps w2]. simpl in *.
  constructor; [|exact I]. unfold same_report. simpl. repeat split; reflexivity.
Qed.

(** X24. The script with geocoding and the script without it agree on
    what a report says: run over the same files with the same clock and
    zone, they give, record by record, the same external identifier,
    incident type, company, time of occurrence, counts of fatalities and
    injuries and raw record, whatever the geocoding service and the
    random draws do; and with the same refusals of the storage service
    they leave the same identifiers in the store, so that a run of one
    updates the rows of the other and adds none. *)
Theorem variants_same_reports ads adas now s :
  let a := Simple.seedNHTSAData tza Date_parse random1 refuses ads adas now s in
  let b := Seed.seedNHTSAData tza Date_parse patterns service random2 refuses
             ads adas now s in
  Forall2 same_report (Simple.adsIncidents a) (map incident (Seed.adsProcessed b)) /\
  Forall2 same_report (Simple.adasIncidents a) (map incident (Seed.adasProcessed b)) /\
  ids (Simple.persisted a) = ids (Seed.persisted b).
Proof.
  intros a b.
  destruct (seed_outcome tza Date_parse patterns refuses service random2 ads adas now s)
    as (A & B & K). fold b in A, B, K.
  pose proof (simple_seed_keys tza Date_parse random1 refuses ads adas now s) as K'.
  fold a in K'. rewrite A, B, K, K'. split; [|split; [|reflexivity]].
  - subst a. unfold Simple.seedNHTSAData.
    pose proof (variants_agree_batch ADS ads 0 now 0) as V.
    destruct (Simple.processEach _ _ _ ADS ads 0 now 0) as [xa na].
    destruct (writeAll refuses (List.length xa) 50 xa 0 s _) as [s1 c1].
    destruct (Simple.processEach _ _ _ ADAS (take 500 adas) 0 now na) as [xb nb].
    destruct (writeAll refuses (List.length xb) 50 xb 0 s1 c1) as [s2 c2].
    apply V.
  - subst a. unfold Simple.seedNHTSAData.
    destruct (Simple.processEach _ _ _ ADS ads 0 now 0) as [xa na].
    destruct (writeAll refuses (List.length xa) 50 xa 0 s _) as [s1 c1].
    pose proof (variants_agree_batch ADAS (take 500 adas) 0 now na) as V.
    destruct (Simple.processEach _ _ _ ADAS (take 500 adas) 0 now na) as [xb nb].
    destruct (writeAll refuses (List.length xb) 50 xb 0 s1 c1) as [s2 c2].
    apply V.
Qed.

End VariantProps.

Lemma simple_location_near_centre_witness :
  let record : RawRecord := {[ "State" := "TX" ]} in
  let out := Simple.processRecord 0 (fun _ => None) (fun _ => 0.5%Q) Normalizer.ADS
               record 0 0%Z 0 in
  Geo.unit_interval (fun _ => 0.5%Q) /\ snd out = 2.
Proof.
  intros record out.
  assert (U : Geo.unit_interval (fun _ => 0.5%Q)) by (intros n; unfold Qle, Qlt; simpl; lia).
  split; [exact U|].
  exact (proj1 (simple_location_near_centre 0 (fun _ => None) (fun _ => 0.5%Q)
                  Normalizer.ADS record 0 0%Z 0 U)).
Defined.
